(** * ReAG client: metadata filtering, batching, response parsing, memory

    A shallow embedding of [reag/client.py] and [reag/memory.py], and of the
    chat programs that call the client.

    - Python values are modelled by inductive types; a Python [int] is a [Z].
    - A Python [str] is a Rocq [string].  The text is read as its UTF-8
      encoding: substring, prefix and suffix tests and the lexicographic order
      on the encoded bytes agree with the same operations on code points.
    - A call that may raise returns a [result]; the stateful query functions
      thread the conversation memory and the log of issued completion requests
      explicitly. *)

From Stdlib Require Import ZArith String Ascii List Bool Lia SpecFloat Sorted.
From stdpp Require Import base option list gmap strings.
Import ListNotations.

Local Open Scope string_scope.
Local Open Scope list_scope.

(** ** Exceptions and results *)

Inductive exn : Type :=
| TypeError
| KeyError
| IndexError
| AttributeError
| ValueError
| ValidationError            (* pydantic.ValidationError *)
| JSONDecodeError            (* json.JSONDecodeError, the one exception that
                                [except json.JSONDecodeError] handles *)
| ReError                    (* re.error: the pattern does not compile *)
| RecursionError             (* the nesting is deeper than the interpreter allows *)
| BackendError (msg : string) (* anything raised by the completion backend *)
| QueryFailed (cause : exn).  (* Exception(f"Query failed: {str(e)}") *)

Inductive result (A : Type) : Type :=
| Return (a : A)
| Raise (e : exn).
Arguments Return {A} a.
Arguments Raise {A} e.

Definition bind {A B} (r : result A) (k : A -> result B) : result B :=
  match r with
  | Return a => k a
  | Raise e => Raise e
  end.

Notation "x <- r ;; k" := (bind r (fun x => k))
  (at level 100, r at next level, right associativity).

(** ** Strings: the [str] methods the client uses *)

(* [sub in s] *)
Fixpoint str_in (sub s : string) : bool :=
  String.prefix sub s ||
  match s with
  | EmptyString => false
  | String _ s' => str_in sub s'
  end.

(* [s.startswith(p)] *)
Definition startswith (s p : string) : bool := String.prefix p s.

(* [s.endswith(p)] *)
Definition endswith (s p : string) : bool :=
  (String.length p <=? String.length s)%nat &&
  String.eqb (String.substring (String.length s - String.length p) (String.length p) s) p.

(** ** Data model (client.py, lines 14-40) *)

(* Union[str, int]: a metadata value or a filter value *)
Inductive scalar : Type :=
| VStr (s : string)
| VInt (n : Z).

Global Instance scalar_eq_dec : EqDecision scalar.
Proof. solve_decision. Defined.

Module Document.
Record t : Type := mk {
  name : string;
  content : string;
  metadata : option (gmap string scalar)
}.
End Document.

Module MetadataFilter.
Record t : Type := mk {
  key : string;
  value : scalar;
  operator : option string
}.
End MetadataFilter.

(** ** Python comparisons on [Union[str, int]] *)

(* [a == b]: values of different types are unequal *)
Definition py_eq (a b : scalar) : bool := bool_decide (a = b).

(* [a < b]; ordering an [int] against a [str] raises TypeError *)
Definition py_lt (a b : scalar) : result bool :=
  match a, b with
  | VInt x, VInt y => Return (x <? y)%Z
  | VStr x, VStr y => Return (String.ltb x y)
  | _, _ => Raise TypeError
  end.

(* [a <= b] *)
Definition py_le (a b : scalar) : result bool :=
  match a, b with
  | VInt x, VInt y => Return (x <=? y)%Z
  | VStr x, VStr y => Return (String.leb x y)
  | _, _ => Raise TypeError
  end.

(* [a > b] *)
Definition py_gt (a b : scalar) : result bool := py_lt b a.

(* [a >= b] *)
Definition py_ge (a b : scalar) : result bool := py_le b a.

(** ** The metadata filter evaluator (client.py, lines 72-109) *)

Section Filter.

(* [re.match(pattern, s) is not None] for a pattern and a subject that are
   both [str]; the regular-expression engine is the library's.  It raises
   [re.error] on a pattern that does not compile. *)
Variable re_match : string -> string -> result bool.

(* [f.operator or "equals"] *)
Definition effective_operator (f : MetadataFilter.t) : string :=
  match MetadataFilter.operator f with
  | None => "equals"
  | Some op => if String.eqb op "" then "equals" else op
  end.

(* [isinstance(val, str) and f.value in val] *)
Definition op_contains (val v : scalar) : result bool :=
  match val with
  | VInt _ => Return false
  | VStr s =>
      match v with
      | VStr sub => Return (str_in sub s)
      | VInt _ => Raise TypeError
      end
  end.

(* [isinstance(val, str) and val.startswith(f.value)] *)
Definition op_startsWith (val v : scalar) : result bool :=
  match val with
  | VInt _ => Return false
  | VStr s =>
      match v with
      | VStr p => Return (startswith s p)
      | VInt _ => Raise TypeError
      end
  end.

(* [isinstance(val, str) and val.endswith(f.value)] *)
Definition op_endsWith (val v : scalar) : result bool :=
  match val with
  | VInt _ => Return false
  | VStr s =>
      match v with
      | VStr p => Return (endswith s p)
      | VInt _ => Raise TypeError
      end
  end.

(* [isinstance(val, str) and re.match(f.value, val) is not None] *)
Definition op_regex (val v : scalar) : result bool :=
  match val with
  | VInt _ => Return false
  | VStr s =>
      match v with
      | VStr p => re_match p s
      | VInt _ => Raise TypeError
      end
  end.

Definition passes_filter (doc : Document.t) (f : MetadataFilter.t) : result bool :=
  match Document.metadata doc with
  | None => Return false
  | Some md =>
      if bool_decide (md = ∅) then Return false
      else
        match md !! MetadataFilter.key f with
        | None => Return false
        | Some val =>
            let v := MetadataFilter.value f in
            let op := effective_operator f in
            if String.eqb op "equals" then Return (py_eq val v)
            else if String.eqb op "notEquals" then Return (negb (py_eq val v))
            else if String.eqb op "contains" then op_contains val v
            else if String.eqb op "startsWith" then op_startsWith val v
            else if String.eqb op "endsWith" then op_endsWith val v
            else if String.eqb op "regex" then op_regex val v
            else if String.eqb op "greaterThan" then py_gt val v
            else if String.eqb op "lessThan" then py_lt val v
            else if String.eqb op "greaterThanOrEqual" then py_ge val v
            else if String.eqb op "lessThanOrEqual" then py_le val v
            else Return false
        end
  end.

(* [all(passes_filter(doc, f) for f in filters)]: the generator is consumed
   up to the first false value, or up to the first exception *)
Fixpoint all_pass (doc : Document.t) (filters : list MetadataFilter.t) : result bool :=
  match filters with
  | [] => Return true
  | f :: fs =>
      b <- passes_filter doc f ;;
      if b then all_pass doc fs else Return false
  end.

(* [[doc for doc in documents if all(...)]] *)
Fixpoint select_documents (documents : list Document.t)
    (filters : list MetadataFilter.t) : result (list Document.t) :=
  match documents with
  | [] => Return []
  | doc :: rest =>
      b <- all_pass doc filters ;;
      kept <- select_documents rest filters ;;
      Return (if b then doc :: kept else kept)
  end.

Definition _filter_documents_by_metadata (documents : list Document.t)
    (filters : option (list MetadataFilter.t)) : result (list Document.t) :=
  match filters with
  | None => Return documents
  | Some [] => Return documents
  | Some fs => select_documents documents fs
  end.

End Filter.

(** ** Python values of JSON shape

    What [json.loads] returns and what a message's [content] may hold.  A
    [dict] is kept as the list of its members; [dict_get] reads a key. *)

#[local] Set Warnings "-register-all".

Inductive pyval : Type :=
| PNone
| PBool (b : bool)
| PInt (n : Z)
| PFloat (f : spec_float)
| PStr (s : string)
| PList (items : list pyval)
| PDict (members : list (string * pyval)).

(* [d.get(k)] on the members of a dict *)
Fixpoint dict_get (members : list (string * pyval)) (k : string) : option pyval :=
  match members with
  | [] => None
  | (k', v) :: rest => if String.eqb k' k then Some v else dict_get rest k
  end.

(* [d.get(k, default)] *)
Definition dict_get_default (members : list (string * pyval)) (k : string)
    (default : pyval) : pyval :=
  match dict_get members k with
  | Some v => v
  | None => default
  end.

(* [x[k]] for a [str] key: TypeError unless [x] is a dict, KeyError when the
   key is missing *)
Definition subscript (x : pyval) (k : string) : result pyval :=
  match x with
  | PDict members =>
      match dict_get members k with
      | Some v => Return v
      | None => Raise KeyError
      end
  | _ => Raise TypeError
  end.

(* [x.get(k, default)]: AttributeError unless [x] is a dict *)
Definition method_get (x : pyval) (k : string) (default : pyval) : result pyval :=
  match x with
  | PDict members => Return (dict_get_default members k default)
  | _ => Raise AttributeError
  end.

(* the truth value of [x] in [if x:] *)
Definition truthy (x : pyval) : bool :=
  match x with
  | PNone => false
  | PBool b => b
  | PInt n => negb (n =? 0)%Z
  | PFloat (S754_zero _) => false
  | PFloat _ => true
  | PStr s => negb (String.eqb s "")
  | PList items => match items with [] => false | _ => true end
  | PDict members => match members with [] => false | _ => true end
  end.

(** ** Text helpers: case, whitespace, [str.strip]

    A text is kept as its UTF-8 encoding.  Whitespace is what [str.isspace],
    [str.strip] and [\s] take it to be: U+0009 to U+000D, U+001C to U+0020,
    U+0085, U+00A0, U+1680, U+2000 to U+200A, U+2028, U+2029, U+202F, U+205F
    and U+3000, read here in their encodings of one, two or three bytes.  In
    well-formed UTF-8 a byte below 128 or a lead byte starts a character, so
    looking for these encodings at the start of a text, or at the start of
    what is left of it, finds the characters. *)

Definition ascii_lower (c : ascii) : ascii :=
  let n := nat_of_ascii c in
  if ((65 <=? n) && (n <=? 90))%nat then ascii_of_nat (n + 32) else c.

(* [str.lower] on the letters A to Z.  It is used only to compare with a
   literal of lowercase ASCII letters other than k: the one character outside
   ASCII that [str.lower] turns into ASCII letters alone is U+212A, into k,
   so [lower s] is such a literal exactly when [s.lower()] is. *)
Fixpoint lower (s : string) : string :=
  match s with
  | EmptyString => EmptyString
  | String c s' => String (ascii_lower c) (lower s')
  end.

(* a whitespace character of one byte *)
Definition isspace (c : ascii) : bool :=
  let n := nat_of_ascii c in
  ((9 <=? n) && (n <=? 13))%nat || ((28 <=? n) && (n <=? 32))%nat.

(* of two bytes: U+0085 (C2 85) and U+00A0 (C2 A0) *)
Definition isspace2 (c1 c2 : ascii) : bool :=
  Ascii.eqb c1 "194" && (Ascii.eqb c2 "133" || Ascii.eqb c2 "160").

(* of three bytes: U+1680 (E1 9A 80); U+2000 to U+200A, U+2028, U+2029 and
   U+202F (E2 80 80 to 8A, A8, A9, AF); U+205F (E2 81 9F); U+3000 (E3 80 80) *)
Definition isspace3 (c1 c2 c3 : ascii) : bool :=
  let n3 := nat_of_ascii c3 in
  (Ascii.eqb c1 "225" && Ascii.eqb c2 "154" && Ascii.eqb c3 "128") ||
  (Ascii.eqb c1 "226" && Ascii.eqb c2 "128" &&
   (((128 <=? n3) && (n3 <=? 138))%nat ||
    Ascii.eqb c3 "168" || Ascii.eqb c3 "169" || Ascii.eqb c3 "175")) ||
  (Ascii.eqb c1 "226" && Ascii.eqb c2 "129" && Ascii.eqb c3 "159") ||
  (Ascii.eqb c1 "227" && Ascii.eqb c2 "128" && Ascii.eqb c3 "128").

(* the text after one whitespace character at the start of [s] *)
Definition skip_space (s : string) : option string :=
  match s with
  | String c1 rest1 =>
      if isspace c1 then Some rest1
      else
        match rest1 with
        | String c2 rest2 =>
            if isspace2 c1 c2 then Some rest2
            else
              match rest2 with
              | String c3 rest3 => if isspace3 c1 c2 c3 then Some rest3 else None
              | EmptyString => None
              end
        | EmptyString => None
        end
  | EmptyString => None
  end.

(* [s.lstrip()] *)
Fixpoint lstrip (s : string) : string :=
  match s with
  | EmptyString => EmptyString
  | String c1 rest1 =>
      if isspace c1 then lstrip rest1
      else
        match rest1 with
        | String c2 rest2 =>
            if isspace2 c1 c2 then lstrip rest2
            else
              match rest2 with
              | String c3 rest3 => if isspace3 c1 c2 c3 then lstrip rest3 else s
              | EmptyString => s
              end
        | EmptyString => s
        end
  end.

(* [s.rstrip()]: a byte is kept unless it and all that follows it is
   whitespace *)
Fixpoint rstrip (s : string) : string :=
  match s with
  | EmptyString => EmptyString
  | String c rest =>
      if String.eqb (lstrip s) EmptyString then EmptyString else String c (rstrip rest)
  end.

(* [s.strip()] *)
Definition strip (s : string) : string := rstrip (lstrip s).

(* [s[n:]] *)
Fixpoint str_drop (n : nat) (s : string) : string :=
  match n, s with
  | O, _ => s
  | S n', String _ s' => str_drop n' s'
  | S _, EmptyString => EmptyString
  end.

(* [s[:n]] *)
Fixpoint str_take (n : nat) (s : string) : string :=
  match n, s with
  | S n', String c s' => String c (str_take n' s')
  | _, _ => EmptyString
  end.

(* the first occurrence of [pat] in [s]: the text before it and after it *)
Fixpoint find_split (pat s : string) : option (string * string) :=
  if String.prefix pat s then Some (EmptyString, str_drop (String.length pat) s)
  else
    match s with
    | EmptyString => None
    | String c s' =>
        match find_split pat s' with
        | Some (before, after) => Some (String c before, after)
        | None => None
        end
    end.

(** ** pydantic validation of the fields of [QueryResult]

    litellm requires pydantic 2; its default (lax) mode accepts only a [str]
    for a [str] field, and for a [bool] field a [bool], the numbers 0 and 1,
    and the usual spellings of the two truth values. *)

Definition validate_str (x : pyval) : result string :=
  match x with
  | PStr s => Return s
  | _ => Raise ValidationError
  end.

Definition float_is_one (f : spec_float) : bool :=
  match f with
  | S754_finite false m e => (e <=? 0)%Z && (Z.pos m =? 2 ^ (- e))%Z
  | _ => false
  end.

Definition bool_of_spelling (s : string) : result bool :=
  let l := lower s in
  if existsb (String.eqb l) ["0"; "off"; "f"; "false"; "n"; "no"] then Return false
  else if existsb (String.eqb l) ["1"; "on"; "t"; "true"; "y"; "yes"] then Return true
  else Raise ValidationError.

Definition validate_bool (x : pyval) : result bool :=
  match x with
  | PBool b => Return b
  | PInt n =>
      if (n =? 0)%Z then Return false
      else if (n =? 1)%Z then Return true
      else Raise ValidationError
  | PFloat f =>
      match f with
      | S754_zero _ => Return false
      | _ => if float_is_one f then Return true else Raise ValidationError
      end
  | PStr s => bool_of_spelling s
  | _ => Raise ValidationError
  end.

Module QueryResult.
Record t : Type := mk {
  content : string;
  reasoning : string;
  is_irrelevant : bool;
  document : Document.t
}.

(* [QueryResult(content=c, reasoning=r, is_irrelevant=i, document=d)] *)
Definition new (c r i : pyval) (d : Document.t) : result t :=
  c' <- validate_str c ;;
  r' <- validate_str r ;;
  i' <- validate_bool i ;;
  Return (mk c' r' i' d).
End QueryResult.

Module StreamingQueryResult.
Record t : Type := mk {
  content : string;
  reasoning : option string;
  is_irrelevant : option bool;
  document : option Document.t
}.

(* [StreamingQueryResult(content=c)] *)
Definition new (c : string) : t := mk c None None None.
End StreamingQueryResult.

(** ** Conversation memory (memory.py) *)

Module Message.
(* the dict [{"role": role, "content": content}] *)
Record t : Type := mk {
  role : string;
  content : pyval
}.
End Message.

Module Memory.
Record t : Type := mk {
  history : list Message.t
}.

Definition empty : t := mk [].

Definition add_message (self : t) (message : Message.t) : t :=
  mk (history self ++ [message]).

Definition get_history (self : t) : list Message.t := history self.

Definition clear (self : t) : t := mk [].
End Memory.

(** ** Reading a reasoning model's text (client.py, lines 111-134)

    The three fixed patterns are read by hand.  With DOTALL the lazy group of
    [<think>(.*?)</think>] ends at the first closing tag after the first
    opening tag; [\s*] takes every following whitespace character, and neither
    [true], [false] nor the lazy answer group can start inside it.  Each
    pattern starts with an ASCII character, so it is looked for byte by
    byte. *)

Definition newline : string := String "010" EmptyString.

(* [re.search(r'<think>(.*?)</think>', text, flags=re.DOTALL)]: the text
   before the match, group 1, and the text after the match *)
Definition search_think (text : string) : option (string * string * string) :=
  match find_split "<think>" text with
  | None => None
  | Some (before, rest) =>
      match find_split "</think>" rest with
      | None => None
      | Some (inner, after) => Some (before, inner, after)
      end
  end.

(* [re.sub(r'<think>.*?</think>', '', text, flags=re.DOTALL)]; every match
   removes at least one character, so [String.length text] rounds suffice *)
Fixpoint sub_think_rounds (rounds : nat) (text : string) : string :=
  match rounds with
  | O => text
  | S n =>
      match search_think text with
      | None => text
      | Some (before, _, after) => before ++ sub_think_rounds n after
      end
  end.

Definition sub_think (text : string) : string :=
  sub_think_rounds (String.length text) text.

(* one character of a pattern under [re.IGNORECASE], tried at the start of
   [s]: the text it matches and the text after it.  [p] is a lowercase letter
   or a character without case; it matches itself in either case and, beyond
   ASCII, what Python folds to it: U+0130 and U+0131 (C4 B0, C4 B1) for i,
   U+017F (C5 BF) for s, and nothing for the other letters of the pattern *)
Definition match_char_ignorecase (p : ascii) (s : string) : option (string * string) :=
  match s with
  | String c1 rest1 =>
      if Ascii.eqb (ascii_lower c1) p then Some (String c1 EmptyString, rest1)
      else
        match rest1 with
        | String c2 rest2 =>
            if (Ascii.eqb p "i" && Ascii.eqb c1 "196" &&
                (Ascii.eqb c2 "176" || Ascii.eqb c2 "177")) ||
               (Ascii.eqb p "s" && Ascii.eqb c1 "197" && Ascii.eqb c2 "191")
            then Some (String c1 (String c2 EmptyString), rest2)
            else None
        | EmptyString => None
        end
  | EmptyString => None
  end.

(* a literal pattern, given in lowercase, under [re.IGNORECASE] *)
Fixpoint match_ignorecase (pattern s : string) : option (string * string) :=
  match pattern with
  | EmptyString => Some (EmptyString, s)
  | String p pattern' =>
      match match_char_ignorecase p s with
      | None => None
      | Some (matched, rest) =>
          match match_ignorecase pattern' rest with
          | None => None
          | Some (more, rest') => Some ((matched ++ more)%string, rest')
          end
      end
  end.

(* [\*\*isIrrelevant:\*\*\s*(true|false)] with IGNORECASE, tried at the start
   of [s]: group 1 *)
Definition match_irrelevant_at (s : string) : option string :=
  match match_ignorecase "**isirrelevant:**" s with
  | None => None
  | Some (_, rest) =>
      let rest := lstrip rest in
      match match_ignorecase "true" rest with
      | Some (group1, _) => Some group1
      | None =>
          match match_ignorecase "false" rest with
          | Some (group1, _) => Some group1
          | None => None
          end
      end
  end.

(* [re.search] of that pattern: the leftmost position where it matches *)
Fixpoint search_irrelevant (s : string) : option string :=
  match match_irrelevant_at s with
  | Some g => Some g
  | None =>
      match s with
      | EmptyString => None
      | String _ s' => search_irrelevant s'
      end
  end.

(* the text up to the first line feed *)
Fixpoint until_newline (s : string) : string :=
  match s with
  | EmptyString => EmptyString
  | String c s' => if Ascii.eqb c "010" then EmptyString else String c (until_newline s')
  end.

(* [re.search(r'\*\*Answer:\*\*\s*(.*?)(?:\n|$)', text, re.DOTALL)]: group 1 *)
Definition search_answer (s : string) : option string :=
  match find_split "**Answer:**" s with
  | None => None
  | Some (_, rest) => Some (until_newline (lstrip rest))
  end.

Definition _extract_think_content (text : string) : string * string * bool :=
  let think_match := search_think text in
  let reasoning :=
    match think_match with
    | Some (_, group1, _) => strip group1
    | None => ""
    end in
  let remaining_text := strip (sub_think text) in
  let is_irrelevant :=
    match search_irrelevant remaining_text with
    | Some group1 => String.eqb (lower group1) "true"
    | None => true
    end in
  let content :=
    match search_answer remaining_text with
    | Some group1 => strip group1
    | None => ""
    end in
  (content, reasoning, is_irrelevant).

(** ** The completion backend and the client's state *)

Module Request.
(* [acompletion(model=..., messages=..., stream=...)]; the response schema
   and the pass-through keyword arguments are fixed for a client and are
   left to the backend *)
Record t : Type := mk {
  model : string;
  messages : list Message.t;
  stream : bool
}.
End Request.

(* a completion: each choice is kept as its [message.content] *)
Record response : Type := mk_response {
  choices : list pyval
}.

(* a streamed chunk: each choice is kept as its [delta.content] *)
Record chunk : Type := mk_chunk {
  deltas : list (option string)
}.

Module ReagClient.
(* the attributes set by [__init__] that the query paths read *)
Record t : Type := mk {
  model : string;
  system : string;
  batch_size : Z
}.
End ReagClient.

(* what a query can change: the client's memory, and the completion requests
   issued so far, oldest first *)
Record world : Type := mk_world {
  memory : Memory.t;
  issued : list Request.t
}.

(** A computation that reads and updates the [world] and may raise; the
    updates made before an exception stay. *)
Definition M (A : Type) : Type := world -> world * result A.

Definition ret {A} (a : A) : M A := fun w => (w, Return a).

Definition lift {A} (r : result A) : M A := fun w => (w, r).

Definition bindM {A B} (m : M A) (k : A -> M B) : M B :=
  fun w =>
    match m w with
    | (w', Return a) => k a w'
    | (w', Raise e) => (w', Raise e)
    end.

Notation "x <<- m ;; k" := (bindM m (fun x => k))
  (at level 100, m at next level, right associativity).

(* [self.memory.get_history()] *)
Definition get_history : M (list Message.t) :=
  fun w => (w, Return (Memory.get_history (memory w))).

(* [self.memory.add_message(message)] *)
Definition add_message (message : Message.t) : M unit :=
  fun w => (mk_world (Memory.add_message (memory w) message) (issued w), Return tt).

(* [try: body / except json.JSONDecodeError: handler] *)
Definition except_JSONDecodeError {A} (body handler : M A) : M A :=
  fun w =>
    match body w with
    | (w', Raise JSONDecodeError) => handler w'
    | other => other
    end.

(* [try: body / except Exception as e: raise Exception(f"Query failed: {str(e)}")] *)
Definition except_Exception_reraise {A} (body : M A) : M A :=
  fun w =>
    match body w with
    | (w', Raise e) => (w', Raise (QueryFailed e))
    | other => other
    end.

(* a [for] loop that threads an accumulator *)
Fixpoint for_fold {A B} (f : B -> A -> M B) (l : list A) (acc : B) : M B :=
  match l with
  | [] => ret acc
  | a :: rest => acc' <<- f acc a ;; for_fold f rest acc'
  end.

(* a [for] loop that collects one value per element *)
Fixpoint for_each {A B} (f : A -> M B) (l : list A) : M (list B) :=
  match l with
  | [] => ret []
  | a :: rest => b <<- f a ;; bs <<- for_each f rest ;; ret (b :: bs)
  end.

(* the first exception of a list of outcomes, or all the values *)
Fixpoint sequence {A} (l : list (result A)) : result (list A) :=
  match l with
  | [] => Return []
  | r :: rest => a <- r ;; rest' <- sequence rest ;; Return (a :: rest')
  end.

(* the exceptions of a list of outcomes, in their order *)
Fixpoint failures {A} (l : list (result A)) : list exn :=
  match l with
  | [] => []
  | Return _ :: rest => failures rest
  | Raise e :: rest => e :: failures rest
  end.

(** ** Ranges and slices *)

(* [range(start, stop, step)] *)
Definition py_range (start stop step : Z) : result (list Z) :=
  if (step =? 0)%Z then Raise ValueError
  else
    let count :=
      if (0 <? step)%Z then ((stop - start + step - 1) / step)%Z
      else ((start - stop - step - 1) / (- step))%Z in
    Return (map (fun k => (start + Z.of_nat k * step)%Z) (seq 0 (Z.to_nat count))).

(* a slice bound brought into [0, len] *)
Definition clamp_index (len i : Z) : Z :=
  if (i <? 0)%Z then Z.max 0 (i + len) else Z.min i len.

(* [l[i:j]] *)
Definition py_slice {A} (l : list A) (i j : Z) : list A :=
  let len := Z.of_nat (length l) in
  let i' := clamp_index len i in
  let j' := clamp_index len j in
  take (Z.to_nat (j' - i')) (drop (Z.to_nat i') l).

(* [[docs[i : i + batch_size] for i in range(0, len(docs), batch_size)]]
   (client.py, lines 170-174) *)
Definition batches_of {A} (docs : list A) (batch_size : Z) : result (list (list A)) :=
  starts <- py_range 0 (Z.of_nat (length docs)) batch_size ;;
  Return (map (fun i => py_slice docs i (i + batch_size)) starts).

(** ** Query options *)

(* an element of [options["filter"]], which the annotations of the client
   make a dict or a [MetadataFilter] instance.  A dict [f] is kept as what
   [MetadataFilter( **f )] does with it: the instance it validates to, or the
   exception it raises, which is ValidationError when pydantic rejects the
   items and TypeError when a key of the dict is not a [str] *)
Inductive raw_filter : Type :=
| FilterDict (constructed : result MetadataFilter.t)
| FilterInstance (f : MetadataFilter.t).

(* the value of [options["filter"]]: a list, a dict (kept as above), or
   anything else *)
Inductive filter_option : Type :=
| FilterList (raw_filters : list raw_filter)
| FilterSingle (constructed : result MetadataFilter.t)
| FilterOther.

(* [options]: [None] when it is absent, empty, or has no "filter" key *)
Definition options : Type := option filter_option.

(* [MetadataFilter( **f ) if isinstance(f, dict) else f] *)
Definition convert_raw_filter (f : raw_filter) : result MetadataFilter.t :=
  match f with
  | FilterDict constructed => constructed
  | FilterInstance f => Return f
  end.

(* client.py, lines 154-163 and 249-258 *)
Definition convert_filters (opts : options) : result (option (list MetadataFilter.t)) :=
  match opts with
  | None => Return None
  | Some (FilterList raw_filters) =>
      fs <- sequence (map convert_raw_filter raw_filters) ;;
      Return (Some fs)
  | Some (FilterSingle constructed) =>
      f <- constructed ;;
      Return (Some [f])
  | Some FilterOther => Return None
  end.

(** ** The query paths (client.py, lines 136-283) *)

Section Client.

(* [re.match], as in the filter evaluator *)
Variable re_match : string -> string -> result bool.

(* [json.loads] on a [str].  It raises json.JSONDecodeError for a text that
   is not well-formed JSON, but not only: a text nested too deeply raises
   RecursionError, and an integer literal of more than 4300 digits raises
   ValueError *)
Variable json_loads : string -> result pyval.

(* [str(doc.metadata)], the text an f-string inserts for the metadata.  It
   raises ValueError when the metadata holds an integer of more than 4300
   digits *)
Variable repr_metadata : option (gmap string scalar) -> result string.

(* the completion backend: the outcome of the [n]-th request issued since
   the log was empty.  Within a batch the requests are numbered in the order
   their tasks are created. *)
Variable acompletion : nat -> Request.t -> result response.

(* the timing of the backend: of the tasks of a batch that fail, the one that
   raises first.  The batch is named by the number of its first request; of
   [n] failing tasks, taken in the order of the tasks, the one numbered
   [raises_first first mod n] is meant *)
Variable raises_first : nat -> nat.

(* the same backend called with [stream=True]: the chunks of a stream that
   ends normally *)
Variable acompletion_stream : nat -> Request.t -> result (list chunk).

(* [f"Name: {doc.name}\nMetadata: {doc.metadata}\nContent: {doc.content}"] *)
Definition format_doc (doc : Document.t) : result string :=
  metadata <- repr_metadata (Document.metadata doc) ;;
  Return ("Name: " ++ Document.name doc ++ newline ++
          "Metadata: " ++ metadata ++ newline ++
          "Content: " ++ Document.content doc)%string.

(* [f"{self.system}\n\n# Available source\n\n{format_doc(document)}"] *)
Definition system_prompt (self : ReagClient.t) (document : Document.t) : result string :=
  source <- format_doc document ;;
  Return (ReagClient.system self ++ newline ++ newline ++
          "# Available source" ++ newline ++ newline ++ source)%string.

Definition user_message (prompt : string) : Message.t :=
  Message.mk "user" (PStr prompt).

Definition assistant_message (content : pyval) : Message.t :=
  Message.mk "assistant" content.

(* [[{"role": "system", "content": system}] + history
    + [{"role": "user", "content": prompt}]] *)
Definition messages_of (system : string) (history : list Message.t) (prompt : string)
    : list Message.t :=
  [Message.mk "system" (PStr system)] ++ history ++ [user_message prompt].

(* the messages of the request for a document, when its system prompt can be
   written *)
Definition build_messages (self : ReagClient.t) (prompt : string)
    (history : list Message.t) (document : Document.t) : result (list Message.t) :=
  system <- system_prompt self document ;;
  Return (messages_of system history prompt).

(* awaiting one completion: the request is logged and the backend answers *)
Definition await_completion (request : Request.t) : world -> world * result response :=
  fun w =>
    (mk_world (memory w) (issued w ++ [request]),
     acompletion (length (issued w)) request).

(* every task of the batch runs, whatever the others do *)
Fixpoint run_tasks (tasks : list Request.t) (w : world)
    : world * list (result response) :=
  match tasks with
  | [] => (w, [])
  | request :: rest =>
      let (w1, r) := await_completion request w in
      let (w2, rs) := run_tasks rest w1 in
      (w2, r :: rs)
  end.

(* [await asyncio.gather( *tasks )]: the responses in the order of the
   tasks, or the exception of the task that raises first *)
Definition gather (tasks : list Request.t) : M (list response) :=
  fun w =>
    let (w', outcomes) := run_tasks tasks w in
    (w', match sequence outcomes with
         | Return responses => Return responses
         | Raise e =>
             let raised := failures outcomes in
             Raise (nth (raises_first (length (issued w)) mod length raised) raised e)
         end).

(* [response.choices[0].message.content] *)
Definition message_content_of (r : response) : result pyval :=
  match choices r with
  | c :: _ => Return c
  | [] => Raise IndexError
  end.

(* the regular-expression functions take a [str] only *)
Definition expect_str (x : pyval) : result string :=
  match x with
  | PStr s => Return s
  | _ => Raise TypeError
  end.

(* [json.loads(message_content) if isinstance(message_content, str)
    else message_content] *)
Definition parse_message_content (message_content : pyval) : result pyval :=
  match message_content with
  | PStr s => json_loads s
  | other => Return other
  end.

(* the body of the loop over [zip(batch, batch_responses)], lines 198-238;
   [data["source"]] is read once here, every later read gives the same *)
Definition process_response (self : ReagClient.t) (prompt : string)
    (results : list QueryResult.t) (pair : Document.t * response)
    : M (list QueryResult.t) :=
  let (document, response) := pair in
  message_content <<- lift (message_content_of response) ;;
  except_JSONDecodeError
    (if startswith (ReagClient.model self) "ollama/" then
       text <<- lift (expect_str message_content) ;;
       let '(content, reasoning, is_irrelevant) := _extract_think_content text in
       result <<- lift (QueryResult.new (PStr content) (PStr reasoning)
                          (PBool is_irrelevant) document) ;;
       _ <<- add_message (user_message prompt) ;;
       _ <<- add_message (assistant_message (PStr content)) ;;
       ret (results ++ [result])
     else
       data <<- lift (parse_message_content message_content) ;;
       source <<- lift (subscript data "source") ;;
       irrelevant <<- lift (method_get source "is_irrelevant" (PBool true)) ;;
       if truthy irrelevant then ret results
       else
         content <<- lift (method_get source "content" (PStr "")) ;;
         _ <<- add_message (user_message prompt) ;;
         _ <<- add_message (assistant_message content) ;;
         reasoning <<- lift (method_get source "reasoning" (PStr "")) ;;
         is_irrelevant <<- lift (method_get source "is_irrelevant" (PBool false)) ;;
         result <<- lift (QueryResult.new content reasoning is_irrelevant document) ;;
         ret (results ++ [result]))
    (ret results).

(* [acompletion(model=self.model, messages=messages, ...)], not yet awaited,
   for a document whose system prompt can be written *)
Definition task_request (self : ReagClient.t) (prompt : string)
    (history : list Message.t) (document : Document.t) : result Request.t :=
  messages <- build_messages self prompt history document ;;
  Return (Request.mk (ReagClient.model self) messages false).

(* the requests of the documents of a batch, up to the first document whose
   system prompt cannot be written *)
Definition task_requests (self : ReagClient.t) (prompt : string)
    (history : list Message.t) (batch : list Document.t) : result (list Request.t) :=
  sequence (map (task_request self prompt history) batch).

(* the task of one document, lines 181-191: the system prompt is written,
   then the history is read *)
Definition make_task (self : ReagClient.t) (prompt : string)
    (document : Document.t) : M Request.t :=
  system <<- lift (system_prompt self document) ;;
  history <<- get_history ;;
  ret (Request.mk (ReagClient.model self) (messages_of system history prompt) false).

(* the body of the loop over [batches], lines 178-238 *)
Definition process_batch (self : ReagClient.t) (prompt : string)
    (results : list QueryResult.t) (batch : list Document.t)
    : M (list QueryResult.t) :=
  tasks <<- for_each (make_task self prompt) batch ;;
  batch_responses <<- gather tasks ;;
  for_fold (process_response self prompt) (zip batch batch_responses) results.

Definition _batch_query (self : ReagClient.t) (prompt : string)
    (documents : list Document.t) (opts : options) : M (list QueryResult.t) :=
  except_Exception_reraise
    (filters <<- lift (convert_filters opts) ;;
     filtered_documents <<-
       lift (_filter_documents_by_metadata re_match documents filters) ;;
     batches <<- lift (batches_of filtered_documents (ReagClient.batch_size self)) ;;
     for_fold (process_batch self prompt) batches []).

(* [chunk.choices[0].delta.content or ""] *)
Definition chunk_content_of (c : chunk) : result string :=
  match deltas c with
  | Some s :: _ => Return s
  | None :: _ => Return ""
  | [] => Raise IndexError
  end.

(* the [async for] loop of lines 277-280: what has been yielded, and the
   accumulated text or the exception that ended the loop *)
Fixpoint consume_stream (chunks : list chunk) (full_response : string)
    (yielded : list StreamingQueryResult.t)
    : list StreamingQueryResult.t * result string :=
  match chunks with
  | [] => (yielded, Return full_response)
  | c :: rest =>
      match chunk_content_of c with
      | Raise e => (yielded, Raise e)
      | Return chunk_content =>
          consume_stream rest (full_response ++ chunk_content)
            (yielded ++ [StreamingQueryResult.new chunk_content])
      end
  end.

(* awaiting the streaming completion *)
Definition await_stream (request : Request.t) : M (list chunk) :=
  fun w =>
    (mk_world (memory w) (issued w ++ [request]),
     acompletion_stream (length (issued w)) request).

(* [filtered_documents[0]] *)
Definition first_document (filtered_documents : list Document.t) : result Document.t :=
  match filtered_documents with
  | d :: _ => Return d
  | [] => Raise IndexError
  end.

(* The asynchronous generator of lines 245-283 driven until it stops: the
   records it yields, and how it ends ([Return tt] when it is exhausted). *)
Definition _streaming_query (self : ReagClient.t) (prompt : string)
    (documents : list Document.t) (opts : options)
    : world -> world * (list StreamingQueryResult.t * result unit) :=
  fun w =>
    let setup : M (list chunk) :=
      filters <<- lift (convert_filters opts) ;;
      filtered_documents <<-
        lift (_filter_documents_by_metadata re_match documents filters) ;;
      document <<- lift (first_document filtered_documents) ;;
      system <<- lift (system_prompt self document) ;;
      history <<- get_history ;;
      await_stream (Request.mk (ReagClient.model self)
                      (messages_of system history prompt) true) in
    match setup w with
    | (w1, Raise e) => (w1, ([], Raise e))
    | (w1, Return response_stream) =>
        match consume_stream response_stream "" [] with
        | (yielded, Raise e) => (w1, (yielded, Raise e))
        | (yielded, Return full_response) =>
            let (w2, _) :=
              (_ <<- add_message (user_message prompt) ;;
               add_message (assistant_message (PStr full_response))) w1 in
            (w2, (yielded, Return tt))
        end
    end.

(* what [query] hands back: the awaited list, or the generator (kept here
   as its run to exhaustion) *)
Inductive query_value : Type :=
| QueryList (r : result (list QueryResult.t))
| QueryStream (yielded : list StreamingQueryResult.t) (ending : result unit).

Definition query (self : ReagClient.t) (prompt : string)
    (documents : list Document.t) (opts : options) (stream : bool)
    : world -> world * query_value :=
  fun w =>
    if stream then
      let '(w', (yielded, ending)) := _streaming_query self prompt documents opts w in
      (w', QueryStream yielded ending)
    else
      let (w', r) := _batch_query self prompt documents opts w in
      (w', QueryList r).

End Client.

(** ** The operator semantics of the specification (section 4.1), as worded

    Kept apart from the code: [satisfies] is what the specification says a
    filter means, to be compared with [passes_filter]. *)

Inductive operator_kind : Type :=
| OpEquals
| OpNotEquals
| OpContains
| OpStartsWith
| OpEndsWith
| OpRegex
| OpGreaterThan
| OpLessThan
| OpGreaterThanOrEqual
| OpLessThanOrEqual
| OpUnrecognized.

Definition operator_names : list (string * operator_kind) :=
  [ ("equals", OpEquals); ("notEquals", OpNotEquals); ("contains", OpContains);
    ("startsWith", OpStartsWith); ("endsWith", OpEndsWith); ("regex", OpRegex);
    ("greaterThan", OpGreaterThan); ("lessThan", OpLessThan);
    ("greaterThanOrEqual", OpGreaterThanOrEqual);
    ("lessThanOrEqual", OpLessThanOrEqual) ].

Fixpoint kind_of_name (names : list (string * operator_kind)) (op : string)
    : operator_kind :=
  match names with
  | [] => OpUnrecognized
  | (n, k) :: rest => if String.eqb op n then k else kind_of_name rest op
  end.

(* the operator defaults to equality when it is absent *)
Definition spec_operator (f : MetadataFilter.t) : operator_kind :=
  match MetadataFilter.operator f with
  | None => OpEquals
  | Some op => if String.eqb op "" then OpEquals else kind_of_name operator_names op
  end.

Definition is_substring (sub s : string) : Prop := exists a b, s = (a ++ sub ++ b)%string.
Definition is_prefix (p s : string) : Prop := exists b, s = (p ++ b)%string.
Definition is_suffix (p s : string) : Prop := exists a, s = (a ++ p)%string.

(* numeric or string ordering per the stored value's type; values of
   different types are not ordered *)
Definition scalar_compare (a b : scalar) : option comparison :=
  match a, b with
  | VInt x, VInt y => Some (x ?= y)%Z
  | VStr x, VStr y => Some (String.compare x y)
  | _, _ => None
  end.

Section Specification.

Variable re_match : string -> string -> result bool.

Definition satisfies_operator (k : operator_kind) (val v : scalar) : Prop :=
  match k with
  | OpEquals => val = v
  | OpNotEquals => val <> v
  | OpContains => exists s sub, val = VStr s /\ v = VStr sub /\ is_substring sub s
  | OpStartsWith => exists s p, val = VStr s /\ v = VStr p /\ is_prefix p s
  | OpEndsWith => exists s p, val = VStr s /\ v = VStr p /\ is_suffix p s
  | OpRegex => exists s p, val = VStr s /\ v = VStr p /\ re_match p s = Return true
  | OpGreaterThan => scalar_compare val v = Some Gt
  | OpLessThan => scalar_compare val v = Some Lt
  | OpGreaterThanOrEqual => scalar_compare val v = Some Gt \/ scalar_compare val v = Some Eq
  | OpLessThanOrEqual => scalar_compare val v = Some Lt \/ scalar_compare val v = Some Eq
  | OpUnrecognized => False
  end.

(* a document with no metadata, or missing the filter's key, never matches *)
Definition satisfies (doc : Document.t) (f : MetadataFilter.t) : Prop :=
  exists md val,
    Document.metadata doc = Some md /\
    md !! MetadataFilter.key f = Some val /\
    satisfies_operator (spec_operator f) val (MetadataFilter.value f).


End Specification.

(* the filters of an optional filter list *)
Definition filter_list (filters : option (list MetadataFilter.t)) : list MetadataFilter.t :=
  match filters with
  | Some fs => fs
  | None => []
  end.

(** ** What a run of the batch path leaves behind (used to state the properties) *)

(* the two messages a retained result adds to the memory *)
Definition exchange (prompt : string) (r : QueryResult.t) : list Message.t :=
  [Message.mk "user" (PStr prompt);
   Message.mk "assistant" (PStr (QueryResult.content r))].

(* the world after the results [new] were retained *)
Definition remember (prompt : string) (new : list QueryResult.t) (w : world) : world :=
  mk_world
    (Memory.mk (Memory.history (memory w) ++ flat_map (exchange prompt) new))
    (issued w).

Section Traces.

Variable json_loads : string -> result pyval.
Variable repr_metadata : option (gmap string scalar) -> result string.
Variable acompletion : nat -> Request.t -> result response.

(* the request is the non-streaming one built from [d] on some history *)
Definition built_from (self : ReagClient.t) (prompt : string) (d : Document.t)
    (request : Request.t) : Prop :=
  exists history, task_request repr_metadata self prompt history d = Return request.

(* processing [response] for [d] appends exactly [r] *)
Definition answers (self : ReagClient.t) (prompt : string) (d : Document.t)
    (response : response) (r : QueryResult.t) : Prop :=
  exists results w w',
    process_response json_loads self prompt results (d, response) w
    = (w', Return (results ++ [r])).


(* [new] are the results retained for the documents at the positions [picks]
   of [docs]: each is the answer to the request numbered [first + i], which
   was built from that document *)
Definition retained (self : ReagClient.t) (prompt : string) (docs : list Document.t)
    (first : nat) (requests : list Request.t)
    (picks : list nat) (new : list QueryResult.t) : Prop :=
  StronglySorted lt picks /\
  Forall2
    (fun i r =>
       exists request response,
         docs !! i = Some (QueryResult.document r) /\
         requests !! i = Some request /\
         built_from self prompt (QueryResult.document r) request /\
         acompletion (first + i) request = Return response /\
         answers self prompt (QueryResult.document r) response r)
    picks new.

End Traces.

(** ** Reading helpers used to state the properties *)


(* the text one chunk contributes *)
Definition chunk_text (c : chunk) : string :=
  match deltas c with
  | Some s :: _ => s
  | _ => EmptyString
  end.

(* a [str] member of a dict, or the empty string when the key is absent *)
Definition str_field (members : list (string * pyval)) (k : string) : string :=
  match dict_get members k with
  | Some (PStr s) => s
  | _ => EmptyString
  end.

(* a [bool] member of a dict, or [default] when the key is absent *)
Definition bool_field (members : list (string * pyval)) (k : string)
    (default : bool) : bool :=
  match dict_get members k with
  | Some (PBool b) => b
  | _ => default
  end.

(* every member that is present has the type of its field *)
Definition well_typed_source (members : list (string * pyval)) : Prop :=
  (forall v, dict_get members "content" = Some v -> exists s, v = PStr s) /\
  (forall v, dict_get members "reasoning" = Some v -> exists s, v = PStr s) /\
  (forall v, dict_get members "is_irrelevant" = Some v -> exists b, v = PBool b).


(** ** Turns and requests (used to state the properties) *)

(* the user prompt and an assistant message with the content [c] *)
Definition turn (prompt : string) (c : pyval) : list Message.t :=
  [user_message prompt; assistant_message c].

(* [request] is the non-streaming request for a document of [docs], built on
   a history that extends [before] and is contained in [after] *)
Definition carries_history (repr_metadata : option (gmap string scalar) -> result string)
    (self : ReagClient.t) (prompt : string) (docs : list Document.t)
    (before after : list Message.t) (request : Request.t) : Prop :=
  exists h d,
    task_request repr_metadata self prompt h d = Return request /\
    d ∈ docs /\ before `prefix_of` h /\ h `prefix_of` after.

(** ** Reading helpers, continued *)

(* both values are [str], or both are [int] *)
Definition same_type (a b : scalar) : bool :=
  match a, b with
  | VStr _, VStr _ => true
  | VInt _, VInt _ => true
  | _, _ => false
  end.

(* the character [c] occurs in [s] *)
Definition has_char (c : ascii) (s : string) : bool := str_in (String c EmptyString) s.

(* how a flag is spelled after the marker *)
Definition spelling (b : bool) : string := if b then "true" else "false".

(* a text in the format [_extract_think_content] reads: the reasoning in
   think tags, then the two marked lines *)
Definition formatted_answer (reasoning : string) (irrelevant : bool) (answer : string)
    : string :=
  ("<think>" ++ reasoning ++ "</think>" ++ newline
   ++ "**isIrrelevant:** " ++ spelling irrelevant ++ newline
   ++ "**Answer:** " ++ answer)%string.

(** ** The memory as an object (memory.py)

    [Memory.t] above keeps the value of [history].  In Python [history] is a
    reference to a list object: [add_message] appends to that object,
    [get_history] hands out the reference itself and [clear] binds the
    attribute to a new list.  The lists live in a store, by address. *)

Module MemoryObject.

Record t : Type := mk {
  lists : gmap nat (list Message.t);  (* the list objects *)
  history : nat                       (* the attribute [history] *)
}.

(* the messages of the list at an address *)
Definition read (self : t) (address : nat) : list Message.t :=
  default [] (lists self !! address).

(* [Memory()] *)
Definition new : t := mk {[ 0%nat := [] ]} 0%nat.

(* [self.history.append(message)] *)
Definition add_message (self : t) (message : Message.t) : t :=
  mk (<[history self := read self (history self) ++ [message]]> (lists self))
     (history self).

(* [return self.history] *)
Definition get_history (self : t) : nat := history self.

(* [self.history = []] *)
Definition clear (self : t) : t :=
  let address := fresh (dom (lists self)) in
  mk (<[address := []]> (lists self)) address.

(* the value of [history] *)
Definition value (self : t) : Memory.t := Memory.mk (read self (history self)).

End MemoryObject.

(* a call of a method that changes the memory *)
Inductive memory_call : Type :=
| AddMessage (message : Message.t)
| Clear.

Definition call_object (self : MemoryObject.t) (c : memory_call) : MemoryObject.t :=
  match c with
  | AddMessage message => MemoryObject.add_message self message
  | Clear => MemoryObject.clear self
  end.

Definition call_value (self : Memory.t) (c : memory_call) : Memory.t :=
  match c with
  | AddMessage message => Memory.add_message self message
  | Clear => Memory.clear self
  end.

(** ** Constructing a client (client.py, lines 44-62) *)

Definition DEFAULT_BATCH_SIZE : Z := 20.

Module Call.
(* a call [ReagClient(...)]: the arguments the query paths depend on, absent
   when the call leaves them out, and the names of the other keyword
   arguments of the call *)
Record t : Type := mk {
  model : option string;
  system : option string;
  batch_size : option Z;
  memory : option Memory.t;
  other_keywords : list string
}.
End Call.

(* the parameters of [__init__] that [Call.t] has no field for *)
Definition other_parameters : list string := ["schema"; "model_kwargs"].

(* [a or b] on a [str] that may be [None] *)
Definition str_or (a : option string) (b : string) : string :=
  match a with
  | Some s => if String.eqb s "" then b else s
  | None => b
  end.

(* [ReagClient.__init__]; [__init__] takes no other keywords, so a keyword
   that names no parameter is a TypeError.  The constant
   [reag.prompt.REAG_SYSTEM_PROMPT] is a parameter.  A [Memory] object is
   always true, so [memory or Memory()] keeps a memory that was given. *)
Definition __init__ (REAG_SYSTEM_PROMPT : string) (call : Call.t)
    : result (ReagClient.t * Memory.t) :=
  if forallb (fun k => existsb (String.eqb k) other_parameters) (Call.other_keywords call)
  then
    Return (ReagClient.mk (default "gpt-4o-mini" (Call.model call))
              (str_or (Call.system call) REAG_SYSTEM_PROMPT)
              (default DEFAULT_BATCH_SIZE (Call.batch_size call)),
            default Memory.empty (Call.memory call))
  else Raise TypeError.

(** ** The chat programs (groq_cli_wip.py, openrouter_cli.py,
    SRC/huggingface_cli.py)

    The console is the lines [input] has still to read and what has been
    written so far, prompts of [input] included.  The client is entered
    with [async with]; [__aenter__] and [__aexit__] open and close an httpx
    client that no query uses, and [__aexit__] lets exceptions through. *)

Record console : Type := mk_console {
  unread : list string;
  written : list string
}.

(* how a chat program ends *)
Inductive chat_end : Type :=
| Exited                 (* [break] *)
| EndOfInput             (* EOFError of [input] *)
| Failed (e : exn).

(* [user_input.strip().lower() in {"exit", "quit"}] *)
Definition is_exit_command (user_input : string) : bool :=
  let word := lower (strip user_input) in
  String.eqb word "exit" || String.eqb word "quit".

Section Chat.

Variable re_match : string -> string -> result bool.
Variable json_loads : string -> result pyval.
Variable repr_metadata : option (gmap string scalar) -> result string.
Variable acompletion : nat -> Request.t -> result response.
Variable raises_first : nat -> nat.
(* [str] of the list a query returns, as [print] writes it *)
Variable repr_results : list QueryResult.t -> string.
Variable REAG_SYSTEM_PROMPT : string.

(* the [while True] loop; [client.query(user_input, documents=documents)]
   leaves [stream] false, so it awaits [_batch_query] without options *)
Fixpoint chat_loop (client : ReagClient.t) (documents : list Document.t)
    (lines : list string) (out : list string) (w : world)
    : world * console * chat_end :=
  match lines with
  | [] => (w, mk_console [] (out ++ ["You: "]), EndOfInput)
  | user_input :: rest =>
      let out := out ++ ["You: "] in
      if is_exit_command user_input then
        (w, mk_console rest (out ++ ["Exiting chat. Goodbye!"]), Exited)
      else
        match _batch_query re_match json_loads repr_metadata acompletion raises_first
                client user_input documents None w with
        | (w', Return response) =>
            chat_loop client documents rest
              (out ++ [("AI: " ++ repr_results response)%string]) w'
        | (w', Raise e) => (w', mk_console rest out, Failed e)
        end
  end.

(* [main]: the requests issued, the console and the ending *)
Definition chat_main (call : Call.t) (banner : string) (documents : list Document.t)
    (lines : list string) : list Request.t * console * chat_end :=
  match __init__ REAG_SYSTEM_PROMPT call with
  | Raise e => ([], mk_console lines [], Failed e)
  | Return (client, memory) =>
      let '(w, c, ending) :=
        chat_loop client documents lines [banner] (mk_world memory []) in
      (issued w, c, ending)
  end.

Definition fahd_mirza_doc : Document.t :=
  Document.mk "Superagent"
    "Fahd Mirza is an AI YouTuber who lives in Sydney, Australia."
    (Some {[ "url" := VStr "https://fahdmirza.com"; "source" := VStr "web" ]}).

Definition technews_doc : Document.t :=
  Document.mk "TechNews"
    "TechNews covers the latest developments in technology around the world."
    (Some {[ "url" := VStr "https://technews.example.com"; "source" := VStr "web" ]}).

(* groq_cli_wip.py *)
Definition groq_main : list string -> list Request.t * console * chat_end :=
  chat_main (Call.mk (Some "groq/your-model-id") None None None ["api_base"; "headers"])
    "Chat session with Groq model. Type 'exit' to quit." [fahd_mirza_doc].

(* openrouter_cli.py *)
Definition openrouter_main : list string -> list Request.t * console * chat_end :=
  chat_main (Call.mk (Some "openrouter/your-model-id") None None None ["api_base"])
    "Welcome to the interactive chat! Type your message (or type 'exit' to quit)."
    [fahd_mirza_doc; technews_doc].

(* SRC/huggingface_cli.py *)
Definition huggingface_main : list string -> list Request.t * console * chat_end :=
  chat_main (Call.mk (Some "huggingface/gpt-neo-2.7B") None None None ["api_base"; "headers"])
    "Chat session with Hugging Face model. Type 'exit' to quit." [fahd_mirza_doc].

End Chat.

(** ** Sample data: the documents, bodies and backends of test/client_test.py *)

Definition double_quote : string := String "034" EmptyString.

(* a JSON string literal without escapes *)
Definition json_string (s : string) : string := (double_quote ++ s ++ double_quote)%string.

(* the text of [{"source": {"content": c, "reasoning": r, "is_irrelevant": b}}] *)
Definition source_body (c r : string) (irrelevant : bool) : string :=
  ("{" ++ json_string "source" ++ ": {" ++
   json_string "content" ++ ": " ++ json_string c ++ ", " ++
   json_string "reasoning" ++ ": " ++ json_string r ++ ", " ++
   json_string "is_irrelevant" ++ ": " ++ (if irrelevant then "true" else "false") ++
   "}}")%string.

Definition source_value (c r : string) (irrelevant : bool) : pyval :=
  PDict [("source",
          PDict [("content", PStr c); ("reasoning", PStr r);
                 ("is_irrelevant", PBool irrelevant)])].

Definition relevant_body : string :=
  source_body "Superagent is a workspace for AI-agents."
    "The document describes Superagent." false.

Definition irrelevant_body : string :=
  source_body "" "The document is not relevant." true.

(* [{"source": {}}] and [{}] *)
Definition empty_source_body : string := ("{" ++ json_string "source" ++ ": {}}")%string.
Definition empty_object_body : string := "{}".


(* [n] copies of a text *)
Fixpoint repeat_string (n : nat) (s : string) : string :=
  match n with
  | O => EmptyString
  | S n' => (s ++ repeat_string n' s)%string
  end.

(* an integer literal of 4301 digits: well-formed JSON that [json.loads]
   refuses with ValueError, the limit of the conversion to [int] being 4300
   digits *)
Definition long_number_body : string := repeat_string 4301 "1".

(* 200000 opening brackets: text that is not well-formed JSON and that
   [json.loads] refuses with RecursionError, the nesting being deeper than
   the interpreter allows *)
Definition deep_array_body : string := repeat_string (200 * 1000) "[".

(* [json.loads] on the bodies above; text that is none of them is taken to be
   malformed, as [text_body] and "not json" are *)
Definition sample_json_loads (s : string) : result pyval :=
  if String.eqb s relevant_body then
    Return (source_value "Superagent is a workspace for AI-agents."
              "The document describes Superagent." false)
  else if String.eqb s irrelevant_body then
    Return (source_value "" "The document is not relevant." true)
  else if String.eqb s empty_source_body then Return (PDict [("source", PDict [])])
  else if String.eqb s empty_object_body then Return (PDict [])
  else if String.eqb s long_number_body then Raise ValueError
  else if String.eqb s deep_array_body then Raise RecursionError
  else Raise JSONDecodeError.

(* [re.match] for a pattern without metacharacters: a prefix test *)
Definition literal_re_match (pattern s : string) : result bool :=
  Return (String.prefix pattern s).

(* the limit of [str] on an [int]: 4300 digits *)
Definition prints (v : scalar) : bool :=
  match v with
  | VStr _ => true
  | VInt n => (Z.abs n <? 10 ^ 4300)%Z
  end.

(* a stand-in for [str(metadata)] that elides the items it can write, and
   raises ValueError as [str] does for an integer it cannot *)
Definition sample_repr_metadata (md : option (gmap string scalar)) : result string :=
  match md with
  | None => Return "None"
  | Some items =>
      if forallb (fun item => prints item.2) (map_to_list items) then Return "{...}"
      else Raise ValueError
  end.

(* of the failing tasks of a batch, the one created first raises first *)
Definition in_task_order : nat -> nat := fun _ => 0%nat.

(* a backend that answers every request with the same body *)
Definition constant_backend (body : string) : nat -> Request.t -> result response :=
  fun _ _ => Return (mk_response [PStr body]).

(* a backend that answers the [n]-th request with the [n]-th body *)
Definition scripted_backend (bodies : list string) : nat -> Request.t -> result response :=
  fun n _ =>
    match bodies !! n with
    | Some body => Return (mk_response [PStr body])
    | None => Raise (BackendError "no more bodies")
    end.

(* a backend that streams "Super", "agent is..." *)
Definition superagent_stream : nat -> Request.t -> result (list chunk) :=
  fun _ _ => Return [mk_chunk [Some "Super"]; mk_chunk [Some "agent is..."]].

Definition sample_system : string := "Judge the source and answer from it.".

Definition default_client : ReagClient.t := ReagClient.mk "gpt-4o-mini" sample_system 20.

Definition ollama_client : ReagClient.t :=
  ReagClient.mk "ollama/deepseek-r1:7b" sample_system 20.

Definition superagent_content : string :=
  "Superagent is a workspace for AI-agents that learn, perform work, and collaborate.".

Definition superagent_doc : Document.t :=
  Document.mk "Superagent" superagent_content
    (Some {[ "url" := VStr "https://superagent.sh"; "source" := VStr "web" ]}).

Definition versioned_doc (version : Z) (id : string) : Document.t :=
  Document.mk "Superagent" superagent_content
    (Some {[ "version" := VInt version; "source" := VStr "web"; "id" := VStr id ]}).


Definition recipe_doc : Document.t :=
  Document.mk "Irrelevant Doc"
    "This document contains completely unrelated content about cooking recipes."
    (Some {[ "type" := VStr "recipe"; "cuisine" := VStr "italian" ]}).

(* a filter that orders an integer metadata value against text *)
Definition version_above_text : MetadataFilter.t :=
  MetadataFilter.mk "version" (VStr "2") (Some "greaterThan").

Definition version_at_least_2 : MetadataFilter.t :=
  MetadataFilter.mk "version" (VInt 2) (Some "greaterThanOrEqual").

Definition id_is_sa1 : MetadataFilter.t :=
  MetadataFilter.mk "id" (VStr "sa-1") (Some "equals").

Definition fresh_world : world := mk_world Memory.empty [].

(* a run over four documents in batches of two: the second body is
   malformed, the third is judged irrelevant *)
Definition mixed_run : world * result (list QueryResult.t) :=
  _batch_query literal_re_match sample_json_loads sample_repr_metadata
    (scripted_backend [relevant_body; "not json"; irrelevant_body; relevant_body]) in_task_order
    (ReagClient.mk "gpt-4o-mini" sample_system 2) "What is Superagent?"
    [superagent_doc; recipe_doc; versioned_doc 1 "sa-1"; versioned_doc 2 "sa-2"]
    None fresh_world.

(** * Properties *)

(** ** Strings *)

Lemma append_String (c : ascii) (a b : string) :
  (String c a ++ b)%string = String c (a ++ b)%string.
Proof. reflexivity. Qed.

Lemma append_Empty (b : string) : (EmptyString ++ b)%string = b.
Proof. reflexivity. Qed.

Lemma prefix_is_prefix (p s : string) : String.prefix p s = true <-> is_prefix p s.
Proof.
  revert s. induction p as [|c p IH]; intros s.
  - split; [intros _; exists s; reflexivity | intros _; destruct s; reflexivity].
  - destruct s as [|d s]; simpl.
    + split; [discriminate | intros [b Hb]; discriminate].
    + destruct (ascii_dec c d) as [->|Hne].
      * rewrite IH. split; intros [b Hb]; exists b.
        -- rewrite append_String. congruence.
        -- rewrite append_String in Hb. congruence.
      * split; [discriminate | intros [b Hb]; rewrite append_String in Hb; congruence].
Qed.

Lemma str_in_is_substring (sub s : string) : str_in sub s = true <-> is_substring sub s.
Proof.
  induction s as [|c s IH]; cbn [str_in].
  - rewrite orb_false_r, prefix_is_prefix. split.
    + intros [b Hb]. exists EmptyString, b. exact Hb.
    + intros [a [b Hab]]. destruct a.
      * exists b. exact Hab.
      * rewrite append_String in Hab. discriminate.
  - rewrite orb_true_iff, IH, prefix_is_prefix. split.
    + intros [[b Hb] | [a [b Hab]]].
      * exists EmptyString, b. exact Hb.
      * exists (String c a), b. rewrite append_String. congruence.
    + intros [a [b Hab]]. destruct a as [|d a].
      * left. exists b. exact Hab.
      * right. exists a, b. rewrite append_String in Hab. congruence.
Qed.

(** ** Strings, continued *)

Lemma substring_skip (a p : string) :
  String.substring (String.length a) (String.length p) (a ++ p)%string = p.
Proof.
  induction a as [|c a IH].
  - rewrite append_Empty. induction p as [|d p IHp]; [reflexivity|].
    cbn. f_equal. destruct p; [reflexivity | exact IHp].
  - rewrite append_String. cbn. exact IH.
Qed.

Lemma substring_split (n : nat) (s : string) :
  n <= String.length s ->
  s = (String.substring 0 n s ++ String.substring n (String.length s - n) s)%string.
Proof.
  revert s. induction n as [|n IH]; intros s Hn.
  - rewrite Nat.sub_0_r. clear Hn.
    assert (H0 : String.substring 0 0 s = EmptyString) by (destruct s; reflexivity).
    rewrite H0, append_Empty. clear H0.
    induction s as [|d s IHs]; [reflexivity|]. cbn. f_equal. exact IHs.
  - destruct s as [|c s]; cbn in Hn; [lia|].
    cbn. rewrite append_String. f_equal. apply IH. lia.
Qed.

Lemma length_append (a b : string) :
  String.length (a ++ b)%string = String.length a + String.length b.
Proof.
  induction a as [|c a IH]; [reflexivity|].
  rewrite append_String. cbn. by rewrite IH.
Qed.

Lemma endswith_is_suffix (s p : string) : endswith s p = true <-> is_suffix p s.
Proof.
  unfold endswith, is_suffix. rewrite andb_true_iff, Nat.leb_le, String.eqb_eq. split.
  - intros [Hle Hsub].
    exists (String.substring 0 (String.length s - String.length p) s).
    pose proof (substring_split (String.length s - String.length p) s
                  ltac:(lia)) as Hs.
    replace (String.length s - (String.length s - String.length p))
      with (String.length p) in Hs by lia.
    rewrite Hsub in Hs. exact Hs.
  - intros [a ->]. rewrite length_append. split; [lia|].
    replace (String.length a + String.length p - String.length p) with (String.length a) by lia.
    apply substring_skip.
Qed.



(** ** The rounds of [sub_think] suffice *)

Lemma prefix_drop (p s : string) :
  String.prefix p s = true -> s = (p ++ str_drop (String.length p) s)%string.
Proof.
  revert s. induction p as [|c p IH]; intros s.
  - intros _. reflexivity.
  - destruct s as [|d s]; [discriminate|]. cbn [String.prefix].
    destruct (ascii_dec c d) as [->|]; [|discriminate].
    intros H. rewrite append_String. cbn [String.length str_drop]. f_equal. by apply IH.
Qed.

Lemma find_split_Some (pat s before after : string) :
  find_split pat s = Some (before, after) -> s = (before ++ pat ++ after)%string.
Proof.
  revert before. induction s as [|c s IH]; intros before; cbn [find_split].
  - destruct (String.prefix pat "") eqn:Hp; [|discriminate].
    intros H. injection H as <- <-. rewrite append_Empty. by apply prefix_drop.
  - destruct (String.prefix pat (String c s)) eqn:Hp.
    + intros H. injection H as <- <-. rewrite append_Empty. by apply prefix_drop.
    + destruct (find_split pat s) as [[b a]|]; [|discriminate].
      intros H. injection H as <- <-. rewrite append_String. f_equal. by apply IH.
Qed.

Lemma search_think_shorter (text before inner after : string) :
  search_think text = Some (before, inner, after) ->
  (String.length after < String.length text)%nat.
Proof.
  unfold search_think.
  destruct (find_split "<think>" text) as [[b rest]|] eqn:H1; [|discriminate].
  destruct (find_split "</think>" rest) as [[i a]|] eqn:H2; [|discriminate].
  intros H. injection H as <- <- <-.
  apply find_split_Some in H1 as ->. apply find_split_Some in H2 as ->.
  rewrite !length_append. cbn. lia.
Qed.

Lemma sub_think_rounds_enough (n m : nat) (text : string) :
  (String.length text <= n)%nat -> (String.length text <= m)%nat ->
  sub_think_rounds n text = sub_think_rounds m text.
Proof.
  revert m text. induction n as [|n IH]; intros m text Hn Hm.
  - destruct text; [|cbn in Hn; lia]. by destruct m.
  - destruct m as [|m].
    + destruct text; [|cbn in Hm; lia]. reflexivity.
    + cbn [sub_think_rounds].
      destruct (search_think text) as [[[before inner] after]|] eqn:Hs; [|reflexivity].
      apply search_think_shorter in Hs. f_equal. apply IH; lia.
Qed.

(* more rounds than the length of the text change nothing *)
Lemma sub_think_total (n : nat) (text : string) :
  (String.length text <= n)%nat -> sub_think_rounds n text = sub_think text.
Proof. intros Hn. unfold sub_think. by apply sub_think_rounds_enough. Qed.

(** ** Comparisons *)

Lemma Return_inj {A} (a b : A) : Return a = Return b <-> a = b.
Proof. split; [intros H; injection H; auto | intros ->; reflexivity]. Qed.

Lemma string_ltb_Gt (x y : string) : String.ltb y x = true <-> String.compare x y = Gt.
Proof.
  unfold String.ltb. rewrite (String.compare_antisym y x).
  destruct (String.compare x y); simpl; split; congruence.
Qed.

Lemma string_ltb_Lt (x y : string) : String.ltb x y = true <-> String.compare x y = Lt.
Proof. unfold String.ltb. destruct (String.compare x y); split; congruence. Qed.

Lemma string_leb_Gt_Eq (x y : string) :
  String.leb y x = true <-> String.compare x y = Gt \/ String.compare x y = Eq.
Proof.
  unfold String.leb. rewrite (String.compare_antisym y x).
  destruct (String.compare x y); simpl; split; intros; try tauto; try congruence;
    destruct H; congruence.
Qed.

Lemma string_leb_Lt_Eq (x y : string) :
  String.leb x y = true <-> String.compare x y = Lt \/ String.compare x y = Eq.
Proof.
  unfold String.leb.
  destruct (String.compare x y); simpl; split; intros; try tauto; try congruence;
    destruct H; congruence.
Qed.

Lemma py_lt_spec (a b : scalar) : py_lt a b = Return true <-> scalar_compare a b = Some Lt.
Proof.
  destruct a as [x|x], b as [y|y]; simpl; try (split; discriminate).
  - rewrite Return_inj, string_ltb_Lt. split; congruence.
  - rewrite Return_inj, Z.ltb_lt, <- Z.compare_lt_iff. split; congruence.
Qed.

Lemma py_gt_spec (a b : scalar) : py_gt a b = Return true <-> scalar_compare a b = Some Gt.
Proof.
  destruct a as [x|x], b as [y|y]; simpl; try (split; discriminate).
  - rewrite Return_inj, string_ltb_Gt. split; congruence.
  - rewrite Return_inj, Z.ltb_lt, <- Z.compare_gt_iff. split; congruence.
Qed.

Lemma py_le_spec (a b : scalar) :
  py_le a b = Return true <-> scalar_compare a b = Some Lt \/ scalar_compare a b = Some Eq.
Proof.
  destruct a as [x|x], b as [y|y]; simpl; try (split; [discriminate | intros []; discriminate]).
  - rewrite Return_inj, string_leb_Lt_Eq. split; intros []; [left|right|left|right]; congruence.
  - rewrite Return_inj, Z.leb_le, Z.le_lteq, <- Z.compare_lt_iff, <- Z.compare_eq_iff.
    split; intros []; [left|right|left|right]; congruence.
Qed.

Lemma py_ge_spec (a b : scalar) :
  py_ge a b = Return true <-> scalar_compare a b = Some Gt \/ scalar_compare a b = Some Eq.
Proof.
  destruct a as [x|x], b as [y|y]; simpl; try (split; [discriminate | intros []; discriminate]).
  - rewrite Return_inj, string_leb_Gt_Eq. split; intros []; [left|right|left|right]; congruence.
  - rewrite Return_inj, Z.leb_le.
    destruct (Z.compare_spec x y); split; intros; try lia; auto;
      destruct H0; discriminate.
Qed.

(** ** The filter evaluator against the specification *)

Section FilterFacts.

Variable re_match : string -> string -> result bool.

Lemma spec_operator_effective (f : MetadataFilter.t) :
  spec_operator f = kind_of_name operator_names (effective_operator f).
Proof.
  unfold spec_operator, effective_operator.
  destruct (MetadataFilter.operator f) as [op|]; [|reflexivity].
  destruct (String.eqb op ""); reflexivity.
Qed.

Lemma op_contains_spec (val v : scalar) :
  op_contains val v = Return true <->
  exists s sub, val = VStr s /\ v = VStr sub /\ is_substring sub s.
Proof.
  destruct val as [s|n], v as [sub|m]; simpl.
  - rewrite Return_inj, str_in_is_substring. split.
    + intros H. exists s, sub. auto.
    + intros (s' & sub' & Hs & Hsub & H). congruence.
  - split; [discriminate | intros (s' & sub' & _ & Hsub & _); discriminate].
  - split; [discriminate | intros (s' & sub' & Hs & _); discriminate].
  - split; [discriminate | intros (s' & sub' & Hs & _); discriminate].
Qed.

Lemma op_startsWith_spec (val v : scalar) :
  op_startsWith val v = Return true <->
  exists s p, val = VStr s /\ v = VStr p /\ is_prefix p s.
Proof.
  destruct val as [s|n], v as [p|m]; simpl.
  - unfold startswith. rewrite Return_inj, prefix_is_prefix. split.
    + intros H. exists s, p. auto.
    + intros (s' & p' & Hs & Hp & H). congruence.
  - split; [discriminate | intros (s' & p' & _ & Hp & _); discriminate].
  - split; [discriminate | intros (s' & p' & Hs & _); discriminate].
  - split; [discriminate | intros (s' & p' & Hs & _); discriminate].
Qed.

Lemma op_endsWith_spec (val v : scalar) :
  op_endsWith val v = Return true <->
  exists s p, val = VStr s /\ v = VStr p /\ is_suffix p s.
Proof.
  destruct val as [s|n], v as [p|m]; simpl.
  - rewrite Return_inj, endswith_is_suffix. split.
    + intros H. exists s, p. auto.
    + intros (s' & p' & Hs & Hp & H). congruence.
  - split; [discriminate | intros (s' & p' & _ & Hp & _); discriminate].
  - split; [discriminate | intros (s' & p' & Hs & _); discriminate].
  - split; [discriminate | intros (s' & p' & Hs & _); discriminate].
Qed.

Lemma op_regex_spec (val v : scalar) :
  op_regex re_match val v = Return true <->
  exists s p, val = VStr s /\ v = VStr p /\ re_match p s = Return true.
Proof.
  destruct val as [s|n], v as [p|m]; simpl.
  - split.
    + intros H. exists s, p. auto.
    + intros (s' & p' & Hs & Hp & H). congruence.
  - split; [discriminate | intros (s' & p' & _ & Hp & _); discriminate].
  - split; [discriminate | intros (s' & p' & Hs & _); discriminate].
  - split; [discriminate | intros (s' & p' & Hs & _); discriminate].
Qed.

Lemma py_eq_spec (a b : scalar) : Return (py_eq a b) = Return true <-> a = b.
Proof. unfold py_eq. rewrite Return_inj. apply bool_decide_eq_true. Qed.

Lemma py_ne_spec (a b : scalar) : Return (negb (py_eq a b)) = Return true <-> a <> b.
Proof.
  unfold py_eq. rewrite Return_inj, negb_true_iff. apply bool_decide_eq_false.
Qed.

(* the code and the specification agree on one filter *)
Lemma passes_filter_satisfies (doc : Document.t) (f : MetadataFilter.t) :
  passes_filter re_match doc f = Return true <-> satisfies re_match doc f.
Proof.
  unfold passes_filter, satisfies.
  destruct (Document.metadata doc) as [md|].
  2: { split; [discriminate | intros (md & val & H & _); discriminate]. }
  case_bool_decide as Hempty.
  { split; [discriminate|]. intros (md' & val & H1 & H2 & _).
    injection H1 as <-. subst md. rewrite lookup_empty in H2. discriminate. }
  destruct (md !! MetadataFilter.key f) as [val|] eqn:Hl.
  2: { split; [discriminate|]. intros (md' & val & H1 & H2 & _).
       injection H1 as <-. congruence. }
  transitivity (satisfies_operator re_match (spec_operator f) val (MetadataFilter.value f)).
  2: { split.
       - intros H. exists md, val. auto.
       - intros (md' & val' & H1 & H2 & H). injection H1 as <-. congruence. }
  rewrite spec_operator_effective. cbv zeta.
  generalize (effective_operator f) as op. generalize (MetadataFilter.value f) as v.
  intros v op. cbn [kind_of_name operator_names].
  destruct (String.eqb op "equals"); [apply py_eq_spec|].
  destruct (String.eqb op "notEquals"); [apply py_ne_spec|].
  destruct (String.eqb op "contains"); [apply op_contains_spec|].
  destruct (String.eqb op "startsWith"); [apply op_startsWith_spec|].
  destruct (String.eqb op "endsWith"); [apply op_endsWith_spec|].
  destruct (String.eqb op "regex"); [apply op_regex_spec|].
  destruct (String.eqb op "greaterThan"); [apply py_gt_spec|].
  destruct (String.eqb op "lessThan"); [apply py_lt_spec|].
  destruct (String.eqb op "greaterThanOrEqual"); [apply py_ge_spec|].
  destruct (String.eqb op "lessThanOrEqual"); [apply py_le_spec|].
  simpl. split; [discriminate | tauto].
Qed.

Lemma all_pass_satisfies (doc : Document.t) (filters : list MetadataFilter.t) :
  all_pass re_match doc filters = Return true <-> Forall (satisfies re_match doc) filters.
Proof.
  induction filters as [|f fs IH]; cbn [all_pass].
  - split; [constructor | reflexivity].
  - rewrite Forall_cons, <- IH, <- passes_filter_satisfies.
    destruct (passes_filter re_match doc f) as [[|]|e]; simpl; split;
      try tauto; try discriminate; try (intros [H _]; discriminate).
Qed.




(* on a list: the documents kept are, in order, those that satisfy every
   filter *)
Lemma filter_documents_keeps_satisfying (documents kept : list Document.t)
    (filters : option (list MetadataFilter.t)) :
  _filter_documents_by_metadata re_match documents filters = Return kept ->
  sublist kept documents /\
  (forall d, d ∈ kept <->
             d ∈ documents /\ Forall (satisfies re_match d) (filter_list filters)).
Proof.
  destruct filters as [[|f fs]|]; cbn [_filter_documents_by_metadata filter_list].
  1,3: intros H; injection H as <-; split; [done|]; intros d; split;
       [intros Hd; split; [done|constructor] | by intros [Hd _]].
  revert kept. induction documents as [|doc documents IH]; intros kept.
  - cbn. intros H. injection H as <-. split; [done|].
    intros d. split; [by intros ?%elem_of_nil | by intros [?%elem_of_nil _]].
  - cbn [select_documents].
    destruct (all_pass re_match doc (f :: fs)) as [b|e] eqn:Hpass; [|discriminate].
    cbn [bind].
    destruct (select_documents re_match documents (f :: fs)) as [rest|e]; [|discriminate].
    cbn [bind]. intros H. injection H as <-.
    destruct (IH rest eq_refl) as [Hsub Hmem].
    assert (Hdoc : b = true <-> Forall (satisfies re_match doc) (f :: fs)).
    { rewrite <- all_pass_satisfies, Hpass. split; congruence. }
    destruct b.
    + split; [by apply sublist_skip|]. intros d.
      rewrite !elem_of_cons, Hmem. split.
      * intros [->|[Hd Hs]]; [split; [by left | by apply Hdoc] | split; [by right | done]].
      * intros [[->|Hd] Hs]; [by left | right; by split].
    + split; [by apply sublist_cons|]. intros d.
      rewrite elem_of_cons, Hmem. split.
      * intros [Hd Hs]. split; [by right | done].
      * intros [[->|Hd] Hs]; [|by split].
        apply Hdoc in Hs. discriminate.
Qed.

End FilterFacts.

(** ** Batching *)

Section Batches.

Context {A : Type}.
Implicit Types (docs : list A) (b k m : nat).

Lemma concat_chunks docs b m :
  concat (map (fun k => take b (drop (k * b) docs)) (seq 0 m)) = take (m * b) docs.
Proof.
  induction m as [|m IH].
  - reflexivity.
  - rewrite seq_S, map_app, concat_app, IH. cbn [map concat].
    rewrite app_nil_r, take_take_drop. f_equal. lia.
Qed.

Lemma py_slice_chunk docs b k :
  (0 < b)%nat ->
  py_slice docs (Z.of_nat k * Z.of_nat b) (Z.of_nat k * Z.of_nat b + Z.of_nat b)
  = take b (drop (k * b) docs).
Proof.
  intros Hb. unfold py_slice, clamp_index.
  rewrite <- Nat2Z.inj_mul. set (i := (k * b)%nat).
  destruct (Z.ltb_spec (Z.of_nat i) 0) as [|_]; [lia|].
  destruct (Z.ltb_spec (Z.of_nat i + Z.of_nat b) 0) as [|_]; [lia|].
  destruct (Nat.le_gt_cases (length docs) i) as [Hout|Hin].
  - rewrite (drop_ge docs i) by lia.
    replace (Z.to_nat (Z.min (Z.of_nat i) (Z.of_nat (length docs)))) with (length docs) by lia.
    rewrite drop_ge by lia. by rewrite !take_nil.
  - replace (Z.to_nat (Z.min (Z.of_nat i) (Z.of_nat (length docs)))) with i by lia.
    destruct (Nat.le_gt_cases (i + b) (length docs)) as [Hfull|Hshort].
    + f_equal. lia.
    + rewrite !take_ge; [reflexivity | rewrite length_drop; lia | rewrite length_drop; lia].
Qed.

Lemma batches_of_chunks docs b :
  (0 < b)%nat ->
  batches_of docs (Z.of_nat b)
  = Return (map (fun k => take b (drop (k * b) docs))
              (seq 0 (Z.to_nat ((Z.of_nat (length docs) + Z.of_nat b - 1) / Z.of_nat b)))).
Proof.
  intros Hb. unfold batches_of, py_range.
  destruct (Z.eqb_spec (Z.of_nat b) 0) as [|_]; [lia|].
  destruct (Z.ltb_spec 0 (Z.of_nat b)) as [_|]; [|lia].
  cbn [bind]. rewrite Z.sub_0_r, map_map. f_equal. apply map_ext. intros k.
  rewrite Z.add_0_l. by apply py_slice_chunk.
Qed.

Lemma batch_count_bounds (n b : nat) :
  (0 < b)%nat ->
  let c := Z.to_nat ((Z.of_nat n + Z.of_nat b - 1) / Z.of_nat b) in
  (n <= c * b)%nat /\ (forall k, (k < c)%nat -> (k * b < n)%nat).
Proof.
  intros Hb c.
  pose proof (Z.div_mod (Z.of_nat n + Z.of_nat b - 1) (Z.of_nat b) ltac:(lia)) as Hdm.
  pose proof (Z.mod_pos_bound (Z.of_nat n + Z.of_nat b - 1) (Z.of_nat b) ltac:(lia)) as Hr.
  assert (Hq : (0 <= (Z.of_nat n + Z.of_nat b - 1) / Z.of_nat b)%Z)
    by (apply Z.div_pos; lia).
  assert (Hc : Z.of_nat c = ((Z.of_nat n + Z.of_nat b - 1) / Z.of_nat b)%Z)
    by (unfold c; lia).
  rewrite <- Hc in Hdm. split.
  - nia.
  - intros k Hk. nia.
Qed.

End Batches.

(* the batches of a positive batch size, written with [take] and [drop] *)
Lemma batches_of_positive {A} (docs : list A) (batch_size : Z) :
  (0 < batch_size)%Z ->
  let b := Z.to_nat batch_size in
  let c := Z.to_nat ((Z.of_nat (length docs) + batch_size - 1) / batch_size) in
  batches_of docs batch_size
  = Return (map (fun k => take b (drop (k * b) docs)) (seq 0 c)) /\
  (length docs <= c * b)%nat /\
  (forall k, (k < c)%nat -> (k * b < length docs)%nat).
Proof.
  intros Hpos b c.
  assert (Hb : (0 < b)%nat) by (unfold b; lia).
  assert (Hsize : batch_size = Z.of_nat b) by (unfold b; lia).
  unfold c. rewrite Hsize. split; [by apply batches_of_chunks|].
  by apply batch_count_bounds.
Qed.

Lemma batches_of_positive_concat {A} (docs : list A) (batch_size : Z) :
  (0 < batch_size)%Z ->
  exists batches, batches_of docs batch_size = Return batches /\ concat batches = docs.
Proof.
  intros Hpos. destruct (batches_of_positive docs batch_size Hpos) as (Heq & Hcover & _).
  eexists. split; [exact Heq|]. rewrite concat_chunks. by apply take_ge.
Qed.

(** ** Memory, validation and one response *)

Lemma remember_nil prompt w : remember prompt [] w = w.
Proof. destruct w as [[h] i]. unfold remember. cbn. by rewrite app_nil_r. Qed.

Lemma remember_app prompt new1 new2 w :
  remember prompt new2 (remember prompt new1 w) = remember prompt (new1 ++ new2) w.
Proof. unfold remember. cbn. by rewrite flat_map_app, app_assoc. Qed.

Lemma validate_str_Return x s : validate_str x = Return s -> x = PStr s.
Proof. destruct x; simpl; intros H; try discriminate. by injection H as ->. Qed.

Lemma validate_bool_falsy x b : truthy x = false -> validate_bool x = Return b -> b = false.
Proof.
  destruct x as [|b'|n|f|s|items|members]; simpl; try discriminate.
  - intros -> H. by injection H.
  - rewrite negb_false_iff. intros ->. intros H. by injection H.
  - destruct f; try discriminate. intros _ H. by injection H.
  - rewrite negb_false_iff, String.eqb_eq. intros ->. discriminate.
Qed.

Lemma QueryResult_new_Return c r i d qr :
  QueryResult.new c r i d = Return qr ->
  exists c' r' i', validate_str c = Return c' /\ validate_str r = Return r' /\
                   validate_bool i = Return i' /\ qr = QueryResult.mk c' r' i' d.
Proof.
  unfold QueryResult.new.
  destruct (validate_str c) as [c'|]; [|discriminate].
  destruct (validate_str r) as [r'|]; [|discriminate].
  destruct (validate_bool i) as [i'|]; [|discriminate].
  simpl. intros H. injection H as <-. eauto 10.
Qed.

Lemma validate_str_Raise x e : validate_str x = Raise e -> e = ValidationError.
Proof. destruct x; simpl; congruence. Qed.

Lemma bool_of_spelling_Raise s e : bool_of_spelling s = Raise e -> e = ValidationError.
Proof.
  unfold bool_of_spelling.
  destruct (existsb _ _); [discriminate|].
  destruct (existsb _ _); [discriminate|congruence].
Qed.

Lemma validate_bool_Raise x e : validate_bool x = Raise e -> e = ValidationError.
Proof.
  destruct x as [|b|n|f|s|items|members]; simpl; try congruence.
  - destruct (n =? 0)%Z; [discriminate|]. destruct (n =? 1)%Z; [discriminate|congruence].
  - destruct f; try congruence; destruct (float_is_one _); congruence.
  - apply bool_of_spelling_Raise.
Qed.

Lemma QueryResult_new_Raise c r i d e :
  QueryResult.new c r i d = Raise e -> e = ValidationError.
Proof.
  unfold QueryResult.new.
  destruct (validate_str c) eqn:Hc; [|intros H; injection H as <-; eauto using validate_str_Raise].
  destruct (validate_str r) eqn:Hr; [|intros H; injection H as <-; eauto using validate_str_Raise].
  destruct (validate_bool i) eqn:Hi; [discriminate|].
  intros H; injection H as <-; eauto using validate_bool_Raise.
Qed.

Section ResponseFacts.

Variable json_loads : string -> result pyval.

(* what processing one response can do when it does not raise: nothing, or
   one record for its document and that record's exchange in the memory *)
Lemma process_response_Return self prompt results d resp w w' results' :
  process_response json_loads self prompt results (d, resp) w = (w', Return results') ->
  (results' = results /\ w' = w) \/
  (exists qr, results' = results ++ [qr] /\ QueryResult.document qr = d /\
              w' = remember prompt [qr] w /\
              answers json_loads self prompt d resp qr).
Proof.
  intros Hrun.
  cut ((results' = results /\ w' = w) \/
       (exists qr, results' = results ++ [qr] /\ QueryResult.document qr = d /\
                   w' = remember prompt [qr] w)).
  { intros [?|(qr & -> & ? & ?)]; [by left|right].
    exists qr. repeat split; try done. by exists results, w, w'. }
  revert Hrun.
  unfold process_response. cbv [bindM lift except_JSONDecodeError ret].
  destruct (message_content_of resp) as [mc|e]; [|discriminate].
  destruct (startswith (ReagClient.model self) "ollama/").
  - destruct mc as [| | | |text| |]; try discriminate. cbn [expect_str].
    destruct (_extract_think_content text) as [[content reasoning] irr].
    cbn. intros H. injection H as <- <-. right.
    eexists. split; [reflexivity|]. split; [reflexivity|].
    unfold remember, exchange, user_message, assistant_message, Memory.add_message.
    cbn. by rewrite ?app_nil_r, <- ?app_assoc.
  - destruct (parse_message_content json_loads mc) as [data|e] eqn:Hparse.
    2: { destruct e; try discriminate. intros H. injection H as <- <-. auto. }
    destruct data as [| | | | | |top]; try discriminate. cbn [subscript].
    destruct (dict_get top "source") as [source|]; [|discriminate].
    destruct source as [| | | | | |members]; try discriminate. cbn [method_get].
    destruct (truthy (dict_get_default members "is_irrelevant" (PBool true))).
    { intros H. injection H as <- <-. auto. }
    destruct (QueryResult.new (dict_get_default members "content" (PStr ""))
                (dict_get_default members "reasoning" (PStr ""))
                (dict_get_default members "is_irrelevant" (PBool false)) d)
      as [qr|e] eqn:Hnew.
    2: { apply QueryResult_new_Raise in Hnew as ->. discriminate. }
    intros H. injection H as <- <-. right.
    apply QueryResult_new_Return in Hnew as (c' & r' & i' & Hc & Hr & Hi & ->).
    apply validate_str_Return in Hc as ->.
    eexists. split; [reflexivity|]. split; [reflexivity|].
    unfold remember, exchange, user_message, assistant_message, Memory.add_message.
    cbn. by rewrite ?app_nil_r, <- ?app_assoc.
Qed.

Lemma answers_json_relevant self prompt d resp qr :
  startswith (ReagClient.model self) "ollama/" = false ->
  answers json_loads self prompt d resp qr ->
  QueryResult.is_irrelevant qr = false.
Proof.
  intros Hmodel (results & w & w' & Hrun). revert Hrun.
  unfold process_response. cbv [bindM lift except_JSONDecodeError ret]. rewrite Hmodel.
  destruct (message_content_of resp) as [mc|e]; [|discriminate].
  assert (Hskip : forall (w1 w2 : world),
             (w1, Return results) = (w2, Return (results ++ [qr])) -> False).
  { intros w1 w2 H. injection H as _ H. apply (f_equal length) in H.
    rewrite length_app in H. cbn in H. lia. }
  destruct (parse_message_content json_loads mc) as [data|e] eqn:Hparse.
  2: { destruct e; try discriminate. intros H. by apply Hskip in H. }
  destruct data as [| | | | | |top]; try discriminate. cbn [subscript].
  destruct (dict_get top "source") as [source|]; [|discriminate].
  destruct source as [| | | | | |members]; try discriminate. cbn [method_get].
  unfold dict_get_default.
  destruct (dict_get members "is_irrelevant") as [v|]; cbn [truthy].
  2: { intros H. by apply Hskip in H. }
  destruct (truthy v) eqn:Hv; [intros H; by apply Hskip in H|].
  match goal with |- context [QueryResult.new ?c ?r ?i ?d] =>
    destruct (QueryResult.new c r i d) as [qr'|e] eqn:Hnew end.
  2: { apply QueryResult_new_Raise in Hnew as ->. discriminate. }
  intros H. injection H as _ H. apply app_inj_tail in H as [_ ->].
  apply QueryResult_new_Return in Hnew as (c' & r' & i' & _ & _ & Hi & ->).
  cbn. by eapply validate_bool_falsy.
Qed.

End ResponseFacts.

(** ** Positions and sublists *)

Lemma StronglySorted_lt_shift (k : nat) (picks : list nat) :
  StronglySorted lt picks -> StronglySorted lt (map (Nat.add k) picks).
Proof.
  induction 1 as [|i picks Hs IH Hall]; cbn; constructor; [done|].
  apply Forall_forall. intros j Hj.
  apply list_elem_of_In, in_map_iff in Hj as (j' & <- & Hj').
  rewrite Forall_forall in Hall. specialize (Hall j' (proj2 (list_elem_of_In _ _) Hj')). lia.
Qed.

Lemma StronglySorted_lt_app (picks1 picks2 : list nat) (n : nat) :
  StronglySorted lt picks1 -> StronglySorted lt picks2 ->
  Forall (fun i => i < n) picks1 -> Forall (fun i => n <= i) picks2 ->
  StronglySorted lt (picks1 ++ picks2).
Proof.
  intros H1 H2 Hlt Hge. induction H1 as [|i picks1 Hs IH Hall]; [done|].
  cbn. apply Forall_cons in Hlt as [Hi Hlt]. constructor; [by apply IH|].
  apply Forall_app. split; [done|].
  eapply Forall_impl; [exact Hge|]. intros j Hj. cbn in Hj. lia.
Qed.

(* strictly increasing positions select a sublist *)
Lemma picks_sublist {A} (l : list A) (picks : list nat) (xs : list A) :
  StronglySorted lt picks ->
  Forall2 (fun i x => l !! i = Some x) picks xs ->
  sublist xs l.
Proof.
  intros Hs Hpick.
  cut (forall k, Forall (fun i => k <= i) picks -> sublist xs (drop k l)).
  { intros H. apply (H 0). apply Forall_forall. intros; lia. }
  revert xs Hpick. induction Hs as [|i picks Hs IH Hall]; intros xs Hpick k Hk.
  - inversion Hpick. apply sublist_nil_l.
  - inversion Hpick as [|? x ? xs' Hi Hrest]; subst.
    apply Forall_cons in Hk as [Hki _].
    replace (drop k l) with (take (i - k) (drop k l) ++ drop i l).
    2: { rewrite <- (take_drop (i - k) (drop k l)) at 2. rewrite drop_drop.
         do 2 f_equal. lia. }
    apply sublist_inserts_l. rewrite (drop_S l x i Hi). apply sublist_skip.
    apply IH; [done|]. eapply Forall_impl; [exact Hall|]. intros j Hj. cbn in Hj. lia.
Qed.

Lemma sequence_Return {A} (outcomes : list (result A)) (values : list A) :
  sequence outcomes = Return values -> outcomes = map Return values.
Proof.
  revert values. induction outcomes as [|o outcomes IH]; intros values; cbn.
  - intros H. by injection H as <-.
  - destruct o as [a|e]; [|discriminate]. cbn.
    destruct (sequence outcomes) as [rest|e]; [|discriminate]. cbn.
    intros H. injection H as <-. cbn. by rewrite (IH rest).
Qed.

(** ** Batches and the whole query *)

Section BatchFacts.

Variable re_match : string -> string -> result bool.
Variable json_loads : string -> result pyval.
Variable repr_metadata : option (gmap string scalar) -> result string.
Variable acompletion : nat -> Request.t -> result response.
Variable raises_first : nat -> nat.

Implicit Types (self : ReagClient.t) (prompt : string) (w : world)
  (results new : list QueryResult.t) (picks : list nat).


Lemma fold_responses self prompt pairs results w w' results' :
  for_fold (process_response json_loads self prompt) pairs results w
  = (w', Return results') ->
  exists picks new,
    results' = results ++ new /\ w' = remember prompt new w /\
    StronglySorted lt picks /\
    Forall2 (fun i qr => exists resp,
               pairs !! i = Some (QueryResult.document qr, resp) /\
               answers json_loads self prompt (QueryResult.document qr) resp qr)
      picks new.
Proof.
  revert results w. induction pairs as [|[d resp] pairs IH]; intros results w.
  - cbn. intros H. injection H as <- <-. exists [], [].
    rewrite app_nil_r, remember_nil. repeat split; constructor.
  - cbn [for_fold]. unfold bindM at 1.
    destruct (process_response json_loads self prompt results (d, resp) w)
      as [w1 [results1|e]] eqn:Hone; [|discriminate].
    intros Hrest. apply IH in Hrest as (picks & new & -> & -> & Hsorted & Hpicks).
    assert (Hshift :
      Forall2 (fun i qr => exists resp0,
                 ((d, resp) :: pairs) !! i = Some (QueryResult.document qr, resp0) /\
                 answers json_loads self prompt (QueryResult.document qr) resp0 qr)
        (map (Nat.add 1) picks) new).
    { clear -Hpicks. induction Hpicks; cbn; constructor; auto. }
    apply process_response_Return in Hone
      as [[-> ->]|(qr & -> & Hdoc & -> & Hans)].
    + exists (map (Nat.add 1) picks), new.
      repeat split; [by apply StronglySorted_lt_shift | done].
    + exists (0 :: map (Nat.add 1) picks), (qr :: new).
      rewrite <- app_assoc, remember_app. repeat split.
      * constructor; [by apply StronglySorted_lt_shift|].
        apply Forall_forall. intros j Hj.
        apply list_elem_of_In, in_map_iff in Hj as (j' & <- & _). lia.
      * constructor; [|done]. exists resp. subst d. by split.
Qed.

Lemma sequence_Forall2 {A B} (f : A -> result B) (l : list A) (values : list B) :
  sequence (map f l) = Return values <-> Forall2 (fun a b => f a = Return b) l values.
Proof.
  revert values. induction l as [|a l IH]; intros values; cbn.
  - split; [intros H; injection H as <-; constructor|].
    intros H. by inversion H.
  - destruct (f a) as [b|e] eqn:Hfa; cbn.
    + destruct (sequence (map f l)) as [rest|e] eqn:Hrest; cbn.
      * split.
        -- intros H. injection H as <-. constructor; [done|]. by apply IH.
        -- intros H. inversion H as [|? b' ? rest' Hb Hl]; subst.
           apply IH in Hl. congruence.
      * split; [discriminate|].
        intros H. inversion H as [|? b' ? rest' Hb Hl]; subst.
        apply IH in Hl. discriminate.
    + split; [discriminate|].
      intros H. inversion H; subst. congruence.
Qed.



(* building the tasks of a batch issues nothing: the requests, or the
   exception of the first document whose system prompt cannot be written *)
Lemma for_each_make_task self prompt batch w :
  for_each (make_task repr_metadata self prompt) batch w
  = (w, task_requests repr_metadata self prompt (Memory.get_history (memory w)) batch).
Proof.
  unfold task_requests.
  induction batch as [|d batch IH]; [reflexivity|].
  cbn [for_each map sequence]. unfold bindM at 1.
  unfold make_task at 1, task_request at 1, build_messages at 1.
  cbv [bindM lift get_history ret].
  destruct (system_prompt repr_metadata self d) as [system|e]; cbn; [|done].
  cbv [bindM ret] in IH. rewrite IH. by destruct (sequence _).
Qed.

Lemma task_requests_built self prompt history batch requests :
  task_requests repr_metadata self prompt history batch = Return requests ->
  Forall2 (fun d request => task_request repr_metadata self prompt history d = Return request)
    batch requests.
Proof. apply sequence_Forall2. Qed.

Lemma run_tasks_log tasks w :
  run_tasks acompletion tasks w
  = (mk_world (memory w) (issued w ++ tasks),
     imap (fun i request => acompletion (length (issued w) + i) request) tasks).
Proof.
  revert w. induction tasks as [|request tasks IH]; intros w.
  - cbn. rewrite app_nil_r. by destruct w.
  - cbn [run_tasks await_completion]. rewrite IH. cbn [memory issued].
    rewrite <- app_assoc, imap_cons, Nat.add_0_r. f_equal. f_equal.
    apply imap_ext. intros i x _. cbn. rewrite length_app. cbn. f_equal. lia.
Qed.

Lemma gather_Return tasks w w' responses :
  gather acompletion raises_first tasks w = (w', Return responses) ->
  w' = mk_world (memory w) (issued w ++ tasks) /\
  length responses = length tasks /\
  forall i request, tasks !! i = Some request ->
    exists response, responses !! i = Some response /\
                     acompletion (length (issued w) + i) request = Return response.
Proof.
  unfold gather. rewrite run_tasks_log.
  destruct (sequence _) as [responses'|e] eqn:Hseq; [|discriminate].
  intros H. injection H as <- ->.
  apply sequence_Return in Hseq. split; [done|]. split.
  - apply (f_equal length) in Hseq. by rewrite length_imap, length_map in Hseq.
  - intros i request Hi.
    assert (Hl : imap (fun i request => acompletion (length (issued w) + i) request) tasks !! i
                 = Some (acompletion (length (issued w) + i) request)).
    { rewrite list_lookup_imap, Hi. reflexivity. }
    rewrite Hseq in Hl. change (map ?f ?l) with (f <$> l) in Hl.
    rewrite list_lookup_fmap in Hl.
    destruct (responses !! i) as [response|]; [|discriminate].
    exists response. split; [done|]. cbn in Hl. congruence.
Qed.

Lemma process_batch_Return self prompt results batch w w' results' :
  process_batch json_loads repr_metadata acompletion raises_first self prompt results batch w
  = (w', Return results') ->
  exists requests picks new,
    task_requests repr_metadata self prompt (Memory.get_history (memory w)) batch
    = Return requests /\
    results' = results ++ new /\
    w' = remember prompt new (mk_world (memory w) (issued w ++ requests)) /\
    retained json_loads repr_metadata acompletion self prompt batch
      (length (issued w)) requests picks new.
Proof.
  unfold process_batch. unfold bindM at 1. rewrite for_each_make_task.
  destruct (task_requests repr_metadata self prompt (Memory.get_history (memory w)) batch)
    as [requests|e] eqn:Hrequests; [|discriminate].
  unfold bindM at 1.
  destruct (gather acompletion raises_first requests w) as [w1 [responses|e]] eqn:Hgather;
    [|discriminate].
  apply gather_Return in Hgather as (-> & Hlen & Hresp).
  intros Hfold. apply fold_responses in Hfold as (picks & new & -> & -> & Hsorted & Hpicks).
  exists requests, picks, new. repeat split; [done|].
  eapply Forall2_impl; [exact Hpicks|]. cbn beta.
  intros i qr (resp & Hi & Hans).
  apply lookup_zip_with_Some in Hi as (d & resp' & Heq & Hd & Hr).
  injection Heq as <- <-.
  apply task_requests_built in Hrequests.
  destruct (Forall2_lookup_l _ _ _ _ _ Hrequests Hd) as (request & Hreq & Hbuilt).
  destruct (Hresp i _ Hreq) as (response & Hr' & Hcall).
  exists request, resp. repeat split; [done | done | by eexists | congruence | done].
Qed.



End BatchFacts.

Lemma batches_of_concat {A} (docs : list A) (batch_size : Z) (batches : list (list A)) :
  batches_of docs batch_size = Return batches ->
  batches = [] \/ concat batches = docs.
Proof.
  destruct (Z.lt_trichotomy batch_size 0) as [Hneg|[->|Hpos]].
  - unfold batches_of, py_range.
    destruct (Z.eqb_spec batch_size 0) as [|_]; [lia|].
    destruct (Z.ltb_spec 0 batch_size) as [|_]; [lia|].
    assert (Hq : ((0 - Z.of_nat (length docs) - batch_size - 1) / - batch_size < 1)%Z)
      by (apply Z.div_lt_upper_bound; lia).
    replace (Z.to_nat ((0 - Z.of_nat (length docs) - batch_size - 1) / - batch_size))
      with 0%nat by lia.
    cbn. intros H. injection H as <-. by left.
  - discriminate.
  - destruct (batches_of_positive_concat docs batch_size Hpos) as (bs & -> & Hcat).
    intros H. injection H as <-. by right.
Qed.

Section QueryFacts.

Variable re_match : string -> string -> result bool.
Variable json_loads : string -> result pyval.
Variable repr_metadata : option (gmap string scalar) -> result string.
Variable acompletion : nat -> Request.t -> result response.
Variable raises_first : nat -> nat.

Implicit Types (self : ReagClient.t) (prompt : string) (w : world)
  (results new : list QueryResult.t) (picks : list nat).

Lemma remember_issued prompt new1 new2 m log requests1 requests2 :
  remember prompt new2
    (mk_world (memory (remember prompt new1 (mk_world m (log ++ requests1))))
       (issued (remember prompt new1 (mk_world m (log ++ requests1))) ++ requests2))
  = remember prompt (new1 ++ new2) (mk_world m (log ++ requests1 ++ requests2)).
Proof. unfold remember. cbn. by rewrite flat_map_app, !app_assoc. Qed.

Lemma retained_bound self prompt docs first requests picks new :
  retained json_loads repr_metadata acompletion self prompt docs first requests picks new ->
  Forall (fun i => i < length docs) picks.
Proof.
  intros [_ H]. induction H as [|i qr picks new (rq & rs & Hd & _) _ IH]; constructor; auto.
  by apply lookup_lt_Some in Hd.
Qed.

Lemma fold_batches self prompt batches results w w' results' :
  for_fold (process_batch json_loads repr_metadata acompletion raises_first self prompt)
    batches results w = (w', Return results') ->
  exists picks new requests,
    results' = results ++ new /\
    w' = remember prompt new (mk_world (memory w) (issued w ++ requests)) /\
    Forall2 (built_from repr_metadata self prompt) (concat batches) requests /\
    retained json_loads repr_metadata acompletion self prompt (concat batches)
      (length (issued w)) requests picks new.
Proof.
  revert results w. induction batches as [|batch batches IH]; intros results w.
  - cbn. intros H. injection H as <- <-. exists [], [], [].
    rewrite !app_nil_r, remember_nil. destruct w.
    repeat split; constructor.
  - cbn [for_fold]. unfold bindM at 1.
    destruct (process_batch json_loads repr_metadata acompletion raises_first self prompt
                results batch w) as [w1 [results1|e]] eqn:Hbatch; [|discriminate].
    apply process_batch_Return in Hbatch
      as (requests1 & picks1 & new1 & Hreq1 & -> & -> & Hret1).
    apply task_requests_built in Hreq1.
    intros Hrest. apply IH in Hrest as (picks2 & new2 & requests2 & -> & -> & Hb2 & Hret2).
    assert (Hlen1 : length requests1 = length batch)
      by (symmetry; by eapply Forall2_length).
    exists (picks1 ++ map (Nat.add (length batch)) picks2), (new1 ++ new2),
      (requests1 ++ requests2).
    rewrite <- app_assoc, remember_issued. repeat split.
    + cbn [concat]. apply Forall2_app; [|exact Hb2].
      eapply Forall2_impl; [exact Hreq1|]. intros d request Hd.
      by exists (Memory.get_history (memory w)).
    + pose proof (retained_bound _ _ _ _ _ _ _ Hret1) as Hbound.
      destruct Hret1 as [Hs1 _], Hret2 as [Hs2 _].
      apply (StronglySorted_lt_app _ _ (length batch)); auto.
      * by apply StronglySorted_lt_shift.
      * apply Forall_forall. intros j Hj.
        apply list_elem_of_In, in_map_iff in Hj as (j' & <- & _). lia.
    + destruct Hret1 as [_ H1], Hret2 as [_ H2]. cbn [concat].
      apply Forall2_app.
      * eapply Forall2_impl; [exact H1|]. cbn beta.
        intros i qr (rq & rs & Hd & Hq & Hb & Hc & Ha).
        exists rq, rs. repeat split; auto.
        -- by apply lookup_app_l_Some.
        -- by apply lookup_app_l_Some.
      * change (map ?f ?l) with (f <$> l). apply Forall2_fmap_l.
        eapply Forall2_impl; [exact H2|]. cbn beta.
        intros i qr (rq & rs & Hd & Hq & Hb & Hc & Ha).
        exists rq, rs. cbn [compose]. repeat split; auto.
        -- rewrite lookup_app_r by lia. rewrite <- Hd. f_equal. lia.
        -- rewrite lookup_app_r by lia. rewrite <- Hq. f_equal. lia.
        -- rewrite <- Hc. f_equal. cbn [issued remember]. rewrite length_app. lia.
Qed.

Lemma retained_concat self prompt (docs : list Document.t) batch_size batches
    first requests picks new :
  batches_of docs batch_size = Return batches ->
  retained json_loads repr_metadata acompletion self prompt (concat batches)
    first requests picks new ->
  retained json_loads repr_metadata acompletion self prompt docs
    first requests picks new.
Proof.
  intros Hb Hret. apply batches_of_concat in Hb as [->| <-]; [|done].
  destruct Hret as [_ H]. cbn in H.
  destruct H as [|i qr picks new (rq & rs & Hd & _)]; [|discriminate].
  split; constructor.
Qed.

(* what a query that returns has done *)
Lemma batch_query_Return self prompt documents opts w w' results :
  _batch_query re_match json_loads repr_metadata acompletion raises_first self prompt documents opts w
  = (w', Return results) ->
  exists filters filtered picks requests,
    convert_filters opts = Return filters /\
    _filter_documents_by_metadata re_match documents filters = Return filtered /\
    w' = remember prompt results (mk_world (memory w) (issued w ++ requests)) /\
    ((0 < ReagClient.batch_size self)%Z ->
     Forall2 (built_from repr_metadata self prompt) filtered requests) /\
    retained json_loads repr_metadata acompletion self prompt filtered
      (length (issued w)) requests picks results.
Proof.
  unfold _batch_query, except_Exception_reraise. cbv [bindM lift].
  destruct (convert_filters opts) as [filters|e] eqn:Hconv; [|discriminate].
  destruct (_filter_documents_by_metadata re_match documents filters)
    as [filtered|e] eqn:Hfilter; [|discriminate].
  destruct (batches_of filtered (ReagClient.batch_size self)) as [batches|e] eqn:Hb;
    [|discriminate].
  destruct (for_fold _ batches [] w) as [w1 [results1|e]] eqn:Hfold; [|discriminate].
  intros H. injection H as <- <-.
  apply fold_batches in Hfold as (picks & new & requests & -> & -> & Hbuilt & Hret).
  exists filters, filtered, picks, requests. cbn [app].
  split; [done|]. split; [done|]. split; [done|]. split.
  - intros Hpos.
    destruct (batches_of_positive_concat filtered _ Hpos) as (bs & Hbs & Hcat).
    rewrite Hbs in Hb. injection Hb as <-. by rewrite Hcat in Hbuilt.
  - revert Hret. by apply retained_concat with (batch_size := ReagClient.batch_size self).
Qed.





End QueryFacts.

(** ** Skipped responses, defaults and streams *)

Lemma for_fold_cons {A B} (f : B -> A -> M B) (a : A) (l : list A) (acc : B) (w : world) :
  for_fold f (a :: l) acc w
  = match f acc a w with
    | (w1, Return acc1) => for_fold f l acc1 w1
    | (w1, Raise e) => (w1, Raise e)
    end.
Proof. reflexivity. Qed.


Section ResponseTheorems.

Variable json_loads : string -> result pyval.

Lemma process_response_json self prompt results d resp mc top members w :
  startswith (ReagClient.model self) "ollama/" = false ->
  message_content_of resp = Return mc ->
  parse_message_content json_loads mc = Return (PDict top) ->
  dict_get top "source" = Some (PDict members) ->
  well_typed_source members ->
  process_response json_loads self prompt results (d, resp) w
  = if bool_field members "is_irrelevant" true then (w, Return results)
    else
      let r := QueryResult.mk (str_field members "content")
                 (str_field members "reasoning") false d in
      (remember prompt [r] w, Return (results ++ [r])).
Proof.
  intros Hmodel Hmc Hparse Hsource (Hc & Hr & Hi).
  unfold process_response. cbv [bindM lift except_JSONDecodeError ret].
  rewrite Hmc, Hmodel, Hparse. cbn [subscript]. rewrite Hsource. cbn [method_get].
  unfold bool_field, str_field, dict_get_default.
  destruct (dict_get members "is_irrelevant") as [v|].
  2: { reflexivity. }
  destruct (Hi v eq_refl) as [b ->]. cbn [truthy].
  destruct b; [reflexivity|].
  destruct (dict_get members "content") as [vc|];
    [destruct (Hc vc eq_refl) as [c ->]|];
    (destruct (dict_get members "reasoning") as [vr|];
      [destruct (Hr vr eq_refl) as [r ->]|]);
    cbn; unfold remember, exchange, user_message, assistant_message, Memory.add_message;
    cbn; by rewrite <- ?app_assoc.
Qed.



End ResponseTheorems.

Section StreamFacts.

Variable re_match : string -> string -> result bool.
Variable repr_metadata : option (gmap string scalar) -> result string.
Variable acompletion_stream : nat -> Request.t -> result (list chunk).



End StreamFacts.

(** ** Reading a reasoning model's text: two runs *)

Example extract_think_reasoning_model :
  _extract_think_content
    ("<think> the page says so </think>" ++ newline ++
     "**isIrrelevant:** False" ++ newline ++
     "**Answer:**  Superagent is a workspace. " ++ newline ++ "tail")
  = ("Superagent is a workspace.", "the page says so", false).
Proof. reflexivity. Qed.

Example extract_think_no_markers :
  _extract_think_content "some words" = ("", "", true).
Proof. reflexivity. Qed.

(** ** The properties of the specification, one by one *)

Lemma retained_sublist json_loads repr_metadata acompletion self prompt docs first
    requests picks (new : list QueryResult.t) :
  retained json_loads repr_metadata acompletion self prompt docs first requests picks new ->
  sublist (map QueryResult.document new) docs.
Proof.
  intros [Hsorted Hpicks]. apply (picks_sublist docs picks); [done|].
  change (map ?f ?l) with (f <$> l). apply Forall2_fmap_r.
  eapply Forall2_impl; [exact Hpicks|]. cbn beta.
  by intros i qr (rq & rs & Hd & _).
Qed.




(** C2 (the code departs from the specification).  Ordering an integer
    metadata value against a text filter value raises TypeError out of the
    evaluator instead of evaluating to false, and so does a substring test
    with an integer filter value. *)
Theorem ordering_integer_against_text_raises (re_match : string -> string -> result bool) :
  passes_filter re_match (versioned_doc 1 "sa-1") version_above_text = Raise TypeError /\
  _filter_documents_by_metadata re_match [versioned_doc 1 "sa-1"]
    (Some [version_above_text]) = Raise TypeError /\
  passes_filter re_match (versioned_doc 1 "sa-1")
    (MetadataFilter.mk "id" (VInt 1) (Some "contains")) = Raise TypeError.
Proof. repeat split; vm_compute; reflexivity. Qed.

(** C5.  For a positive batch size the batcher returns consecutive groups
    whose concatenation is the input list; every group is non-empty and holds
    at most [batch_size] documents, and every group but the last holds exactly
    [batch_size]. *)
Theorem batcher_partitions_in_order (docs : list Document.t) (batch_size : Z) :
  (0 < batch_size)%Z ->
  exists batches,
    batches_of docs batch_size = Return batches /\
    concat batches = docs /\
    Forall (fun batch => (0 < length batch)%nat /\
                         (Z.of_nat (length batch) <= batch_size)%Z) batches /\
    (forall i batch, batches !! i = Some batch -> (S i < length batches)%nat ->
                     Z.of_nat (length batch) = batch_size).
Proof.
  intros Hpos.
  destruct (batches_of_positive docs batch_size Hpos) as (Heq & Hcover & Hstart).
  set (b := Z.to_nat batch_size) in *.
  set (c := Z.to_nat ((Z.of_nat (length docs) + batch_size - 1) / batch_size)) in *.
  exists (map (fun k => take b (drop (k * b) docs)) (seq 0 c)).
  split; [exact Heq|].
  split; [rewrite concat_chunks; by apply take_ge|].
  split.
  - apply Forall_forall. intros batch Hin.
    apply list_elem_of_In, in_map_iff in Hin as (k & <- & Hk).
    apply in_seq in Hk. specialize (Hstart k ltac:(lia)).
    rewrite length_take, length_drop. unfold b in *. lia.
  - intros i batch Hi Hlast.
    rewrite length_map, length_seq in Hlast.
    change (map ?f ?l) with (f <$> l) in Hi.
    rewrite list_lookup_fmap in Hi.
    destruct (seq 0 c !! i) as [k|] eqn:Hk; [|discriminate].
    apply lookup_seq in Hk as [-> _]. injection Hi as <-.
    specialize (Hstart (S i) Hlast).
    rewrite length_take, length_drop. cbn [Nat.add]. unfold b in *. lia.
Qed.

Lemma batcher_partitions_witness :
  exists batches,
    batches_of [superagent_doc; recipe_doc; versioned_doc 1 "sa-1";
                versioned_doc 2 "sa-2"; superagent_doc] 2 = Return batches /\
    concat batches = [superagent_doc; recipe_doc; versioned_doc 1 "sa-1";
                      versioned_doc 2 "sa-2"; superagent_doc] /\
    Forall (fun batch => (0 < length batch)%nat /\
                         (Z.of_nat (length batch) <= 2)%Z) batches /\
    (forall i batch, batches !! i = Some batch -> (S i < length batches)%nat ->
                     Z.of_nat (length batch) = 2%Z).
Proof.
  apply (batcher_partitions_in_order
           [superagent_doc; recipe_doc; versioned_doc 1 "sa-1";
            versioned_doc 2 "sa-2"; superagent_doc] 2).
  lia.
Defined.

(** C1 (the code departs from the specification).  On the reasoning-model
    path a response read as irrelevant is kept: for a model named
    "ollama/..." and a body without markers, the result list holds one record
    whose [is_irrelevant] is true and the memory gains the two messages. *)
Theorem ollama_path_keeps_irrelevant_response :
  let run :=
    _batch_query literal_re_match sample_json_loads sample_repr_metadata
      (constant_backend "some words") in_task_order ollama_client "What is Superagent?"
      [superagent_doc] None fresh_world in
  snd run = Return [QueryResult.mk "" "" true superagent_doc] /\
  Memory.get_history (memory (fst run))
  = [user_message "What is Superagent?"; assistant_message (PStr "")].
Proof. split; vm_compute; reflexivity. Qed.

Section BatchPathProperties.

Variable re_match : string -> string -> result bool.
Variable json_loads : string -> result pyval.
Variable repr_metadata : option (gmap string scalar) -> result string.
Variable acompletion : nat -> Request.t -> result response.
Variable raises_first : nat -> nat.

(** X1.  On the JSON path (a model whose name does not start with "ollama/")
    every returned record has [is_irrelevant] false, and there are at most as
    many records as filtered documents. *)
Theorem json_path_results_are_relevant self prompt documents opts w w' results :
  startswith (ReagClient.model self) "ollama/" = false ->
  _batch_query re_match json_loads repr_metadata acompletion raises_first self prompt documents opts w
  = (w', Return results) ->
  exists filters filtered,
    convert_filters opts = Return filters /\
    _filter_documents_by_metadata re_match documents filters = Return filtered /\
    Forall (fun r => QueryResult.is_irrelevant r = false) results /\
    (length results <= length filtered)%nat.
Proof.
  intros Hmodel Hrun.
  apply batch_query_Return in Hrun
    as (filters & filtered & picks & requests & Hconv & Hfilter & _ & _ & Hret).
  exists filters, filtered. split; [done|]. split; [done|]. split.
  - destruct Hret as [_ Hpicks]. clear -Hpicks Hmodel.
    induction Hpicks as [|i r picks results (rq & rs & _ & _ & _ & _ & Hans) _ IH];
      constructor; [|exact IH].
    by eapply answers_json_relevant.
  - apply retained_sublist, sublist_length in Hret. by rewrite length_map in Hret.
Qed.

Lemma process_response_no_source self prompt results d resp mc top w :
  startswith (ReagClient.model self) "ollama/" = false ->
  message_content_of resp = Return mc ->
  parse_message_content json_loads mc = Return (PDict top) ->
  dict_get top "source" = None ->
  process_response json_loads self prompt results (d, resp) w = (w, Raise KeyError).
Proof.
  intros Hmodel Hmc Hparse Hsource.
  unfold process_response. cbv [bindM lift except_JSONDecodeError ret].
  rewrite Hmc, Hmodel, Hparse. cbn [subscript]. by rewrite Hsource.
Qed.

(** C3, as amended.  On the JSON path a body that is an object whose [source]
    member is an object with well-typed members never raises, whatever members
    of [source] are missing: without [is_irrelevant] the response counts as
    irrelevant and is dropped; otherwise a missing [content] or [reasoning] is
    the empty string.  The [source] member itself has no default: a body
    without it raises KeyError. *)
Theorem json_source_fields_default self prompt results d resp mc top w :
  startswith (ReagClient.model self) "ollama/" = false ->
  message_content_of resp = Return mc ->
  parse_message_content json_loads mc = Return (PDict top) ->
  (forall members,
     dict_get top "source" = Some (PDict members) ->
     well_typed_source members ->
     process_response json_loads self prompt results (d, resp) w
     = if bool_field members "is_irrelevant" true then (w, Return results)
       else
         let r := QueryResult.mk (str_field members "content")
                    (str_field members "reasoning") false d in
         (remember prompt [r] w, Return (results ++ [r]))) /\
  (dict_get top "source" = None ->
   process_response json_loads self prompt results (d, resp) w = (w, Raise KeyError)).
Proof.
  intros Hmodel Hmc Hparse. split.
  - intros members Hsource Htyped. by eapply process_response_json.
  - intros Hsource. by eapply process_response_no_source.
Qed.


(** C8.  After a non-streaming query that returns at least one record, the
    history is the earlier history followed by one user/assistant exchange per
    returned record, so its last two entries are the user prompt and then the
    content of the last record; a cleared memory has an empty history. *)
Theorem memory_ends_with_last_exchange self prompt documents opts w w' results :
  _batch_query re_match json_loads repr_metadata acompletion raises_first self prompt documents opts w
  = (w', Return results) ->
  results <> [] ->
  Memory.get_history (memory w')
  = Memory.get_history (memory w) ++ flat_map (exchange prompt) results /\
  (exists earlier r,
     last results = Some r /\
     Memory.get_history (memory w')
     = earlier ++ [user_message prompt; assistant_message (PStr (QueryResult.content r))]) /\
  (forall m : Memory.t, length (Memory.get_history (Memory.clear m)) = 0%nat).
Proof.
  intros Hrun Hne.
  apply batch_query_Return in Hrun
    as (filters & filtered & picks & requests & _ & _ & -> & _ & _).
  split; [reflexivity|]. split; [|reflexivity].
  destruct (exists_last Hne) as (front & r & ->).
  exists (Memory.get_history (memory w) ++ flat_map (exchange prompt) front), r.
  split; [apply last_snoc|].
  cbn [remember memory Memory.get_history Memory.history].
  rewrite flat_map_app. cbn [flat_map]. by rewrite app_nil_r, app_assoc.
Qed.

(** C9.  The returned records follow the order of the filtered documents:
    their documents form a sublist of the filtered list; each record sits at
    a position of its own, in increasing order, where its document is the
    filtered document, the request issued at that position was built from
    that document, and the record's fields are read from the response to that
    request.  With a positive batch size exactly one request is issued per
    filtered document, in the order of the list. *)
Theorem results_follow_filtered_order self prompt documents opts w w' results :
  _batch_query re_match json_loads repr_metadata acompletion raises_first self prompt documents opts w
  = (w', Return results) ->
  exists filters filtered picks requests,
    convert_filters opts = Return filters /\
    _filter_documents_by_metadata re_match documents filters = Return filtered /\
    sublist (map QueryResult.document results) filtered /\
    issued w' = issued w ++ requests /\
    retained json_loads repr_metadata acompletion self prompt filtered
      (length (issued w)) requests picks results /\
    ((0 < ReagClient.batch_size self)%Z ->
     Forall2 (built_from repr_metadata self prompt) filtered requests).
Proof.
  intros Hrun.
  apply batch_query_Return in Hrun
    as (filters & filtered & picks & requests & Hconv & Hfilter & -> & Hbuilt & Hret).
  exists filters, filtered, picks, requests.
  split; [done|]. split; [done|]. split; [by eapply retained_sublist|].
  split; [reflexivity|]. split; done.
Qed.

End BatchPathProperties.

(** C3, the counterexample.  The body [{}] is well-formed JSON without a
    [source] member; the query fails with the KeyError wrapped. *)
Lemma missing_source_fails_the_query :
  sample_json_loads empty_object_body = Return (PDict []) /\
  snd (_batch_query literal_re_match sample_json_loads sample_repr_metadata
         (constant_backend empty_object_body) in_task_order default_client "What is Superagent?"
         [superagent_doc] None fresh_world)
  = Raise (QueryFailed KeyError).
Proof. split; vm_compute; reflexivity. Qed.

Lemma json_source_fields_default_witness :
  process_response sample_json_loads default_client "What is Superagent?" []
    (superagent_doc,
     mk_response [PDict [("source", PDict [("is_irrelevant", PBool false)])]])
    fresh_world
  = (remember "What is Superagent?" [QueryResult.mk "" "" false superagent_doc] fresh_world,
     Return [QueryResult.mk "" "" false superagent_doc]).
Proof.
  refine (proj1 (json_source_fields_default sample_json_loads default_client
                   "What is Superagent?" [] superagent_doc
                   (mk_response [PDict [("source", PDict [("is_irrelevant", PBool false)])]])
                   (PDict [("source", PDict [("is_irrelevant", PBool false)])])
                   [("source", PDict [("is_irrelevant", PBool false)])]
                   fresh_world eq_refl eq_refl eq_refl)
            [("is_irrelevant", PBool false)] eq_refl _).
  split; [|split]; intros v Hv; [discriminate | discriminate |].
  injection Hv as <-. by exists false.
Defined.


(* the body of 200000 opening brackets is not well-formed JSON, and it is
   not skipped: the query fails with RecursionError wrapped, the one request
   issued and the memory untouched *)
Example deeply_nested_body_fails_the_query :
  sample_json_loads deep_array_body = Raise RecursionError /\
  exists request,
    _batch_query literal_re_match sample_json_loads sample_repr_metadata
      (constant_backend deep_array_body) in_task_order default_client "What is Superagent?"
      [superagent_doc] None fresh_world
    = (mk_world Memory.empty [request], Raise (QueryFailed RecursionError)).
Proof. split; [|eexists]; vm_compute; reflexivity. Qed.


Lemma json_path_results_are_relevant_witness :
  exists w' results,
    mixed_run = (w', Return results) /\
    exists filters filtered,
      convert_filters None = Return filters /\
      _filter_documents_by_metadata literal_re_match
        [superagent_doc; recipe_doc; versioned_doc 1 "sa-1"; versioned_doc 2 "sa-2"]
        filters = Return filtered /\
      Forall (fun r => QueryResult.is_irrelevant r = false) results /\
      (length results <= length filtered)%nat.
Proof.
  eexists _, _. split; [vm_compute; reflexivity|].
  eapply (json_path_results_are_relevant literal_re_match sample_json_loads
           sample_repr_metadata
           (scripted_backend [relevant_body; "not json"; irrelevant_body; relevant_body]) in_task_order
           (ReagClient.mk "gpt-4o-mini" sample_system 2) "What is Superagent?"
           [superagent_doc; recipe_doc; versioned_doc 1 "sa-1"; versioned_doc 2 "sa-2"]
           None fresh_world).
  - reflexivity.
  - vm_compute. reflexivity.
Defined.

Lemma memory_ends_with_last_exchange_witness :
  exists w' results,
    mixed_run = (w', Return results) /\ results <> [] /\
    Memory.get_history (memory w')
    = Memory.get_history (memory fresh_world)
      ++ flat_map (exchange "What is Superagent?") results /\
    (exists earlier r,
       last results = Some r /\
       Memory.get_history (memory w')
       = earlier ++ [user_message "What is Superagent?";
                     assistant_message (PStr (QueryResult.content r))]) /\
    (forall m : Memory.t, length (Memory.get_history (Memory.clear m)) = 0%nat).
Proof.
  eexists _, _. split; [vm_compute; reflexivity|].
  split; [discriminate|].
  eapply (memory_ends_with_last_exchange literal_re_match sample_json_loads
            sample_repr_metadata
            (scripted_backend [relevant_body; "not json"; irrelevant_body; relevant_body]) in_task_order
            (ReagClient.mk "gpt-4o-mini" sample_system 2) "What is Superagent?"
            [superagent_doc; recipe_doc; versioned_doc 1 "sa-1"; versioned_doc 2 "sa-2"]
            None fresh_world).
  - vm_compute. reflexivity.
  - discriminate.
Defined.

Lemma results_follow_filtered_order_witness :
  exists w' results,
    mixed_run = (w', Return results) /\
    map QueryResult.document results = [superagent_doc; versioned_doc 2 "sa-2"] /\
    exists filters filtered picks requests,
      convert_filters None = Return filters /\
      _filter_documents_by_metadata literal_re_match
        [superagent_doc; recipe_doc; versioned_doc 1 "sa-1"; versioned_doc 2 "sa-2"]
        filters = Return filtered /\
      sublist (map QueryResult.document results) filtered /\
      issued w' = issued fresh_world ++ requests /\
      retained sample_json_loads sample_repr_metadata
        (scripted_backend [relevant_body; "not json"; irrelevant_body; relevant_body])
        (ReagClient.mk "gpt-4o-mini" sample_system 2) "What is Superagent?" filtered
        (length (issued fresh_world)) requests picks results /\
      ((0 < 2)%Z ->
       Forall2 (built_from sample_repr_metadata
                  (ReagClient.mk "gpt-4o-mini" sample_system 2) "What is Superagent?")
         filtered requests).
Proof.
  eexists _, _. split; [vm_compute; reflexivity|].
  split; [reflexivity|].
  apply (results_follow_filtered_order literal_re_match sample_json_loads
           sample_repr_metadata
           (scripted_backend [relevant_body; "not json"; irrelevant_body; relevant_body]) in_task_order
           (ReagClient.mk "gpt-4o-mini" sample_system 2) "What is Superagent?"
           [superagent_doc; recipe_doc; versioned_doc 1 "sa-1"; versioned_doc 2 "sa-2"]
           None fresh_world).
  vm_compute. reflexivity.
Defined.

Section StreamingPathProperties.

Variable re_match : string -> string -> result bool.
Variable repr_metadata : option (gmap string scalar) -> result string.
Variable acompletion_stream : nat -> Request.t -> result (list chunk).


(** C10.  When the filtered list is empty the streaming path raises
    IndexError at [filtered_documents[0]]: nothing is yielded, no request has
    been issued and the memory is as it was. *)
Theorem streaming_query_empty_filtered_raises self prompt documents opts filters w :
  convert_filters opts = Return filters ->
  _filter_documents_by_metadata re_match documents filters = Return [] ->
  _streaming_query re_match repr_metadata acompletion_stream self prompt documents opts w
  = (w, ([], Raise IndexError)).
Proof.
  intros Hconv Hfilter.
  unfold _streaming_query. cbv [bindM lift get_history await_stream].
  by rewrite Hconv, Hfilter.
Qed.

End StreamingPathProperties.



Lemma streaming_query_empty_filtered_witness :
  _streaming_query literal_re_match sample_repr_metadata superagent_stream
    default_client "What is Superagent?" [versioned_doc 1 "sa-1"]
    (Some (FilterSingle (Return version_at_least_2))) fresh_world
  = (fresh_world, ([], Raise IndexError)).
Proof.
  apply (streaming_query_empty_filtered_raises literal_re_match sample_repr_metadata
           superagent_stream default_client "What is Superagent?"
           [versioned_doc 1 "sa-1"] (Some (FilterSingle (Return version_at_least_2)))
           (Some [version_at_least_2]) fresh_world).
  - reflexivity.
  - vm_compute. reflexivity.
Defined.

(** ** The JSON path returns *)


Section Totality.

Variable re_match : string -> string -> result bool.
Variable json_loads : string -> result pyval.
Variable repr_metadata : option (gmap string scalar) -> result string.
Variable acompletion : nat -> Request.t -> result response.
Variable raises_first : nat -> nat.

Implicit Types (self : ReagClient.t) (prompt : string) (w : world)
  (results : list QueryResult.t).







End Totality.


(** ** [query] dispatches on [stream] *)

Lemma query_not_streaming re_match json_loads repr_metadata acompletion raises_first
    acompletion_stream self prompt documents opts w :
  query re_match json_loads repr_metadata acompletion raises_first acompletion_stream
    self prompt documents opts false w
  = (fst (_batch_query re_match json_loads repr_metadata acompletion raises_first
            self prompt documents opts w),
     QueryList (snd (_batch_query re_match json_loads repr_metadata acompletion raises_first
                       self prompt documents opts w))).
Proof. unfold query. by destruct (_batch_query _ _ _ _ _ _ _ _ _). Qed.

Lemma query_streaming re_match json_loads repr_metadata acompletion raises_first
    acompletion_stream self prompt documents opts w :
  query re_match json_loads repr_metadata acompletion raises_first acompletion_stream
    self prompt documents opts true w
  = (fst (_streaming_query re_match repr_metadata acompletion_stream
            self prompt documents opts w),
     QueryStream
       (fst (snd (_streaming_query re_match repr_metadata acompletion_stream
                    self prompt documents opts w)))
       (snd (snd (_streaming_query re_match repr_metadata acompletion_stream
                    self prompt documents opts w)))).
Proof. unfold query. by destruct (_streaming_query _ _ _ _ _ _ _ _) as [? [? ?]]. Qed.

(** ** The scenarios of test/client_test.py *)

Example test_query_with_documents :
  snd (_batch_query literal_re_match sample_json_loads sample_repr_metadata
         (constant_backend relevant_body) in_task_order default_client "What is Superagent?"
         [superagent_doc] None fresh_world)
  = Return [QueryResult.mk "Superagent is a workspace for AI-agents."
              "The document describes Superagent." false superagent_doc].
Proof. vm_compute. reflexivity. Qed.

Example test_query_with_metadata_filter :
  let run :=
    _batch_query literal_re_match sample_json_loads sample_repr_metadata
      (constant_backend relevant_body) in_task_order default_client "What is Superagent?"
      [versioned_doc 1 "sa-1"; versioned_doc 2 "sa-2"]
      (Some (FilterList [FilterDict (Return id_is_sa1)])) fresh_world in
  map QueryResult.document (match snd run with Return rs => rs | Raise _ => [] end)
  = [versioned_doc 1 "sa-1"] /\
  length (issued (fst run)) = 1%nat.
Proof. split; vm_compute; reflexivity. Qed.

Example test_query_with_integer_filter :
  let run :=
    _batch_query literal_re_match sample_json_loads sample_repr_metadata
      (constant_backend relevant_body) in_task_order default_client "What is Superagent?"
      [versioned_doc 1 "sa-1"; versioned_doc 2 "sa-2"]
      (Some (FilterList [FilterDict (Return version_at_least_2)])) fresh_world in
  map QueryResult.document (match snd run with Return rs => rs | Raise _ => [] end)
  = [versioned_doc 2 "sa-2"].
Proof. vm_compute. reflexivity. Qed.

Example test_query_returns_empty_for_irrelevant_docs :
  exists request,
    task_request sample_repr_metadata default_client "What is Superagent?" [] recipe_doc
    = Return request /\
    _batch_query literal_re_match sample_json_loads sample_repr_metadata
      (constant_backend irrelevant_body) in_task_order default_client "What is Superagent?"
      [recipe_doc] None fresh_world
    = (mk_world Memory.empty [request], Return []).
Proof. eexists. split; vm_compute; reflexivity. Qed.

Example mixed_run_skips_and_goes_on :
  map QueryResult.document (match snd mixed_run with Return rs => rs | Raise _ => [] end)
  = [superagent_doc; versioned_doc 2 "sa-2"] /\
  length (issued (fst mixed_run)) = 4%nat /\
  length (Memory.get_history (memory (fst mixed_run))) = 4%nat.
Proof. repeat split; vm_compute; reflexivity. Qed.

Example batches_of_five_by_two :
  batches_of [1; 2; 3; 4; 5]%Z 2 = Return [[1; 2]; [3; 4]; [5]]%Z /\
  batches_of [1; 2; 3]%Z 0 = Raise ValueError /\
  batches_of [1; 2; 3]%Z (-1) = Return [].
Proof. repeat split; reflexivity. Qed.

(** * Further properties

    What the code does beyond the properties of the specification. *)

(** ** One response, one batch: any outcome *)

Section AnyOutcome.

Variable re_match : string -> string -> result bool.
Variable json_loads : string -> result pyval.
Variable repr_metadata : option (gmap string scalar) -> result string.
Variable acompletion : nat -> Request.t -> result response.
Variable raises_first : nat -> nat.

Implicit Types (self : ReagClient.t) (prompt : string) (w : world)
  (results : list QueryResult.t).

Lemma add_turn prompt c w :
  mk_world
    (Memory.add_message (Memory.add_message (memory w) (user_message prompt))
       (assistant_message c)) (issued w)
  = mk_world (Memory.mk (Memory.get_history (memory w) ++ turn prompt c)) (issued w).
Proof. unfold Memory.add_message, turn. cbn. by rewrite <- app_assoc. Qed.

(* whatever its outcome, one response leaves the log alone and adds nothing
   or one turn to the memory *)
Lemma process_response_any self prompt results d resp w w' r :
  process_response json_loads self prompt results (d, resp) w = (w', r) ->
  issued w' = issued w /\
  exists cs, (length cs <= 1)%nat /\
             Memory.get_history (memory w')
             = Memory.get_history (memory w) ++ flat_map (turn prompt) cs.
Proof.
  assert (Hsame : forall r0, (w, r0) = (w', r) ->
            issued w' = issued w /\
            exists cs, (length cs <= 1)%nat /\
                       Memory.get_history (memory w')
                       = Memory.get_history (memory w) ++ flat_map (turn prompt) cs).
  { intros r0 H. injection H as <- _. split; [done|]. exists []. cbn.
    split; [lia|]. by rewrite app_nil_r. }
  assert (Hone : forall c r0,
            (mk_world
               (Memory.add_message (Memory.add_message (memory w) (user_message prompt))
                  (assistant_message c)) (issued w), r0) = (w', r) ->
            issued w' = issued w /\
            exists cs, (length cs <= 1)%nat /\
                       Memory.get_history (memory w')
                       = Memory.get_history (memory w) ++ flat_map (turn prompt) cs).
  { intros c r0 H. rewrite add_turn in H. injection H as <- _. split; [done|].
    exists [c]. cbn. split; [lia|]. by rewrite ?app_nil_r. }
  unfold process_response. cbv [bindM lift except_JSONDecodeError ret add_message].
  destruct (message_content_of resp) as [mc|e]; [|apply Hsame].
  destruct (startswith (ReagClient.model self) "ollama/").
  - destruct (expect_str mc) as [text|e]; [|destruct e; apply Hsame].
    destruct (_extract_think_content text) as [[content reasoning] irr].
    cbn. apply Hone.
  - destruct (parse_message_content json_loads mc) as [data|e];
      [|destruct e; apply Hsame].
    destruct (subscript data "source") as [source|e]; [|destruct e; apply Hsame].
    destruct (method_get source "is_irrelevant" (PBool true)) as [irr|e];
      [|destruct e; apply Hsame].
    destruct (truthy irr); [apply Hsame|].
    destruct (method_get source "content" (PStr "")) as [content|e];
      [|destruct e; apply Hsame].
    cbn [memory issued].
    destruct (method_get source "reasoning" (PStr "")) as [reasoning|e];
      [|destruct e; apply Hone].
    destruct (method_get source "is_irrelevant" (PBool false)) as [irr'|e];
      [|destruct e; apply Hone].
    destruct (QueryResult.new content reasoning irr' d) as [qr|e];
      [|destruct e; apply Hone].
    apply Hone.
Qed.

Lemma fold_responses_any self prompt pairs results w w' r :
  for_fold (process_response json_loads self prompt) pairs results w = (w', r) ->
  issued w' = issued w /\
  exists cs, (length cs <= length pairs)%nat /\
             Memory.get_history (memory w')
             = Memory.get_history (memory w) ++ flat_map (turn prompt) cs.
Proof.
  revert results w. induction pairs as [|[d resp] pairs IH]; intros results w.
  - cbn. intros H. injection H as <- _. split; [done|]. exists [].
    cbn. split; [lia|]. by rewrite app_nil_r.
  - rewrite for_fold_cons.
    destruct (process_response json_loads self prompt results (d, resp) w)
      as [w1 r1] eqn:Hone.
    apply process_response_any in Hone as (Hi1 & cs1 & Hl1 & Hh1).
    destruct r1 as [results1|e].
    + intros Hrest. apply IH in Hrest as (Hi2 & cs2 & Hl2 & Hh2).
      split; [congruence|]. exists (cs1 ++ cs2).
      rewrite length_app, flat_map_app, app_assoc, <- Hh1. cbn. split; [lia|done].
    + intros H. injection H as <- _. split; [done|]. exists cs1. cbn. split; [lia|done].
Qed.

(* all the requests of a batch are built on the history the memory holds
   when the batch starts, whatever the batch then does *)
Lemma process_batch_any self prompt results batch w w' r :
  process_batch json_loads repr_metadata acompletion raises_first self prompt results batch w
  = (w', r) ->
  exists requests,
    issued w' = issued w ++ requests /\
    match task_requests repr_metadata self prompt (Memory.get_history (memory w)) batch with
    | Return tasks => requests = tasks
    | Raise e => requests = [] /\ w' = w /\ r = Raise e
    end /\
    exists cs, (length cs <= length requests)%nat /\
               Memory.get_history (memory w')
               = Memory.get_history (memory w) ++ flat_map (turn prompt) cs.
Proof.
  unfold process_batch. unfold bindM at 1. rewrite for_each_make_task.
  destruct (task_requests repr_metadata self prompt (Memory.get_history (memory w)) batch)
    as [tasks|e] eqn:Htasks.
  - unfold bindM at 1. unfold gather. rewrite run_tasks_log.
    apply task_requests_built, Forall2_length in Htasks.
    destruct (sequence _) as [responses|e] eqn:Hseq.
    + intros Hfold. apply fold_responses_any in Hfold as (Hi & cs & Hl & Hh).
      cbn [issued memory] in *. exists tasks. split; [done|]. split; [done|].
      exists cs. split; [|done].
      etrans; [exact Hl|]. rewrite length_zip_with. lia.
    + intros H. injection H as <- _. cbn. exists tasks. split; [done|]. split; [done|].
      exists []. cbn. split; [lia|]. by rewrite app_nil_r.
  - intros H. injection H as <- <-. exists []. rewrite app_nil_r.
    split; [done|]. split; [done|]. exists []. cbn. split; [lia|]. by rewrite app_nil_r.
Qed.

End AnyOutcome.

(** ** The whole query: any outcome *)

Lemma batches_of_negative {A} (docs : list A) (batch_size : Z) :
  (batch_size < 0)%Z -> batches_of docs batch_size = Return [].
Proof.
  intros Hneg. unfold batches_of, py_range.
  destruct (Z.eqb_spec batch_size 0) as [|_]; [lia|].
  destruct (Z.ltb_spec 0 batch_size) as [|_]; [lia|].
  assert (Hq : ((0 - Z.of_nat (length docs) - batch_size - 1) / - batch_size < 1)%Z)
    by (apply Z.div_lt_upper_bound; lia).
  replace (Z.to_nat ((0 - Z.of_nat (length docs) - batch_size - 1) / - batch_size))
    with 0%nat by lia.
  reflexivity.
Qed.

Lemma batches_of_zero {A} (docs : list A) : batches_of docs 0 = Raise ValueError.
Proof. reflexivity. Qed.

Section AnyOutcomeQuery.

Variable re_match : string -> string -> result bool.
Variable json_loads : string -> result pyval.
Variable repr_metadata : option (gmap string scalar) -> result string.
Variable acompletion : nat -> Request.t -> result response.
Variable raises_first : nat -> nat.

Implicit Types (self : ReagClient.t) (prompt : string) (w : world)
  (results : list QueryResult.t).

Lemma fold_batches_any self prompt batches results w w' r :
  for_fold (process_batch json_loads repr_metadata acompletion raises_first self prompt)
    batches results w = (w', r) ->
  exists requests cs,
    issued w' = issued w ++ requests /\
    Memory.get_history (memory w')
    = Memory.get_history (memory w) ++ flat_map (turn prompt) cs /\
    (length cs <= length requests)%nat /\
    (length requests <= length (concat batches))%nat /\
    Forall (carries_history repr_metadata self prompt (concat batches)
              (Memory.get_history (memory w)) (Memory.get_history (memory w')))
      requests.
Proof.
  revert results w. induction batches as [|batch batches IH]; intros results w.
  - cbn. intros H. injection H as <- _. exists [], []. cbn.
    rewrite !app_nil_r. repeat split; constructor.
  - rewrite for_fold_cons.
    destruct (process_batch json_loads repr_metadata acompletion raises_first self prompt
                results batch w) as [w1 r1] eqn:Hbatch.
    apply process_batch_any in Hbatch as (requests1 & Hi1 & Hreq1 & cs1 & Hl1 & Hh1).
    assert (Hbuilt1 : exists built,
              length built <= length batch /\
              Forall2 (fun d request =>
                         task_request repr_metadata self prompt
                           (Memory.get_history (memory w)) d = Return request)
                (take (length built) batch) built /\ requests1 = built).
    { destruct (task_requests repr_metadata self prompt (Memory.get_history (memory w)) batch)
        as [tasks|e] eqn:Htasks.
      - subst requests1. apply task_requests_built in Htasks. exists tasks.
        pose proof (Forall2_length _ _ _ Htasks) as Hlen.
        split; [lia|]. split; [|done]. by rewrite <- Hlen, firstn_all.
      - destruct Hreq1 as (-> & _). exists []. cbn. split; [lia|].
        split; [|done]. rewrite take_0. constructor. }
    clear Hreq1. destruct Hbuilt1 as (built & Hlen1 & Hbuilt1 & ->).
    rename built into requests1.
    assert (Hfirst : forall after,
              Memory.get_history (memory w) `prefix_of` after ->
              Forall (carries_history repr_metadata self prompt (concat (batch :: batches))
                        (Memory.get_history (memory w)) after) requests1).
    { intros after Hafter. apply Forall_forall. intros req Hreq.
      apply list_elem_of_lookup in Hreq as [i Hi].
      destruct (Forall2_lookup_r _ _ _ _ _ Hbuilt1 Hi) as (d & Hd & Hbuilt).
      exists (Memory.get_history (memory w)), d.
      split; [done|]. split; [|split; [done|done]].
      cbn [concat]. apply elem_of_app. left.
      apply lookup_take_Some in Hd as [Hd _]. by eapply list_elem_of_lookup_2. }
    destruct r1 as [results1|e].
    + intros Hrest.
      apply IH in Hrest as (requests2 & cs2 & Hi2 & Hh2 & Hl2 & Hn2 & Hall2).
      exists (requests1 ++ requests2), (cs1 ++ cs2).
      rewrite Hi2, Hi1, Hh2, Hh1, !length_app, flat_map_app, <- !app_assoc.
      split; [done|]. split; [done|]. split; [lia|]. split.
      { cbn [concat]. rewrite length_app. lia. }
      apply Forall_app. split.
      * rewrite app_assoc. apply Hfirst. rewrite <- app_assoc. by eexists.
      * eapply Forall_impl; [exact Hall2|]. cbn beta.
        intros req (h & d & Hreq & Hd & Hpre & Hpost). exists h, d.
        split; [done|]. split; [|split].
        -- cbn [concat]. apply elem_of_app. by right.
        -- etrans; [|exact Hpre]. rewrite Hh1. by eexists.
        -- by rewrite Hh2, Hh1, <- app_assoc in Hpost.
    + intros H. injection H as <- _. exists requests1, cs1.
      split; [done|]. split; [done|]. split; [lia|]. split.
      { cbn [concat]. rewrite length_app. lia. }
      apply Hfirst. rewrite Hh1. by eexists.
Qed.

Lemma filtered_sublist documents filters filtered :
  _filter_documents_by_metadata re_match documents filters = Return filtered ->
  sublist filtered documents.
Proof. intros H. by apply filter_documents_keeps_satisfying in H as [? _]. Qed.

(* whatever its outcome, a query only appends: requests to the log, whole
   turns of its prompt to the memory *)
Lemma batch_query_any self prompt documents opts w w' r :
  _batch_query re_match json_loads repr_metadata acompletion raises_first self prompt documents opts w
  = (w', r) ->
  exists requests cs,
    issued w' = issued w ++ requests /\
    Memory.get_history (memory w')
    = Memory.get_history (memory w) ++ flat_map (turn prompt) cs /\
    (length cs <= length requests)%nat /\
    (length requests <= length documents)%nat /\
    Forall (carries_history repr_metadata self prompt documents
              (Memory.get_history (memory w)) (Memory.get_history (memory w')))
      requests.
Proof.
  assert (Hnone : forall r0, (w, r0) = (w', r) ->
            exists requests cs,
              issued w' = issued w ++ requests /\
              Memory.get_history (memory w')
              = Memory.get_history (memory w) ++ flat_map (turn prompt) cs /\
              (length cs <= length requests)%nat /\
              (length requests <= length documents)%nat /\
              Forall (carries_history repr_metadata self prompt documents
                        (Memory.get_history (memory w))
                        (Memory.get_history (memory w'))) requests).
  { intros r0 H. injection H as <- _. exists [], []. cbn. rewrite !app_nil_r.
    split; [done|]. split; [done|]. split; [lia|]. split; [lia|constructor]. }
  unfold _batch_query, except_Exception_reraise. cbv [bindM lift].
  destruct (convert_filters opts) as [filters|e]; [|apply Hnone].
  destruct (_filter_documents_by_metadata re_match documents filters)
    as [filtered|e] eqn:Hfilter; [|apply Hnone].
  destruct (batches_of filtered (ReagClient.batch_size self)) as [batches|e] eqn:Hb;
    [|apply Hnone].
  destruct (for_fold _ batches [] w) as [w1 r1] eqn:Hfold.
  apply fold_batches_any in Hfold as (requests & cs & Hi & Hh & Hl & Hn & Hall).
  apply filtered_sublist in Hfilter.
  assert (Hsub : sublist (concat batches) documents).
  { destruct (batches_of_concat _ _ _ Hb) as [->| ->]; [apply sublist_nil_l|done]. }
  intros H.
  assert (w1 = w') as -> by (destruct r1; by injection H).
  exists requests, cs. split; [done|]. split; [done|]. split; [done|]. split.
  - etrans; [exact Hn|]. by apply sublist_length.
  - eapply Forall_impl; [exact Hall|]. cbn beta.
    intros req (h & d & Hreq & Hd & Hpre & Hpost). exists h, d.
    split; [done|]. split; [|done]. by eapply elem_of_sublist.
Qed.

End AnyOutcomeQuery.

(** ** Failures of the batch path *)

Lemma sequence_first_Raise {A} (outcomes : list (result A)) (i : nat) (e : exn) :
  outcomes !! i = Some (Raise e) ->
  (forall j o, (j < i)%nat -> outcomes !! j = Some o -> exists a, o = Return a) ->
  sequence outcomes = Raise e.
Proof.
  revert i. induction outcomes as [|o outcomes IH]; intros i Hi Hbefore; [done|].
  destruct i as [|i].
  - cbn in Hi. injection Hi as ->. reflexivity.
  - destruct (Hbefore 0%nat o ltac:(lia) eq_refl) as [a ->]. cbn.
    rewrite (IH i); [reflexivity | exact Hi |].
    intros j o' Hj Ho'. apply (Hbefore (S j) o'); [lia | exact Ho'].
Qed.

Section Failures.

Variable re_match : string -> string -> result bool.
Variable json_loads : string -> result pyval.
Variable repr_metadata : option (gmap string scalar) -> result string.
Variable acompletion : nat -> Request.t -> result response.
Variable raises_first : nat -> nat.

Implicit Types (self : ReagClient.t) (prompt : string) (w : world)
  (results : list QueryResult.t).

Lemma failures_none {A} (outcomes : list (result A)) :
  (forall j o, outcomes !! j = Some o -> exists a, o = Return a) ->
  failures outcomes = [].
Proof.
  induction outcomes as [|o outcomes IH]; intros Hall; [done|].
  destruct (Hall 0%nat o eq_refl) as [a ->]. cbn. apply IH.
  intros j o Ho. by apply (Hall (S j) o).
Qed.

(* when one outcome alone is an exception, it is the one that is raised,
   whichever task raises first *)
Lemma failures_single {A} (outcomes : list (result A)) (i : nat) (e : exn) :
  outcomes !! i = Some (Raise e) ->
  (forall j o, j <> i -> outcomes !! j = Some o -> exists a, o = Return a) ->
  failures outcomes = [e].
Proof.
  revert i. induction outcomes as [|o outcomes IH]; intros i Hi Hothers; [done|].
  destruct i as [|i].
  - cbn in Hi. injection Hi as ->. cbn. f_equal. apply failures_none.
    intros j o Ho. by apply (Hothers (S j) o).
  - destruct (Hothers 0%nat o ltac:(lia) eq_refl) as [a ->]. cbn.
    apply (IH i); [exact Hi|].
    intros j o Hj Ho. apply (Hothers (S j) o); [lia | exact Ho].
Qed.

(* a batch in which one request fails: every request of the batch has been
   issued, no response is processed, the memory is untouched *)
Lemma process_batch_backend_failure self prompt results batch requests w i request e :
  task_requests repr_metadata self prompt (Memory.get_history (memory w)) batch
  = Return requests ->
  requests !! i = Some request ->
  acompletion (length (issued w) + i) request = Raise e ->
  (forall j request', j <> i -> requests !! j = Some request' ->
     exists r, acompletion (length (issued w) + j) request' = Return r) ->
  process_batch json_loads repr_metadata acompletion raises_first self prompt results batch w
  = (mk_world (memory w) (issued w ++ requests), Raise e).
Proof.
  intros Hrequests Hrequest Hfail Hothers.
  unfold process_batch. unfold bindM at 1. rewrite for_each_make_task, Hrequests.
  unfold bindM at 1. unfold gather. rewrite run_tasks_log.
  set (outcomes := imap _ requests).
  assert (Hi : outcomes !! i = Some (Raise e)).
  { unfold outcomes. rewrite list_lookup_imap, Hrequest. cbn. by rewrite Hfail. }
  assert (Hj : forall j o, j <> i -> outcomes !! j = Some o -> exists a, o = Return a).
  { intros j o Hne Ho. unfold outcomes in Ho. rewrite list_lookup_imap in Ho.
    destruct (requests !! j) as [request'|] eqn:Hrequest'; [|discriminate].
    injection Ho as <-. by apply (Hothers j request'). }
  rewrite (sequence_first_Raise outcomes i e Hi),
    (failures_single outcomes i e Hi Hj).
  - cbn [length]. by rewrite Nat.mod_1_r.
  - intros j o Hlt. apply Hj. lia.
Qed.

(** X3.  When the requests of the first batch have been built, one of them
    fails and the others of that batch are answered, the whole query fails
    with that exception wrapped, whichever task is the first to end:
    every request of the first batch has been issued, none of a later batch,
    no response has been processed and the memory is untouched. *)
Theorem backend_failure_fails_the_query self prompt documents opts filters filtered
    requests w i request e :
  (0 < ReagClient.batch_size self)%Z ->
  convert_filters opts = Return filters ->
  _filter_documents_by_metadata re_match documents filters = Return filtered ->
  task_requests repr_metadata self prompt (Memory.get_history (memory w))
    (take (Z.to_nat (ReagClient.batch_size self)) filtered) = Return requests ->
  requests !! i = Some request ->
  acompletion (length (issued w) + i) request = Raise e ->
  (forall j request', j <> i -> requests !! j = Some request' ->
     exists r, acompletion (length (issued w) + j) request' = Return r) ->
  _batch_query re_match json_loads repr_metadata acompletion raises_first self prompt documents opts w
  = (mk_world (memory w) (issued w ++ requests), Raise (QueryFailed e)).
Proof.
  intros Hpos Hconv Hfilter Hrequests Hrequest Hfail Hothers.
  unfold _batch_query, except_Exception_reraise. cbv [bindM lift].
  rewrite Hconv, Hfilter.
  destruct (batches_of_positive filtered _ Hpos) as (-> & Hcover & Hstart).
  set (b := Z.to_nat (ReagClient.batch_size self)) in *.
  set (c := Z.to_nat ((Z.of_nat (length filtered) + ReagClient.batch_size self - 1)
                      / ReagClient.batch_size self)) in *.
  assert (Hc : (0 < c)%nat).
  { apply lookup_lt_Some in Hrequest.
    apply task_requests_built, Forall2_length in Hrequests.
    rewrite length_take in Hrequests.
    destruct c; [cbn in Hcover; lia | lia]. }
  destruct c as [|c]; [lia|]. cbn [seq map]. rewrite for_fold_cons.
  change (0 * b)%nat with 0%nat. rewrite drop_0.
  by rewrite (process_batch_backend_failure self prompt [] (take b filtered) requests
                w i request e).
Qed.

(** X4.  On the JSON path the two messages are added to the memory before
    the record is validated: when pydantic rejects the record, the response
    raises and the memory keeps the turn of a response that was not
    retained. *)
Theorem rejected_record_stays_in_memory self prompt results d resp mc top members w e :
  startswith (ReagClient.model self) "ollama/" = false ->
  message_content_of resp = Return mc ->
  parse_message_content json_loads mc = Return (PDict top) ->
  dict_get top "source" = Some (PDict members) ->
  truthy (dict_get_default members "is_irrelevant" (PBool true)) = false ->
  QueryResult.new (dict_get_default members "content" (PStr ""))
    (dict_get_default members "reasoning" (PStr ""))
    (dict_get_default members "is_irrelevant" (PBool false)) d = Raise e ->
  process_response json_loads self prompt results (d, resp) w
  = (mk_world
       (Memory.mk (Memory.get_history (memory w)
                   ++ turn prompt (dict_get_default members "content" (PStr ""))))
       (issued w),
     Raise ValidationError).
Proof.
  intros Hmodel Hmc Hparse Hsource Hfalsy Hnew.
  unfold process_response. cbv [bindM lift except_JSONDecodeError ret add_message].
  rewrite Hmc, Hmodel, Hparse. cbn [subscript]. rewrite Hsource. cbn [method_get].
  rewrite Hfalsy. cbn [memory issued]. rewrite Hnew, add_turn.
  by rewrite (QueryResult_new_Raise _ _ _ _ _ Hnew).
Qed.

End Failures.

(** ** The filter option *)

Section FilterOption.

Variable re_match : string -> string -> result bool.
Variable json_loads : string -> result pyval.
Variable repr_metadata : option (gmap string scalar) -> result string.
Variable acompletion : nat -> Request.t -> result response.
Variable raises_first : nat -> nat.
Variable acompletion_stream : nat -> Request.t -> result (list chunk).

Implicit Types (self : ReagClient.t) (prompt : string) (w : world).

Lemma sequence_map_instances (fs : list MetadataFilter.t) :
  sequence (map convert_raw_filter (map FilterInstance fs)) = Return fs.
Proof. induction fs as [|f fs IH]; [reflexivity|]. cbn. by rewrite IH. Qed.

(** X5.  The dicts of the filter option are handed to the [MetadataFilter]
    constructor in the order of the list, before any document is looked at.
    When the constructor accepts them all, the query is the one made with
    the instances it returned in their place.  Otherwise the first dict it
    refuses settles the query, with the exception the constructor raised,
    ValidationError or TypeError: the non-streaming path raises it wrapped,
    the streaming path raises it as it is, and in both nothing is requested,
    nothing is yielded and the memory is untouched, whatever the documents
    and the filters after that dict are. *)
Theorem filter_dicts_are_constructed_first self prompt documents raw_filters w :
  (forall fs,
     Forall2 (fun raw f => convert_raw_filter raw = Return f) raw_filters fs ->
     _batch_query re_match json_loads repr_metadata acompletion raises_first
       self prompt documents (Some (FilterList raw_filters)) w
     = _batch_query re_match json_loads repr_metadata acompletion raises_first
         self prompt documents (Some (FilterList (map FilterInstance fs))) w /\
     _streaming_query re_match repr_metadata acompletion_stream
       self prompt documents (Some (FilterList raw_filters)) w
     = _streaming_query re_match repr_metadata acompletion_stream
         self prompt documents (Some (FilterList (map FilterInstance fs))) w) /\
  (forall i e,
     raw_filters !! i = Some (FilterDict (Raise e)) ->
     (forall j constructed, (j < i)%nat ->
        raw_filters !! j = Some (FilterDict constructed) ->
        exists f, constructed = Return f) ->
     _batch_query re_match json_loads repr_metadata acompletion raises_first
       self prompt documents (Some (FilterList raw_filters)) w
     = (w, Raise (QueryFailed e)) /\
     _streaming_query re_match repr_metadata acompletion_stream
       self prompt documents (Some (FilterList raw_filters)) w
     = (w, ([], Raise e))).
Proof.
  split.
  - intros fs Haccepted.
    apply sequence_Forall2 in Haccepted.
    unfold _batch_query, _streaming_query, except_Exception_reraise.
    cbv [bindM lift]. cbn [convert_filters].
    by rewrite Haccepted, sequence_map_instances.
  - intros i e Hrefused Hbefore.
    assert (Hseq : sequence (map convert_raw_filter raw_filters) = Raise e).
    { apply (sequence_first_Raise _ i).
      - change (map ?f ?l) with (f <$> l). by rewrite list_lookup_fmap, Hrefused.
      - intros j o Hj Ho. change (map ?f ?l) with (f <$> l) in Ho.
        rewrite list_lookup_fmap in Ho.
        destruct (raw_filters !! j) as [[constructed|f]|] eqn:Hraw; [| |discriminate].
        + injection Ho as <-. by apply (Hbefore j).
        + injection Ho as <-. by exists f. }
    unfold _batch_query, _streaming_query, except_Exception_reraise.
    cbv [bindM lift]. cbn [convert_filters]. by rewrite Hseq.
Qed.

End FilterOption.

(* a non-empty list no longer than the batch size is one batch *)
Lemma batches_of_single {A} (docs : list A) (batch_size : Z) :
  docs <> [] -> (Z.of_nat (length docs) <= batch_size)%Z ->
  batches_of docs batch_size = Return [docs].
Proof.
  intros Hne Hshort.
  assert (Hlen : (0 < length docs)%nat) by (destruct docs; [done | cbn; lia]).
  destruct (batches_of_positive docs batch_size ltac:(lia)) as (Heq & Hcover & Hstart).
  rewrite Heq.
  set (b := Z.to_nat batch_size) in *.
  set (c := Z.to_nat ((Z.of_nat (length docs) + batch_size - 1) / batch_size)) in *.
  assert (c = 1%nat) as ->.
  { destruct c as [|[|c]]; [cbn in Hcover; lia | done |].
    specialize (Hstart 1%nat ltac:(lia)). unfold b in Hstart. lia. }
  cbn. do 2 f_equal. apply take_ge. unfold b. lia.
Qed.

(** X6.  For a positive batch size the number of batches is the number of
    documents divided by the batch size, rounded up: no batch for an empty
    list, and one batch, the list itself, for a non-empty list no longer
    than the batch size. *)
Theorem batch_count_is_rounded_up (docs : list Document.t) (batch_size : Z) :
  (0 < batch_size)%Z ->
  exists batches,
    batches_of docs batch_size = Return batches /\
    Z.of_nat (length batches) = ((Z.of_nat (length docs) + batch_size - 1) / batch_size)%Z /\
    (docs = [] -> batches = []) /\
    (docs <> [] -> (Z.of_nat (length docs) <= batch_size)%Z -> batches = [docs]).
Proof.
  intros Hpos.
  destruct (batches_of_positive docs batch_size Hpos) as (Heq & Hcover & Hstart).
  set (b := Z.to_nat batch_size) in *.
  set (c := Z.to_nat ((Z.of_nat (length docs) + batch_size - 1) / batch_size)) in *.
  exists (map (fun k => take b (drop (k * b) docs)) (seq 0 c)).
  split; [exact Heq|].
  assert (Hq : (0 <= (Z.of_nat (length docs) + batch_size - 1) / batch_size)%Z)
    by (apply Z.div_pos; lia).
  split; [rewrite length_map, length_seq; unfold c; lia|]. split.
  - intros ->. destruct c as [|c]; [reflexivity|].
    specialize (Hstart 0%nat ltac:(lia)). cbn in Hstart. lia.
  - intros Hne Hshort. pose proof (batches_of_single docs batch_size Hne Hshort) as H1.
    rewrite Heq in H1. by injection H1.
Qed.

(** ** Edges of the filter evaluator *)

Section FilterEdges.

Variable re_match : string -> string -> result bool.

Lemma select_documents_pass documents filters kept :
  select_documents re_match documents filters = Return kept ->
  Forall (fun d => all_pass re_match d filters = Return true) kept.
Proof.
  revert kept. induction documents as [|doc documents IH]; intros kept; cbn.
  - intros H. injection H as <-. constructor.
  - destruct (all_pass re_match doc filters) as [b|e] eqn:Hpass; [|discriminate].
    cbn. destruct (select_documents re_match documents filters) as [rest|e];
      [|discriminate].
    cbn. intros H. injection H as <-.
    destruct b; [constructor; [done|]|]; by apply IH.
Qed.

Lemma select_documents_passing documents filters :
  Forall (fun d => all_pass re_match d filters = Return true) documents ->
  select_documents re_match documents filters = Return documents.
Proof.
  induction 1 as [|doc documents Hdoc _ IH]; [reflexivity|].
  cbn. by rewrite Hdoc, IH.
Qed.

(** X7.  Filtering is idempotent: filtering again what the evaluator returned
    returns the same list. *)
Theorem filtering_twice_changes_nothing documents filters kept :
  _filter_documents_by_metadata re_match documents filters = Return kept ->
  _filter_documents_by_metadata re_match kept filters = Return kept.
Proof.
  destruct filters as [[|f fs]|]; cbn [_filter_documents_by_metadata];
    [reflexivity | | reflexivity].
  intros H. by apply select_documents_passing, select_documents_pass with documents.
Qed.


(** X8.  The filters of a document are tried in order and the first one that
    fails settles the answer: the filters after it are not evaluated, so
    that one which would raise stays silent. *)
Theorem first_failing_filter_settles doc before f rest :
  Forall (fun g => passes_filter re_match doc g = Return true) before ->
  passes_filter re_match doc f = Return false ->
  all_pass re_match doc (before ++ f :: rest) = Return false.
Proof.
  intros Hbefore Hf. induction Hbefore as [|g before Hg _ IH]; cbn.
  - by rewrite Hf.
  - by rewrite Hg.
Qed.

(** X9.  The evaluator raises for a filter only in two ways: TypeError, when
    the metadata value and the filter value are not both text or both
    integers and the operator is not an equality; or whatever [re.match]
    raises for the operator "regex" on two texts.  In particular "equals"
    and "notEquals" never raise. *)
Theorem filter_raises_only_on_mismatch doc f e :
  passes_filter re_match doc f = Raise e ->
  exists md val,
    Document.metadata doc = Some md /\
    md !! MetadataFilter.key f = Some val /\
    effective_operator f <> "equals" /\
    effective_operator f <> "notEquals" /\
    ((e = TypeError /\ same_type val (MetadataFilter.value f) = false) \/
     (exists s p, val = VStr s /\ MetadataFilter.value f = VStr p /\
                  effective_operator f = "regex" /\ re_match p s = Raise e)).
Proof.
  unfold passes_filter.
  destruct (Document.metadata doc) as [md|]; [|discriminate].
  case_bool_decide; [discriminate|].
  destruct (md !! MetadataFilter.key f) as [val|] eqn:Hval; [|discriminate].
  cbv zeta. generalize (effective_operator f) as op.
  generalize (MetadataFilter.value f) as v. intros v op.
  destruct (String.eqb_spec op "equals") as [->|Hne1]; [discriminate|].
  destruct (String.eqb_spec op "notEquals") as [->|Hne2]; [discriminate|].
  intros Hrun. exists md, val. split; [done|]. split; [done|].
  split; [done|]. split; [done|]. revert Hrun.
  repeat match goal with
         | |- context [String.eqb op ?n] => destruct (String.eqb_spec op n) as [->|_]
         end;
    destruct val as [s|n], v as [p|m]; cbn; try discriminate;
    intros Hrun; try (injection Hrun as <-; by left).
  right. by exists s, p.
Qed.

End FilterEdges.

(** ** Edges of the streaming path *)

Section StreamingEdges.

Variable re_match : string -> string -> result bool.
Variable repr_metadata : option (gmap string scalar) -> result string.
Variable acompletion_stream : nat -> Request.t -> result (list chunk).

Implicit Types (self : ReagClient.t) (prompt : string) (w : world).

Lemma build_messages_Return self prompt history (d : Document.t) messages :
  build_messages repr_metadata self prompt history d = Return messages ->
  exists system,
    system_prompt repr_metadata self d = Return system /\
    messages = messages_of system history prompt.
Proof.
  unfold build_messages.
  destruct (system_prompt repr_metadata self d) as [system|e]; [|discriminate].
  cbn. intros H. injection H as <-. by exists system.
Qed.

Lemma consume_stream_broken good bad rest full_response yielded :
  Forall (fun c => deltas c <> []) good ->
  deltas bad = [] ->
  consume_stream (good ++ bad :: rest) full_response yielded
  = (yielded ++ map (fun c => StreamingQueryResult.new (chunk_text c)) good,
     Raise IndexError).
Proof.
  intros Hgood Hbad. revert full_response yielded.
  induction Hgood as [|c good Hc _ IH]; intros full_response yielded.
  - cbn. unfold chunk_content_of. rewrite Hbad. by rewrite app_nil_r.
  - cbn [app consume_stream map]. unfold chunk_content_of, chunk_text.
    destruct (deltas c) as [|[s|] ?]; [done| |]; rewrite IH; by rewrite <- app_assoc.
Qed.

(** X10.  A stream, asked with the one request built from the first
    filtered document, that breaks on a chunk without choices: the records of
    the chunks before it have been yielded, the generator ends with
    IndexError, and the memory is untouched, although the request was
    issued. *)
Theorem broken_stream_leaves_memory_alone self prompt documents opts filters
    first others messages good bad rest w :
  convert_filters opts = Return filters ->
  _filter_documents_by_metadata re_match documents filters = Return (first :: others) ->
  build_messages repr_metadata self prompt (Memory.get_history (memory w)) first
  = Return messages ->
  acompletion_stream (length (issued w))
    (Request.mk (ReagClient.model self) messages true) = Return (good ++ bad :: rest) ->
  Forall (fun c => deltas c <> []) good ->
  deltas bad = [] ->
  _streaming_query re_match repr_metadata acompletion_stream self prompt documents opts w
  = (mk_world (memory w)
       (issued w ++ [Request.mk (ReagClient.model self) messages true]),
     (map (fun c => StreamingQueryResult.new (chunk_text c)) good, Raise IndexError)).
Proof.
  intros Hconv Hfilter Hbuilt Hcall Hgood Hbad.
  apply build_messages_Return in Hbuilt as (system & Hsystem & ->).
  unfold _streaming_query. cbv [bindM lift get_history await_stream].
  rewrite Hconv, Hfilter. cbn [first_document]. rewrite Hsystem, Hcall.
  by rewrite (consume_stream_broken good bad rest "" [] Hgood Hbad).
Qed.


End StreamingEdges.

(** ** Characters of a text *)

Lemma has_char_String (c d : ascii) (s : string) :
  has_char c (String d s) = Ascii.eqb c d || has_char c s.
Proof.
  unfold has_char. cbn [str_in String.prefix].
  destruct (ascii_dec c d) as [->|Hne].
  - rewrite Ascii.eqb_refl. by destruct s.
  - by apply Ascii.eqb_neq in Hne as ->.
Qed.

Lemma has_char_Empty (c : ascii) : has_char c "" = false.
Proof. reflexivity. Qed.

Lemma has_char_append (c : ascii) (a b : string) :
  has_char c (a ++ b) = has_char c a || has_char c b.
Proof.
  induction a as [|d a IH]; [reflexivity|].
  rewrite append_String, !has_char_String, IH. by rewrite orb_assoc.
Qed.

(* a pattern does not occur in a text that lacks its first character *)
Lemma find_split_no_char (c : ascii) (pat s : string) :
  has_char c s = false -> find_split (String c pat) s = None.
Proof.
  induction s as [|d s IH]; [reflexivity|].
  rewrite has_char_String. intros [Hd Hs]%orb_false_elim.
  cbn [find_split String.prefix]. apply Ascii.eqb_neq in Hd.
  destruct (ascii_dec c d) as [->|_]; [done|]. by rewrite (IH Hs).
Qed.

Lemma prefix_append (p s : string) : String.prefix p (p ++ s) = true.
Proof. apply prefix_is_prefix. by exists s. Qed.

Lemma str_drop_append (p s : string) : str_drop (String.length p) (p ++ s) = s.
Proof. induction p as [|c p IH]; [reflexivity|]. rewrite append_String. exact IH. Qed.

(* the first occurrence of a pattern is after a text that lacks its first
   character *)
Lemma find_split_first (c : ascii) (pat before after : string) :
  has_char c before = false ->
  find_split (String c pat) (before ++ String c pat ++ after) = Some (before, after).
Proof.
  induction before as [|d before IH].
  - intros _. rewrite append_Empty.
    assert (Hp : String.prefix (String c pat) (String c pat ++ after) = true)
      by apply prefix_append.
    destruct (String c pat ++ after)%string as [|x rest] eqn:Heq;
      [rewrite append_String in Heq; discriminate|].
    cbn [find_split]. rewrite Hp. rewrite <- Heq. by rewrite str_drop_append.
  - rewrite has_char_String. intros [Hd Hs]%orb_false_elim.
    rewrite append_String. cbn [find_split String.prefix].
    apply Ascii.eqb_neq in Hd. destruct (ascii_dec c d) as [->|_]; [done|].
    by rewrite (IH Hs).
Qed.

(** ** [str.strip] *)

Lemma string_length_ind (P : string -> Prop) :
  (forall s, (forall t, (String.length t < String.length s)%nat -> P t) -> P s) ->
  forall s, P s.
Proof.
  intros Hstep s. remember (String.length s) as n eqn:Hn.
  revert s Hn. induction n as [n IH] using lt_wf_ind. intros s ->.
  apply Hstep. intros t Ht. by apply (IH (String.length t)).
Qed.

(* the three ways a text starts with a whitespace character *)
Lemma skip_space_Some (s rest : string) :
  skip_space s = Some rest ->
  (exists c1, s = String c1 rest /\ isspace c1 = true) \/
  (exists c1 c2, s = String c1 (String c2 rest) /\ isspace c1 = false /\
                 isspace2 c1 c2 = true) \/
  (exists c1 c2 c3, s = String c1 (String c2 (String c3 rest)) /\ isspace c1 = false /\
                    isspace2 c1 c2 = false /\ isspace3 c1 c2 c3 = true).
Proof.
  destruct s as [|c1 [|c2 [|c3 s]]]; cbn [skip_space]; try discriminate.
  - destruct (isspace c1) eqn:H1; [|discriminate].
    intros H. injection H as <-. left. by exists c1.
  - destruct (isspace c1) eqn:H1.
    { intros H. injection H as <-. left. by exists c1. }
    destruct (isspace2 c1 c2) eqn:H2; [|discriminate].
    intros H. injection H as <-. right. left. by exists c1, c2.
  - destruct (isspace c1) eqn:H1.
    { intros H. injection H as <-. left. by exists c1. }
    destruct (isspace2 c1 c2) eqn:H2.
    { intros H. injection H as <-. right. left. by exists c1, c2. }
    destruct (isspace3 c1 c2 c3) eqn:H3; [|discriminate].
    intros H. injection H as <-. right. right. by exists c1, c2, c3.
Qed.

Lemma skip_space_shorter (s rest : string) :
  skip_space s = Some rest -> (String.length rest < String.length s)%nat.
Proof.
  intros [(c1 & -> & _)|[(c1 & c2 & -> & _)|(c1 & c2 & c3 & -> & _)]]%skip_space_Some;
    cbn; lia.
Qed.

Lemma lstrip_unfold (s : string) :
  lstrip s = match skip_space s with Some rest => lstrip rest | None => s end.
Proof.
  destruct s as [|c1 [|c2 [|c3 s]]]; cbn [lstrip skip_space]; try reflexivity.
  - by destruct (isspace c1).
  - destruct (isspace c1); [reflexivity|]. by destruct (isspace2 c1 c2).
  - destruct (isspace c1); [reflexivity|]. destruct (isspace2 c1 c2); [reflexivity|].
    by destruct (isspace3 c1 c2 c3).
Qed.

(* a whitespace character is skipped whatever follows it *)
Lemma skip_space_append (s rest x : string) :
  skip_space s = Some rest -> skip_space (s ++ x) = Some (rest ++ x)%string.
Proof.
  intros [(c1 & -> & H1)|[(c1 & c2 & -> & H1 & H2)|(c1 & c2 & c3 & -> & H1 & H2 & H3)]]%skip_space_Some;
    rewrite ?append_String; cbn [skip_space]; rewrite ?H1, ?H2, ?H3; try reflexivity.
Qed.

Lemma lstrip_idempotent (s : string) : lstrip (lstrip s) = lstrip s.
Proof.
  induction s as [s IH] using string_length_ind.
  rewrite (lstrip_unfold s). destruct (skip_space s) as [rest|] eqn:Hs.
  - apply IH. by apply skip_space_shorter.
  - by rewrite lstrip_unfold, Hs.
Qed.

(* what [lstrip] leaves does not start with whitespace *)
Lemma skip_space_lstrip (s : string) : skip_space (lstrip s) = None.
Proof.
  induction s as [s IH] using string_length_ind.
  rewrite (lstrip_unfold s). destruct (skip_space s) as [rest|] eqn:Hs; [|exact Hs].
  apply IH. by apply skip_space_shorter.
Qed.

(* a text of whitespace followed by [x] *)
Lemma lstrip_append_spaces (s x : string) : lstrip s = "" -> lstrip (s ++ x) = lstrip x.
Proof.
  induction s as [s IH] using string_length_ind.
  rewrite (lstrip_unfold s). destruct (skip_space s) as [rest|] eqn:Hs.
  - intros Hrest. rewrite lstrip_unfold, (skip_space_append _ _ _ Hs).
    apply IH; [by apply skip_space_shorter | exact Hrest].
  - intros ->. reflexivity.
Qed.

(* what [lstrip] and [rstrip] return is a part of the text *)
Lemma lstrip_part (s : string) : exists a, s = (a ++ lstrip s)%string.
Proof.
  induction s as [s IH] using string_length_ind.
  rewrite (lstrip_unfold s). destruct (skip_space s) as [rest|] eqn:Hs; [|by exists ""].
  destruct (IH rest (skip_space_shorter _ _ Hs)) as [a Ha].
  apply skip_space_Some in Hs
    as [(c1 & -> & _)|[(c1 & c2 & -> & _)|(c1 & c2 & c3 & -> & _)]].
  - exists (String c1 a). rewrite append_String. by f_equal.
  - exists (String c1 (String c2 a)). rewrite !append_String. by do 2 f_equal.
  - exists (String c1 (String c2 (String c3 a))). rewrite !append_String. by do 3 f_equal.
Qed.

Lemma rstrip_String (c : ascii) (s : string) :
  rstrip (String c s)
  = if String.eqb (lstrip (String c s)) "" then "" else String c (rstrip s).
Proof. reflexivity. Qed.

Lemma rstrip_Empty : rstrip "" = "".
Proof. reflexivity. Qed.

(* what [rstrip] removes is whitespace *)
Lemma rstrip_part_spaces (s : string) :
  exists b, s = (rstrip s ++ b)%string /\ lstrip b = "".
Proof.
  induction s as [|c s (b & IH & Hb)]; [by exists ""|]. rewrite rstrip_String.
  destruct (String.eqb_spec (lstrip (String c s)) "") as [Hall|_].
  - by exists (String c s).
  - exists b. rewrite append_String. split; [by f_equal | exact Hb].
Qed.

Lemma rstrip_part (s : string) : exists b, s = (rstrip s ++ b)%string.
Proof. destruct (rstrip_part_spaces s) as (b & Hb & _). by exists b. Qed.

(* a text that is not all whitespace is not so without its trailing
   whitespace *)
Lemma lstrip_rstrip_nonempty (s : string) : lstrip s <> "" -> lstrip (rstrip s) <> "".
Proof.
  intros Hs Hr. destruct (rstrip_part_spaces s) as (b & Hb & Hspaces).
  apply Hs. rewrite Hb. by rewrite (lstrip_append_spaces _ _ Hr).
Qed.

Lemma rstrip_idempotent (s : string) : rstrip (rstrip s) = rstrip s.
Proof.
  induction s as [|c s IH]; [reflexivity|]. rewrite rstrip_String.
  destruct (String.eqb_spec (lstrip (String c s)) "") as [Hall|Hsome]; [reflexivity|].
  rewrite rstrip_String.
  destruct (String.eqb_spec (lstrip (String c (rstrip s))) "") as [Hall|_].
  - exfalso. apply (lstrip_rstrip_nonempty (String c s) Hsome).
    rewrite rstrip_String.
    by destruct (String.eqb_spec (lstrip (String c s)) "") as [?|_].
  - by rewrite IH.
Qed.

(* a byte that continues a whitespace character starts none *)
Lemma isspace2_second (c1 c2 : ascii) (x : string) :
  isspace2 c1 c2 = true -> skip_space (String c2 x) = None.
Proof.
  unfold isspace2. intros [_ [H|H]%orb_true_iff]%andb_true_iff;
    apply Ascii.eqb_eq in H as ->; by destruct x as [|? [|? ?]].
Qed.

Lemma continuation_starts_no_space (c : ascii) (x : string) :
  (128 <=? nat_of_ascii c)%nat && (nat_of_ascii c <=? 191)%nat = true ->
  skip_space (String c x) = None.
Proof.
  intros Hc.
  assert (H1 : isspace c = false)
    by (destruct c as [[] [] [] [] [] [] [] []]; vm_compute in Hc |- *; congruence).
  assert (H2 : forall d, isspace2 c d = false).
  { intros d. unfold isspace2.
    destruct c as [[] [] [] [] [] [] [] []]; vm_compute in Hc |- *; congruence. }
  assert (H3 : forall d e, isspace3 c d e = false).
  { intros d e. unfold isspace3.
    assert (Ascii.eqb c "225" = false /\ Ascii.eqb c "226" = false /\
            Ascii.eqb c "227" = false) as (-> & -> & ->); [|reflexivity].
    destruct c as [[] [] [] [] [] [] [] []]; vm_compute in Hc |- *; repeat split; congruence. }
  destruct x as [|d [|e x]]; cbn [skip_space]; by rewrite ?H1, ?H2, ?H3.
Qed.

Lemma isspace3_continuations (c1 c2 c3 : ascii) :
  isspace3 c1 c2 c3 = true ->
  (128 <=? nat_of_ascii c2)%nat && (nat_of_ascii c2 <=? 191)%nat = true /\
  (128 <=? nat_of_ascii c3)%nat && (nat_of_ascii c3 <=? 191)%nat = true.
Proof.
  unfold isspace3. cbv zeta. intros H.
  repeat rewrite ?orb_true_iff, ?andb_true_iff, ?Ascii.eqb_eq in H.
  repeat match goal with
         | H : _ \/ _ |- _ => destruct H
         | H : _ /\ _ |- _ => destruct H
         end; subst; try (split; reflexivity);
    (split; [reflexivity|]);
    apply andb_true_iff; split; apply Nat.leb_le;
    match goal with
    | H1 : (_ <=? _)%nat = true, H2 : (_ <=? _)%nat = true |- _ =>
        apply Nat.leb_le in H1; apply Nat.leb_le in H2; lia
    end.
Qed.

(* a whitespace character at the start is kept by [rstrip] when something
   other than whitespace follows *)
Lemma rstrip_skip_space (s rest : string) :
  skip_space s = Some rest -> lstrip s <> "" ->
  exists ws, s = (ws ++ rest)%string /\ rstrip s = (ws ++ rstrip rest)%string /\
             forall x, skip_space (ws ++ x) = Some x.
Proof.
  intros Hs Hsome. pose proof Hs as Hcases.
  apply skip_space_Some in Hcases
    as [(c1 & -> & H1)|[(c1 & c2 & -> & H1 & H2)|(c1 & c2 & c3 & -> & H1 & H2 & H3)]].
  - exists (String c1 ""). split; [reflexivity|]. split.
    + rewrite rstrip_String. by destruct (String.eqb_spec (lstrip (String c1 rest)) "").
    + intros x. rewrite ?append_String, ?append_Empty. cbn [skip_space]. by rewrite H1.
  - exists (String c1 (String c2 "")). split; [reflexivity|]. split.
    + rewrite rstrip_String.
      destruct (String.eqb_spec (lstrip (String c1 (String c2 rest))) ""); [done|].
      rewrite rstrip_String, (lstrip_unfold (String c2 rest)),
        (isspace2_second c1 c2 rest H2). reflexivity.
    + intros x. rewrite ?append_String, ?append_Empty. cbn [skip_space]. by rewrite H1, H2.
  - destruct (isspace3_continuations _ _ _ H3) as [Hc2 Hc3].
    exists (String c1 (String c2 (String c3 ""))). split; [reflexivity|]. split.
    + rewrite rstrip_String.
      destruct (String.eqb_spec (lstrip (String c1 (String c2 (String c3 rest)))) "");
        [done|].
      rewrite rstrip_String, (lstrip_unfold (String c2 (String c3 rest))),
        (continuation_starts_no_space c2 _ Hc2).
      rewrite rstrip_String, (lstrip_unfold (String c3 rest)),
        (continuation_starts_no_space c3 _ Hc3). reflexivity.
    + intros x. rewrite ?append_String, ?append_Empty. cbn [skip_space].
      by rewrite H1, H2, H3.
Qed.

(* trailing whitespace plays no part in how a text starts *)
Lemma skip_space_rstrip (s : string) : skip_space s = None -> skip_space (rstrip s) = None.
Proof.
  destruct s as [|c1 s1]; [done|]. intros Hs.
  assert (H1 : isspace c1 = false).
  { cbn in Hs. by destruct (isspace c1). }
  rewrite rstrip_String, lstrip_unfold, Hs. cbn [String.eqb].
  destruct s1 as [|c2 s2]; [cbn; by rewrite H1|].
  assert (H2 : isspace2 c1 c2 = false).
  { cbn in Hs. rewrite H1 in Hs. by destruct (isspace2 c1 c2). }
  rewrite rstrip_String.
  destruct (String.eqb (lstrip (String c2 s2)) ""); [cbn; by rewrite H1|].
  destruct s2 as [|c3 s3]; [cbn; by rewrite H1, H2|].
  assert (H3 : isspace3 c1 c2 c3 = false).
  { cbn in Hs. rewrite H1, H2 in Hs. by destruct (isspace3 c1 c2 c3). }
  rewrite rstrip_String.
  destruct (String.eqb (lstrip (String c3 s3)) ""); cbn; by rewrite H1, H2, ?H3.
Qed.

Lemma lstrip_rstrip (s : string) : lstrip (rstrip s) = rstrip (lstrip s).
Proof.
  induction s as [s IH] using string_length_ind.
  rewrite (lstrip_unfold s). destruct (skip_space s) as [rest|] eqn:Hs.
  - destruct (String.eqb_spec (lstrip s) "") as [Hall|Hsome].
    + assert (Hrest : lstrip rest = "") by (by rewrite lstrip_unfold, Hs in Hall).
      rewrite Hrest. destruct s as [|c s']; [done|].
      rewrite rstrip_String, Hall. reflexivity.
    + destruct (rstrip_skip_space s rest Hs Hsome) as (ws & _ & -> & Hws).
      rewrite lstrip_unfold, Hws. apply IH. by apply skip_space_shorter.
  - by rewrite lstrip_unfold, (skip_space_rstrip s Hs).
Qed.

Lemma strip_idempotent (s : string) : strip (strip s) = strip s.
Proof.
  unfold strip. by rewrite lstrip_rstrip, lstrip_idempotent, rstrip_idempotent.
Qed.

Lemma has_char_lstrip (c : ascii) (s : string) :
  has_char c s = false -> has_char c (lstrip s) = false.
Proof.
  destruct (lstrip_part s) as [a Ha]. rewrite Ha at 1. rewrite has_char_append.
  by intros [_ ?]%orb_false_elim.
Qed.

Lemma has_char_rstrip (c : ascii) (s : string) :
  has_char c s = false -> has_char c (rstrip s) = false.
Proof.
  destruct (rstrip_part s) as [b Hb]. rewrite Hb at 1. rewrite has_char_append.
  by intros [? _]%orb_false_elim.
Qed.

Lemma has_char_strip (c : ascii) (s : string) :
  has_char c s = false -> has_char c (strip s) = false.
Proof. intros H. unfold strip. by apply has_char_rstrip, has_char_lstrip. Qed.

Lemma has_char_until_newline (s : string) : has_char "010" (until_newline s) = false.
Proof.
  induction s as [|c s IH]; [reflexivity|]. cbn [until_newline].
  destruct (Ascii.eqb c "010") eqn:Hc; [reflexivity|].
  rewrite has_char_String, IH, Ascii.eqb_sym, Hc. reflexivity.
Qed.

Lemma until_newline_all (s : string) :
  has_char "010" s = false -> until_newline s = s.
Proof.
  induction s as [|c s IH]; [reflexivity|].
  rewrite has_char_String. intros [Hc Hs]%orb_false_elim.
  cbn [until_newline]. rewrite Ascii.eqb_sym, Hc. by rewrite (IH Hs).
Qed.

(* whitespace holds no ASCII character that is not whitespace *)
Lemma spaces_have_no_solid (c : ascii) (s : string) :
  isspace c = false -> (nat_of_ascii c <? 128)%nat = true ->
  lstrip s = "" -> has_char c s = false.
Proof.
  intros Hc Hascii. induction s as [s IH] using string_length_ind.
  rewrite (lstrip_unfold s). destruct (skip_space s) as [rest|] eqn:Hs; [|by intros ->].
  intros Hrest. specialize (IH rest (skip_space_shorter _ _ Hs) Hrest).
  assert (Hhigh : forall d, (128 <=? nat_of_ascii d)%nat && (nat_of_ascii d <=? 191)%nat = true
                            -> Ascii.eqb c d = false).
  { intros d Hd. apply Ascii.eqb_neq. intros <-.
    apply andb_true_iff in Hd as [Hd _]. apply Nat.leb_le in Hd.
    apply Nat.ltb_lt in Hascii. lia. }
  assert (Hne : forall d, isspace d = true -> Ascii.eqb c d = false).
  { intros d Hd. apply Ascii.eqb_neq. intros <-. congruence. }
  apply skip_space_Some in Hs
    as [(c1 & -> & H1)|[(c1 & c2 & -> & H1 & H2)|(c1 & c2 & c3 & -> & H1 & H2 & H3)]];
    rewrite !has_char_String, IH, ?orb_false_r.
  - by apply Hne.
  - unfold isspace2 in H2. apply andb_true_iff in H2 as [H2 H2'].
    apply Ascii.eqb_eq in H2 as ->.
    assert (Ascii.eqb c "194" = false) as ->.
    { apply Ascii.eqb_neq. intros ->. discriminate. }
    apply orb_true_iff in H2' as [H2'|H2']; apply Ascii.eqb_eq in H2' as ->;
      apply Ascii.eqb_neq; intros ->; discriminate.
  - destruct (isspace3_continuations _ _ _ H3) as [Hc2 Hc3].
    rewrite (Hhigh c2 Hc2), (Hhigh c3 Hc3), !orb_false_r.
    unfold isspace3 in H3. cbv zeta in H3.
    apply Ascii.eqb_neq. intros <-.
    assert (Ascii.eqb c "225" = false /\ Ascii.eqb c "226" = false /\
            Ascii.eqb c "227" = false) as (E1 & E2 & E3).
    { repeat split; apply Ascii.eqb_neq; intros ->; discriminate. }
    rewrite E1, E2, E3 in H3. discriminate.
Qed.

(* an ASCII character that is not whitespace guards what is before it *)
Lemma rstrip_append_solid (p : string) (c : ascii) (s : string) :
  isspace c = false -> (nat_of_ascii c <? 128)%nat = true ->
  rstrip (p ++ String c s) = (p ++ rstrip (String c s))%string.
Proof.
  intros Hc Hascii. induction p as [|d p IH]; [reflexivity|].
  rewrite append_String, rstrip_String, IH.
  destruct (String.eqb_spec (lstrip (String d (p ++ String c s))) "") as [Hall|_];
    [|reflexivity].
  apply (spaces_have_no_solid c _ Hc Hascii) in Hall.
  rewrite has_char_String, has_char_append, has_char_String, Ascii.eqb_refl in Hall.
  by rewrite !orb_true_r in Hall.
Qed.

Lemma rstrip_solid (c : ascii) (s : string) :
  isspace c = false -> (nat_of_ascii c <? 128)%nat = true ->
  rstrip (String c s) = String c (rstrip s).
Proof.
  intros Hc Hascii. rewrite rstrip_String.
  destruct (String.eqb_spec (lstrip (String c s)) "") as [Hall|_]; [|reflexivity].
  apply (spaces_have_no_solid c _ Hc Hascii) in Hall.
  by rewrite has_char_String, Ascii.eqb_refl in Hall.
Qed.

(** ** Reading a reasoning model's text *)

Lemma search_think_Some (text before inner after : string) :
  search_think text = Some (before, inner, after) ->
  text = (before ++ "<think>" ++ inner ++ "</think>" ++ after)%string.
Proof.
  unfold search_think.
  destruct (find_split "<think>" text) as [[b rest]|] eqn:H1; [|discriminate].
  destruct (find_split "</think>" rest) as [[i a]|] eqn:H2; [|discriminate].
  intros H. injection H as <- <- <-.
  apply find_split_Some in H1 as ->. by apply find_split_Some in H2 as ->.
Qed.

Lemma search_think_no_tag (text : string) :
  has_char "<" text = false -> search_think text = None.
Proof. intros H. unfold search_think. by rewrite (find_split_no_char _ _ _ H). Qed.

Lemma sub_think_rounds_no_tag (n : nat) (text : string) :
  has_char "<" text = false -> sub_think_rounds n text = text.
Proof. intros H. destruct n; [reflexivity|]. cbn. by rewrite (search_think_no_tag _ H). Qed.

(* removing the think blocks adds no character *)
Lemma has_char_sub_think_rounds (c : ascii) (n : nat) (text : string) :
  has_char c text = false -> has_char c (sub_think_rounds n text) = false.
Proof.
  revert text. induction n as [|n IH]; intros text Hc; [exact Hc|].
  cbn [sub_think_rounds].
  destruct (search_think text) as [[[before inner] after]|] eqn:Hs; [|exact Hc].
  apply search_think_Some in Hs. rewrite Hs in Hc.
  rewrite !has_char_append in Hc. rewrite has_char_append.
  apply orb_false_elim in Hc as [Hb Hc]. apply orb_false_elim in Hc as [_ Hc].
  apply orb_false_elim in Hc as [_ Hc]. apply orb_false_elim in Hc as [_ Hc].
  by rewrite Hb, (IH _ Hc).
Qed.

Lemma ascii_lower_asterisk (d : ascii) : ascii_lower d = "*"%char -> d = "*"%char.
Proof. destruct d as [[] [] [] [] [] [] [] []]; vm_compute; congruence. Qed.

Lemma match_irrelevant_at_no_asterisk (s : string) :
  has_char "*" s = false -> match_irrelevant_at s = None.
Proof.
  destruct s as [|d s]; [reflexivity|].
  rewrite has_char_String. intros [Hd _]%orb_false_elim. apply Ascii.eqb_neq in Hd.
  unfold match_irrelevant_at. cbn [match_ignorecase match_char_ignorecase].
  destruct (Ascii.eqb_spec (ascii_lower d) "*") as [Heq|_].
  { by apply ascii_lower_asterisk in Heq. }
  by destruct s.
Qed.

Lemma search_irrelevant_no_asterisk (s : string) :
  has_char "*" s = false -> search_irrelevant s = None.
Proof.
  induction s as [|d s IH]; [reflexivity|]. intros H.
  cbn [search_irrelevant]. rewrite (match_irrelevant_at_no_asterisk _ H).
  rewrite has_char_String in H. apply orb_false_elim in H as [_ H]. by apply IH.
Qed.

Lemma find_split_here (pat after : string) :
  find_split pat (pat ++ after) = Some ("", after).
Proof.
  pose proof (prefix_append pat after) as Hp.
  destruct (pat ++ after)%string as [|x rest] eqn:Heq; cbn [find_split]; rewrite Hp;
    rewrite <- Heq; by rewrite str_drop_append.
Qed.

Lemma find_split_skip (pat : string) (c : ascii) (a s : string) :
  String.prefix pat (String c (a ++ s)) = false ->
  find_split pat (String c a ++ s)
  = match find_split pat (a ++ s) with
    | Some (before, after) => Some (String c before, after)
    | None => None
    end.
Proof. intros H. rewrite append_String. cbn [find_split]. by rewrite H. Qed.

(* the answer marker is found after the line of the flag *)
Lemma search_answer_second_line (irrelevant : bool) (t : string) :
  search_answer ("**isIrrelevant:** " ++ spelling irrelevant ++ newline
                 ++ "**Answer:**" ++ t)
  = Some (until_newline (lstrip t)).
Proof.
  unfold search_answer, newline.
  destruct irrelevant; unfold spelling;
    repeat first [ rewrite find_split_skip by reflexivity | rewrite append_Empty ];
    by rewrite find_split_here.
Qed.

Lemma search_irrelevant_first_line (irrelevant : bool) (t : string) :
  search_irrelevant ("**isIrrelevant:** " ++ spelling irrelevant ++ newline
                     ++ "**Answer:**" ++ t)
  = Some (spelling irrelevant).
Proof. by destruct irrelevant. Qed.

(** X12.  What the reader returns is trimmed: neither the content nor the
    reasoning starts or ends with whitespace, and the content holds no line
    feed. *)
Theorem extracted_fields_are_trimmed (text : string) :
  exists content reasoning is_irrelevant,
    _extract_think_content text = (content, reasoning, is_irrelevant) /\
    strip content = content /\
    strip reasoning = reasoning /\
    has_char "010" content = false.
Proof.
  unfold _extract_think_content. cbv zeta. do 3 eexists. split; [reflexivity|].
  split; [|split].
  - destruct (search_answer _); [apply strip_idempotent | reflexivity].
  - destruct (search_think text) as [[[? ?] ?]|]; [apply strip_idempotent | reflexivity].
  - unfold search_answer. destruct (find_split _ _) as [[? rest]|]; [|reflexivity].
    apply has_char_strip, has_char_until_newline.
Qed.

(** X13.  A text without an asterisk carries neither marker: it is read as
    irrelevant, with empty content; without an angle bracket it has no
    reasoning either. *)
Theorem unmarked_text_reads_as_irrelevant (text : string) :
  has_char "*" text = false ->
  exists reasoning,
    _extract_think_content text = ("", reasoning, true) /\
    (has_char "<" text = false -> reasoning = "").
Proof.
  intros Hstar.
  assert (Hrem : has_char "*" (strip (sub_think text)) = false)
    by (by apply has_char_strip, has_char_sub_think_rounds).
  unfold _extract_think_content. cbv zeta. eexists. split.
  - rewrite (search_irrelevant_no_asterisk _ Hrem). unfold search_answer.
    rewrite (find_split_no_char _ _ _ Hrem). reflexivity.
  - intros Htag. by rewrite (search_think_no_tag _ Htag).
Qed.

(** X14.  Round trip: a text in the format the reader expects, whose
    reasoning and answer hold no angle bracket and whose answer is one line,
    is read back as its answer and its reasoning, both trimmed, and its
    flag. *)
Theorem formatted_answer_is_read_back (reasoning answer : string) (irrelevant : bool) :
  has_char "<" reasoning = false ->
  has_char "<" answer = false ->
  has_char "010" answer = false ->
  _extract_think_content (formatted_answer reasoning irrelevant answer)
  = (strip answer, strip reasoning, irrelevant).
Proof.
  intros Hr Ha Hline.
  set (tail := (newline ++ "**isIrrelevant:** " ++ spelling irrelevant ++ newline
                ++ "**Answer:** " ++ answer)%string).
  assert (Htail : has_char "<" tail = false).
  { unfold tail. rewrite !has_char_append, Ha. by destruct irrelevant. }
  assert (Hthink : search_think (formatted_answer reasoning irrelevant answer)
                   = Some ("", reasoning, tail)).
  { unfold search_think, formatted_answer.
    rewrite (find_split_here "<think>").
    by rewrite (find_split_first "<" "/think>" reasoning _ Hr). }
  assert (Hsub : sub_think (formatted_answer reasoning irrelevant answer) = tail).
  { unfold sub_think.
    change (String.length (formatted_answer reasoning irrelevant answer))
      with (S (String.length (str_drop 1 (formatted_answer reasoning irrelevant answer)))).
    cbn [sub_think_rounds]. rewrite Hthink, append_Empty.
    by apply sub_think_rounds_no_tag. }
  set (t := rstrip (String " " answer)).
  assert (Ht : strip (until_newline (lstrip t)) = strip answer).
  { unfold t. rewrite lstrip_rstrip. change (lstrip (String " " answer)) with (lstrip answer).
    change (rstrip (lstrip answer)) with (strip answer).
    rewrite until_newline_all by (by apply has_char_strip).
    apply strip_idempotent. }
  unfold _extract_think_content. cbv zeta. rewrite Hthink, Hsub.
  assert (Hrem : strip tail
                 = ("**isIrrelevant:** " ++ spelling irrelevant ++ newline
                    ++ "**Answer:**" ++ t)%string).
  { unfold strip, tail.
    change (lstrip (newline ++ ?s)) with (lstrip s).
    destruct irrelevant.
    - change (lstrip ("**isIrrelevant:** " ++ spelling true ++ newline
                      ++ "**Answer:** " ++ answer))
        with (("**isIrrelevant:** true" ++ newline ++ "**Answer:*")
              ++ String "*" (String " " answer))%string.
      rewrite rstrip_append_solid by reflexivity.
      by rewrite rstrip_solid by reflexivity.
    - change (lstrip ("**isIrrelevant:** " ++ spelling false ++ newline
                      ++ "**Answer:** " ++ answer))
        with (("**isIrrelevant:** false" ++ newline ++ "**Answer:*")
              ++ String "*" (String " " answer))%string.
      rewrite rstrip_append_solid by reflexivity.
      by rewrite rstrip_solid by reflexivity. }
  rewrite Hrem, search_irrelevant_first_line, search_answer_second_line, Ht.
  by destruct irrelevant.
Qed.

(** ** The memory as an object *)

Lemma call_object_value (self : MemoryObject.t) (c : memory_call) :
  MemoryObject.value (call_object self c) = call_value (MemoryObject.value self) c.
Proof.
  destruct c as [message|]; unfold MemoryObject.value, MemoryObject.read; cbn.
  - by rewrite lookup_insert_eq.
  - by rewrite lookup_insert_eq.
Qed.

(* the attribute [history] always refers to a list of the store *)
Lemma history_allocated (calls : list memory_call) :
  is_Some (MemoryObject.lists (foldl call_object MemoryObject.new calls)
           !! MemoryObject.history (foldl call_object MemoryObject.new calls)).
Proof.
  induction calls as [|c calls IH] using rev_ind; [by eexists|].
  rewrite foldl_app. cbn [foldl]. destruct c; cbn; rewrite lookup_insert_eq; by eexists.
Qed.

Lemma add_messages_read (self : MemoryObject.t) (messages : list Message.t) :
  MemoryObject.history (foldl MemoryObject.add_message self messages)
  = MemoryObject.history self /\
  MemoryObject.read (foldl MemoryObject.add_message self messages)
    (MemoryObject.history self)
  = MemoryObject.read self (MemoryObject.history self) ++ messages /\
  (forall address, address <> MemoryObject.history self ->
     MemoryObject.read (foldl MemoryObject.add_message self messages) address
     = MemoryObject.read self address).
Proof.
  revert self. induction messages as [|m messages IH]; intros self.
  - cbn. by rewrite app_nil_r.
  - cbn [foldl]. destruct (IH (MemoryObject.add_message self m)) as (Hh & Hr & Ho).
    cbn [MemoryObject.add_message MemoryObject.history] in *.
    split; [exact Hh|]. split.
    + rewrite Hr. unfold MemoryObject.read at 1. cbn.
      rewrite lookup_insert_eq. cbn. by rewrite <- app_assoc.
    + intros address Hne. rewrite (Ho address Hne). unfold MemoryObject.read. cbn.
      by rewrite lookup_insert_ne.
Qed.

(** X15.  The value model of the memory is the object model seen through
    the attribute [history]: after any calls of [add_message] and [clear],
    the list the attribute refers to holds the history of the value model
    after the same calls. *)
Theorem memory_value_follows_the_object (self : MemoryObject.t)
    (calls : list memory_call) :
  MemoryObject.value (foldl call_object self calls)
  = foldl call_value (MemoryObject.value self) calls.
Proof.
  revert self. induction calls as [|c calls IH]; intros self; [reflexivity|].
  cbn [foldl]. by rewrite IH, call_object_value.
Qed.

(** X16.  The list [get_history] hands out is the live one: messages added
    afterwards show in it.  [clear] does not empty it: it detaches it, so
    that it keeps its messages and no longer follows the memory, whose
    history then holds only what is added after the [clear]. *)
Theorem handed_out_history_is_live_until_clear (calls : list memory_call)
    (added later : list Message.t) :
  let self := foldl call_object MemoryObject.new calls in
  let handed_out := MemoryObject.get_history self in
  let after_adding := foldl MemoryObject.add_message self added in
  let after_clear :=
    foldl MemoryObject.add_message (MemoryObject.clear after_adding) later in
  MemoryObject.read after_adding handed_out
  = MemoryObject.read self handed_out ++ added /\
  MemoryObject.read after_clear handed_out
  = MemoryObject.read self handed_out ++ added /\
  MemoryObject.read after_clear (MemoryObject.get_history after_clear) = later.
Proof.
  intros self handed_out after_adding after_clear.
  subst handed_out. unfold MemoryObject.get_history.
  destruct (add_messages_read self added) as (Hh & Hr & _).
  fold after_adding in Hh, Hr.
  destruct (add_messages_read (MemoryObject.clear after_adding) later)
    as (Hh' & Hr' & Ho').
  fold after_clear in Hh', Hr', Ho'.
  assert (Hfresh : MemoryObject.history (MemoryObject.clear after_adding)
                   <> MemoryObject.history self).
  { rewrite <- Hh. cbn.
    intros Heq. pose proof (is_fresh (dom (MemoryObject.lists after_adding))) as Hnot.
    apply Hnot. rewrite Heq. apply elem_of_dom.
    unfold after_adding, self.
    replace (foldl MemoryObject.add_message
               (foldl call_object MemoryObject.new calls) added)
      with (foldl call_object MemoryObject.new (calls ++ map AddMessage added)).
    - apply history_allocated.
    - rewrite foldl_app. generalize (foldl call_object MemoryObject.new calls).
      clear. induction added as [|m added IH]; intros s; [reflexivity|]. cbn. apply IH. }
  split; [exact Hr|]. split.
  - rewrite Ho' by (intros Heq; apply Hfresh; by rewrite Heq).
    rewrite <- Hr. unfold MemoryObject.read. cbn.
    rewrite lookup_insert_ne; [reflexivity|exact Hfresh].
  - rewrite Hh', Hr'.
    unfold MemoryObject.read. cbn. by rewrite lookup_insert_eq.
Qed.

(** ** The chat programs *)

Section ChatFacts.

Variable re_match : string -> string -> result bool.
Variable json_loads : string -> result pyval.
Variable repr_metadata : option (gmap string scalar) -> result string.
Variable acompletion : nat -> Request.t -> result response.
Variable raises_first : nat -> nat.
Variable repr_results : list QueryResult.t -> string.
Variable REAG_SYSTEM_PROMPT : string.

(** X17.  None of the three chat programs gets to its prompt: each passes
    [ReagClient] a keyword that [__init__] does not take, so [main] ends
    with TypeError before anything is written, read or requested. *)
Theorem chat_programs_fail_at_construction (lines : list string) :
  groq_main re_match json_loads repr_metadata acompletion raises_first repr_results
    REAG_SYSTEM_PROMPT lines
  = ([], mk_console lines [], Failed TypeError) /\
  openrouter_main re_match json_loads repr_metadata acompletion raises_first repr_results
    REAG_SYSTEM_PROMPT lines
  = ([], mk_console lines [], Failed TypeError) /\
  huggingface_main re_match json_loads repr_metadata acompletion raises_first repr_results
    REAG_SYSTEM_PROMPT lines
  = ([], mk_console lines [], Failed TypeError).
Proof. repeat split. Qed.


(** X18.  However a chat session ends, it has only appended: to the log, to
    the memory and to the console.  It has read the lines up to the first
    exit command, the first failed query or the end of the input, and has
    issued at most one request per document for each line read; a session
    ends on an exception only with a wrapped failure of a query. *)
Theorem chat_session_only_appends (client : ReagClient.t)
    (documents : list Document.t) (lines out : list string) (w : world) :
  exists w' c ending read,
    chat_loop re_match json_loads repr_metadata acompletion raises_first repr_results
      client documents lines out w = (w', c, ending) /\
    lines = read ++ unread c /\
    issued w `prefix_of` issued w' /\
    Memory.get_history (memory w) `prefix_of` Memory.get_history (memory w') /\
    out `prefix_of` written c /\
    (length (issued w') <= length (issued w) + length read * length documents)%nat /\
    match ending with
    | Exited =>
        exists before line,
          read = before ++ [line] /\ is_exit_command line = true /\
          Forall (fun l => is_exit_command l = false) before
    | EndOfInput => unread c = [] /\ Forall (fun l => is_exit_command l = false) read
    | Failed e =>
        exists cause, e = QueryFailed cause /\
                      Forall (fun l => is_exit_command l = false) read
    end.
Proof.
  revert out w. induction lines as [|line lines IH]; intros out w.
  - exists w, (mk_console [] (out ++ ["You: "])), EndOfInput, [].
    cbn. split; [done|]. split; [done|]. split; [done|]. split; [done|].
    split; [by eexists|]. split; [lia|]. by split.
  - cbn [chat_loop]. destruct (is_exit_command line) eqn:Hexit.
    + exists w, (mk_console lines ((out ++ ["You: "]) ++ ["Exiting chat. Goodbye!"])),
        Exited, [line].
      cbn. split; [done|]. split; [done|]. split; [done|]. split; [done|].
      split; [rewrite <- app_assoc; by eexists|]. split; [lia|].
      exists [], line. by split.
    + destruct (_batch_query re_match json_loads repr_metadata acompletion raises_first client line
                  documents None w) as [w1 r1] eqn:Hquery.
      pose proof Hquery as Hany.
      apply batch_query_any in Hany as (requests & cs & Hi & Hh & _ & Hn & _).
      destruct r1 as [response|e].
      * destruct (IH ((out ++ ["You: "]) ++ [("AI: " ++ repr_results response)%string]) w1)
          as (w' & c & ending & read & Hrun & Hlines & Hlog & Hmem & Hout & Hcount & Hend).
        exists w', c, ending, (line :: read). rewrite Hrun.
        split; [done|]. split; [cbn; by rewrite Hlines|].
        split; [etrans; [|exact Hlog]; rewrite Hi; by eexists|].
        split; [etrans; [|exact Hmem]; rewrite Hh; by eexists|].
        split; [etrans; [|exact Hout]; rewrite <- app_assoc; by eexists|].
        split.
        { rewrite Hi, length_app in Hcount. cbn [length]. lia. }
        destruct ending as [| |e].
        -- destruct Hend as (before & l & -> & Hl & Hbefore).
           exists (line :: before), l. split; [done|]. split; [done|].
           by constructor.
        -- destruct Hend as [Hnil Hread]. split; [done|]. by constructor.
        -- destruct Hend as (cause & -> & Hread). exists cause. split; [done|].
           by constructor.
      * exists w1, (mk_console lines (out ++ ["You: "])), (Failed e), [line].
        cbn. split; [done|]. split; [done|].
        split; [rewrite Hi; by eexists|]. split; [rewrite Hh; by eexists|].
        split; [by eexists|]. split; [rewrite Hi, length_app; lia|].
        unfold _batch_query, except_Exception_reraise in Hquery.
        destruct (bindM _ _ w) as [w2 [?|cause]]; [discriminate|].
        injection Hquery as _ <-. exists cause. split; [done|]. by repeat constructor.
Qed.

End ChatFacts.

(** ** The query as a whole *)

Section QueryInvariants.

Variable re_match : string -> string -> result bool.
Variable json_loads : string -> result pyval.
Variable repr_metadata : option (gmap string scalar) -> result string.
Variable acompletion : nat -> Request.t -> result response.
Variable raises_first : nat -> nat.

Implicit Types (self : ReagClient.t) (prompt : string) (w : world).

(** X19.  Whatever a non-streaming query does, it returns or it raises, it
    only appends: requests to the log, at most one per document, and whole
    turns of its prompt to the memory, at most one per request.  Every
    request it issues is the one of a document of the list, built on a
    history that contains all the memory held when the query started. *)
Theorem query_only_appends self prompt documents opts w :
  exists requests cs,
    issued (fst (_batch_query re_match json_loads repr_metadata acompletion raises_first
                   self prompt documents opts w))
    = issued w ++ requests /\
    Memory.get_history
      (memory (fst (_batch_query re_match json_loads repr_metadata acompletion raises_first
                      self prompt documents opts w)))
    = Memory.get_history (memory w) ++ flat_map (turn prompt) cs /\
    (length cs <= length requests)%nat /\
    (length requests <= length documents)%nat /\
    Forall (carries_history repr_metadata self prompt documents
              (Memory.get_history (memory w))
              (Memory.get_history
                 (memory (fst (_batch_query re_match json_loads repr_metadata
                                 acompletion raises_first self prompt documents opts w)))))
      requests.
Proof.
  destruct (_batch_query re_match json_loads repr_metadata acompletion raises_first self prompt
              documents opts w) as [w' r] eqn:Hrun.
  exact (batch_query_any re_match json_loads repr_metadata acompletion raises_first
           self prompt documents opts w w' r Hrun).
Qed.


(** X21.  A batch size that is not positive: zero fails the query, with
    ValueError wrapped, and a negative one makes the query return the empty
    list; either way nothing is requested and the memory is untouched,
    whatever the documents are. *)
Theorem nonpositive_batch_size_asks_nothing self prompt documents opts
    filters filtered w :
  (ReagClient.batch_size self <= 0)%Z ->
  convert_filters opts = Return filters ->
  _filter_documents_by_metadata re_match documents filters = Return filtered ->
  _batch_query re_match json_loads repr_metadata acompletion raises_first self prompt documents opts w
  = (w, if (ReagClient.batch_size self =? 0)%Z
        then Raise (QueryFailed ValueError) else Return []).
Proof.
  intros Hsize Hconv Hfilter.
  unfold _batch_query, except_Exception_reraise. cbv [bindM lift].
  rewrite Hconv, Hfilter.
  destruct (Z.eqb_spec (ReagClient.batch_size self) 0) as [->|Hne].
  - by rewrite batches_of_zero.
  - by rewrite batches_of_negative by lia.
Qed.

End QueryInvariants.

(** ** The exceptions of one response *)

Section ResponseFailures.

Variable json_loads : string -> result pyval.

Implicit Types (self : ReagClient.t) (prompt : string) (w : world)
  (results : list QueryResult.t).

(** X22.  Processing one response raises only in these ways: with what
    [json.loads] raises for the body, when that is not JSONDecodeError, the
    memory being as it was; or with IndexError (no choice), TypeError (a
    content that is no text on the reasoning-model path, or parsed data that
    is no dict), KeyError (no [source]), AttributeError (a [source] that is
    no dict) or ValidationError (a rejected record), the memory being as it
    was before every one of them but ValidationError, which is raised on the
    JSON path only. *)
Theorem response_exceptions_are_accounted_for self prompt results d resp w w' e :
  process_response json_loads self prompt results (d, resp) w = (w', Raise e) ->
  (exists body rest,
     choices resp = PStr body :: rest /\
     startswith (ReagClient.model self) "ollama/" = false /\
     json_loads body = Raise e /\ e <> JSONDecodeError /\ w' = w) \/
  (e ∈ [IndexError; TypeError; KeyError; AttributeError; ValidationError] /\
   (e = IndexError -> choices resp = []) /\
   (w' = w \/
    (e = ValidationError /\ startswith (ReagClient.model self) "ollama/" = false))).
Proof.
  unfold process_response. cbv [bindM lift except_JSONDecodeError ret add_message].
  unfold message_content_of.
  destruct (choices resp) as [|mc cs] eqn:Hchoices.
  { intros H. injection H as <- <-. right. split; [set_solver|]. split; [done|by left]. }
  destruct (startswith (ReagClient.model self) "ollama/") eqn:Hmodel.
  - destruct mc as [| | | |text| |]; cbn [expect_str];
      try (intros H; injection H as <- <-; right; split; [set_solver|];
           split; [discriminate | by left]).
    destruct (_extract_think_content text) as [[content reasoning] irr].
    cbn. discriminate.
  - destruct (parse_message_content json_loads mc) as [data|e0] eqn:Hparse.
    + destruct data as [| | | | | |top]; cbn [subscript];
        try (intros H; injection H as <- <-; right; split; [set_solver|];
             split; [discriminate | by left]).
      destruct (dict_get top "source") as [source|];
        [|intros H; injection H as <- <-; right; split; [set_solver|];
          split; [discriminate | by left]].
      destruct source as [| | | | | |members]; cbn [method_get];
        try (intros H; injection H as <- <-; right; split; [set_solver|];
             split; [discriminate | by left]).
      destruct (truthy _); [discriminate|]. cbn [memory issued].
      destruct (QueryResult.new _ _ _ d) as [qr|e0] eqn:Hnew; [discriminate|].
      apply QueryResult_new_Raise in Hnew as ->.
      intros H. injection H as <- <-. right. split; [set_solver|]. split; [discriminate|].
      by right.
    + unfold parse_message_content in Hparse.
      destruct mc as [| | | |body| |]; try discriminate.
      intros H. left. exists body, cs. split; [done|]. split; [done|].
      destruct e0; try discriminate; injection H as <- <-;
        (split; [exact Hparse|]; split; [discriminate|reflexivity]).
Qed.

End ResponseFailures.

(** ** Witnesses *)

Lemma backend_failure_fails_the_query_witness :
  exists requests,
    task_requests sample_repr_metadata default_client "What is Superagent?"
      (Memory.get_history (memory fresh_world))
      (take (Z.to_nat (ReagClient.batch_size default_client)) [superagent_doc; recipe_doc])
    = Return requests /\
    length requests = 2%nat /\
    _batch_query literal_re_match sample_json_loads sample_repr_metadata
      (scripted_backend [relevant_body]) in_task_order default_client "What is Superagent?"
      [superagent_doc; recipe_doc] None fresh_world
    = (mk_world (memory fresh_world) (issued fresh_world ++ requests),
       Raise (QueryFailed (BackendError "no more bodies"))).
Proof.
  eexists. split; [vm_compute; reflexivity|]. split; [reflexivity|].
  eapply (backend_failure_fails_the_query literal_re_match sample_json_loads
            sample_repr_metadata (scripted_backend [relevant_body]) in_task_order
            default_client "What is Superagent?" [superagent_doc; recipe_doc] None None
            [superagent_doc; recipe_doc] _ fresh_world 1%nat _
            (BackendError "no more bodies")).
  - vm_compute. reflexivity.
  - reflexivity.
  - reflexivity.
  - vm_compute. reflexivity.
  - reflexivity.
  - reflexivity.
  - intros [|[|j]] request' Hj Hrequest'; [eexists; reflexivity | lia | discriminate].
Defined.

Lemma filter_dicts_are_constructed_first_witness :
  _batch_query literal_re_match sample_json_loads sample_repr_metadata
    (constant_backend relevant_body) in_task_order default_client "What is Superagent?"
    [versioned_doc 1 "sa-1"]
    (Some (FilterList [FilterInstance id_is_sa1; FilterDict (Raise TypeError);
                       FilterDict (Raise ValidationError)])) fresh_world
  = (fresh_world, Raise (QueryFailed TypeError)) /\
  _streaming_query literal_re_match sample_repr_metadata superagent_stream
    default_client "What is Superagent?" [versioned_doc 1 "sa-1"]
    (Some (FilterList [FilterInstance id_is_sa1; FilterDict (Raise TypeError);
                       FilterDict (Raise ValidationError)])) fresh_world
  = (fresh_world, ([], Raise TypeError)).
Proof.
  apply (proj2 (filter_dicts_are_constructed_first literal_re_match sample_json_loads
                  sample_repr_metadata (constant_backend relevant_body) in_task_order
                  superagent_stream default_client "What is Superagent?"
                  [versioned_doc 1 "sa-1"]
                  [FilterInstance id_is_sa1; FilterDict (Raise TypeError);
                   FilterDict (Raise ValidationError)] fresh_world) 1%nat TypeError).
  - reflexivity.
  - intros [|j] constructed Hj Hraw; [discriminate | lia].
Defined.

Lemma rejected_record_stays_in_memory_witness :
  process_response
    (fun _ => Return (PDict [("source", PDict [("content", PInt 5);
                                             ("is_irrelevant", PBool false)])]))
    default_client "What is Superagent?" []
    (superagent_doc, mk_response [PStr "{...}"]) fresh_world
  = (mk_world
       (Memory.mk (Memory.get_history (memory fresh_world)
                   ++ turn "What is Superagent?" (PInt 5)))
       (issued fresh_world),
     Raise ValidationError).
Proof.
  apply (rejected_record_stays_in_memory
           (fun _ => Return (PDict [("source", PDict [("content", PInt 5);
                                                    ("is_irrelevant", PBool false)])]))
           default_client "What is Superagent?" []
           superagent_doc (mk_response [PStr "{...}"]) (PStr "{...}")
           [("source", PDict [("content", PInt 5); ("is_irrelevant", PBool false)])]
           [("content", PInt 5); ("is_irrelevant", PBool false)]
           fresh_world ValidationError); reflexivity.
Defined.

Lemma batch_count_is_rounded_up_witness :
  exists batches,
    batches_of [superagent_doc; recipe_doc; versioned_doc 1 "sa-1"] 2 = Return batches /\
    Z.of_nat (length batches) = ((Z.of_nat 3 + 2 - 1) / 2)%Z /\
    ([superagent_doc; recipe_doc; versioned_doc 1 "sa-1"] = [] -> batches = []) /\
    ([superagent_doc; recipe_doc; versioned_doc 1 "sa-1"] <> [] ->
     (Z.of_nat 3 <= 2)%Z -> batches = [[superagent_doc; recipe_doc; versioned_doc 1 "sa-1"]]).
Proof.
  apply (batch_count_is_rounded_up [superagent_doc; recipe_doc; versioned_doc 1 "sa-1"] 2).
  lia.
Defined.

Lemma filtering_twice_changes_nothing_witness :
  _filter_documents_by_metadata literal_re_match [versioned_doc 2 "sa-2"]
    (Some [version_at_least_2])
  = Return [versioned_doc 2 "sa-2"].
Proof.
  apply (filtering_twice_changes_nothing literal_re_match
           [versioned_doc 1 "sa-1"; versioned_doc 2 "sa-2"; recipe_doc]).
  vm_compute. reflexivity.
Defined.

Lemma first_failing_filter_settles_witness :
  passes_filter literal_re_match (versioned_doc 1 "sa-1") version_above_text
  = Raise TypeError /\
  all_pass literal_re_match (versioned_doc 1 "sa-1")
    ([id_is_sa1] ++ version_at_least_2 :: [version_above_text])
  = Return false.
Proof.
  split; [vm_compute; reflexivity|].
  apply (first_failing_filter_settles literal_re_match (versioned_doc 1 "sa-1")
           [id_is_sa1] version_at_least_2 [version_above_text]).
  - constructor; [vm_compute; reflexivity | constructor].
  - vm_compute. reflexivity.
Defined.

Lemma filter_raises_only_on_mismatch_witness :
  exists md val,
    Document.metadata (versioned_doc 1 "sa-1") = Some md /\
    md !! MetadataFilter.key version_above_text = Some val /\
    effective_operator version_above_text <> "equals" /\
    effective_operator version_above_text <> "notEquals" /\
    ((TypeError = TypeError /\
      same_type val (MetadataFilter.value version_above_text) = false) \/
     (exists s p, val = VStr s /\ MetadataFilter.value version_above_text = VStr p /\
                  effective_operator version_above_text = "regex" /\
                  literal_re_match p s = Raise TypeError)).
Proof.
  apply (filter_raises_only_on_mismatch literal_re_match (versioned_doc 1 "sa-1")
           version_above_text TypeError).
  vm_compute. reflexivity.
Defined.

Lemma broken_stream_leaves_memory_alone_witness :
  exists messages,
    build_messages sample_repr_metadata default_client "What is Superagent?"
      (Memory.get_history (memory fresh_world)) superagent_doc = Return messages /\
    _streaming_query literal_re_match sample_repr_metadata
      (fun _ _ => Return [mk_chunk [Some "Super"]; mk_chunk []; mk_chunk [Some "agent"]])
      default_client "What is Superagent?" [superagent_doc] None fresh_world
    = (mk_world (memory fresh_world)
         (issued fresh_world
          ++ [Request.mk (ReagClient.model default_client) messages true]),
       (map (fun c => StreamingQueryResult.new (chunk_text c)) [mk_chunk [Some "Super"]],
        Raise IndexError)).
Proof.
  eexists. split; [vm_compute; reflexivity|].
  eapply (broken_stream_leaves_memory_alone literal_re_match sample_repr_metadata
            (fun _ _ => Return [mk_chunk [Some "Super"]; mk_chunk [];
                                mk_chunk [Some "agent"]])
            default_client "What is Superagent?" [superagent_doc] None None
            superagent_doc [] _ [mk_chunk [Some "Super"]] (mk_chunk [])
            [mk_chunk [Some "agent"]] fresh_world).
  - reflexivity.
  - reflexivity.
  - vm_compute. reflexivity.
  - reflexivity.
  - constructor; [discriminate | constructor].
  - reflexivity.
Defined.

Lemma unmarked_text_reads_as_irrelevant_witness :
  exists reasoning,
    _extract_think_content "some words" = ("", reasoning, true) /\
    (has_char "<" "some words" = false -> reasoning = "").
Proof. apply (unmarked_text_reads_as_irrelevant "some words"). reflexivity. Defined.

Lemma formatted_answer_is_read_back_witness :
  _extract_think_content
    (formatted_answer " The document describes Superagent. " false
       "It is a workspace. ")
  = (strip "It is a workspace. ", strip " The document describes Superagent. ", false).
Proof.
  apply (formatted_answer_is_read_back " The document describes Superagent. "
           "It is a workspace. " false); reflexivity.
Defined.


Lemma nonpositive_batch_size_asks_nothing_witness :
  _batch_query literal_re_match sample_json_loads sample_repr_metadata
    (constant_backend relevant_body) in_task_order (ReagClient.mk "gpt-4o-mini" sample_system 0)
    "What is Superagent?" [superagent_doc; recipe_doc] None fresh_world
  = (fresh_world, Raise (QueryFailed ValueError)) /\
  _batch_query literal_re_match sample_json_loads sample_repr_metadata
    (constant_backend relevant_body) in_task_order (ReagClient.mk "gpt-4o-mini" sample_system (-1))
    "What is Superagent?" [superagent_doc; recipe_doc] None fresh_world
  = (fresh_world, Return []).
Proof.
  split.
  - apply (nonpositive_batch_size_asks_nothing literal_re_match sample_json_loads
             sample_repr_metadata (constant_backend relevant_body) in_task_order
             (ReagClient.mk "gpt-4o-mini" sample_system 0) "What is Superagent?"
             [superagent_doc; recipe_doc] None None [superagent_doc; recipe_doc]
             fresh_world); [vm_compute; discriminate | reflexivity | reflexivity].
  - apply (nonpositive_batch_size_asks_nothing literal_re_match sample_json_loads
             sample_repr_metadata (constant_backend relevant_body) in_task_order
             (ReagClient.mk "gpt-4o-mini" sample_system (-1)) "What is Superagent?"
             [superagent_doc; recipe_doc] None None [superagent_doc; recipe_doc]
             fresh_world); [vm_compute; discriminate | reflexivity | reflexivity].
Defined.

Lemma response_exceptions_are_accounted_for_witness :
  (exists body rest,
     choices (mk_response [PStr long_number_body]) = PStr body :: rest /\
     startswith (ReagClient.model default_client) "ollama/" = false /\
     sample_json_loads body = Raise ValueError /\ ValueError <> JSONDecodeError /\
     fresh_world = fresh_world) \/
  (ValueError ∈ [IndexError; TypeError; KeyError; AttributeError; ValidationError] /\
   (ValueError = IndexError -> choices (mk_response [PStr long_number_body]) = []) /\
   (fresh_world = fresh_world \/
    (ValueError = ValidationError /\
     startswith (ReagClient.model default_client) "ollama/" = false))).
Proof.
  apply (response_exceptions_are_accounted_for sample_json_loads default_client
           "What is Superagent?" [] superagent_doc
           (mk_response [PStr long_number_body]) fresh_world fresh_world ValueError).
  vm_compute. reflexivity.
Defined.
